(** * horgh/cloudflare: the DNS-update reconciliation flow

    A shallow embedding of the Go package [cloudflare] (the API client:
    [ListZones], [ListDNSRecords], [UpdateDNSRecord], [PurgeAllFiles]) and of
    the [cfupdate] command ([main], [getArgs], [getKeyFromFile],
    [dnsLookupHost], [getNameserver], [updateIP]).

    Go strings are byte strings: they are embedded as [string], whose
    characters are the 8-bit [ascii].  Go [error] values are embedded by their
    message.  Everything the program does to the outside world (files, HTTP,
    DNS, log output) goes through an explicit world state and an emitted list
    of events. *)

From Stdlib Require Import List String Ascii Bool Arith ZArith NArith Lia.
From Stdlib Require Import DecimalString.
Import ListNotations.

Local Open Scope string_scope.
Local Open Scope list_scope.
Local Open Scope nat_scope.

(* ================================================================== *)
(** ** Results and errors *)

Inductive result (E A : Type) : Type :=
| Ok (a : A)
| Err (e : E).
Arguments Ok {E A} a.
Arguments Err {E A} e.

(** A Go [error] value, by its message. *)
Definition error := string.

(* ================================================================== *)
(** ** The parts of Go's [strings], [fmt] and [bufio] the program uses *)

Module GoStrings.

(** [fmt.Sprintf("%d", n)]. *)
Definition itoa (n : Z) : string := NilZero.string_of_int (Z.to_int n).

(** Code points with Unicode's White_Space property below 0x80:
    ['\t'], ['\n'], ['\v'], ['\f'], ['\r'], [' ']. *)
Definition isSpace1 (a : ascii) : bool :=
  let n := nat_of_ascii a in
  ((9 <=? n) && (n <=? 13)) || (n =? 32).

(** UTF-8 encodings of U+0085 and U+00A0. *)
Definition isSpace2 (a b : ascii) : bool :=
  (nat_of_ascii a =? 194) &&
  ((nat_of_ascii b =? 133) || (nat_of_ascii b =? 160)).

(** UTF-8 encodings of U+1680, U+2000..U+200A, U+2028, U+2029, U+202F,
    U+205F and U+3000. *)
Definition isSpace3 (a b c : ascii) : bool :=
  let x := nat_of_ascii a in
  let y := nat_of_ascii b in
  let z := nat_of_ascii c in
  ((x =? 225) && (y =? 154) && (z =? 128)) ||
  ((x =? 226) && (y =? 128) &&
     (((128 <=? z) && (z <=? 138)) || (z =? 168) || (z =? 169) || (z =? 175))) ||
  ((x =? 226) && (y =? 129) && (z =? 159)) ||
  ((x =? 227) && (y =? 128) && (z =? 128)).

(** Removes leading white-space runes; [sp2] and [sp3] recognise the two- and
    three-byte ones in the order the bytes are met. *)
Fixpoint trimWith (sp2 : ascii -> ascii -> bool)
                  (sp3 : ascii -> ascii -> ascii -> bool) (s : string) : string :=
  match s with
  | EmptyString => s
  | String a r1 =>
      if isSpace1 a then trimWith sp2 sp3 r1 else
      match r1 with
      | EmptyString => s
      | String b r2 =>
          if sp2 a b then trimWith sp2 sp3 r2 else
          match r2 with
          | EmptyString => s
          | String c r3 => if sp3 a b c then trimWith sp2 sp3 r3 else s
          end
      end
  end.

Fixpoint rev (s acc : string) : string :=
  match s with
  | EmptyString => acc
  | String a r => rev r (String a acc)
  end.

Definition TrimLeftSpace (s : string) : string := trimWith isSpace2 isSpace3 s.

Definition TrimRightSpace (s : string) : string :=
  rev (trimWith (fun a b => isSpace2 b a) (fun a b c => isSpace3 c b a)
                (rev s "")) "".

(** [strings.TrimSpace]: all leading and trailing white space removed, as
    defined by Unicode. *)
Definition TrimSpace (s : string) : string := TrimRightSpace (TrimLeftSpace s).

(** [strings.Split(s, sep)] for a one-byte [sep]: the pieces between the
    separators, one more than there are separators. *)
Fixpoint Split (s : string) (sep : ascii) : list string :=
  match s with
  | EmptyString => [""]
  | String a r =>
      if Ascii.eqb a sep then "" :: Split r sep
      else match Split r sep with
           | p :: ps => String a p :: ps
           | [] => [String a ""]
           end
  end.

(** [strings.Fields]: the maximal runs of bytes that are not white space.
    Only the one-byte white space is recognised here; it is used on the
    specification side and in examples over ASCII text. *)
Fixpoint fieldsAux (s cur : string) : list string :=
  match s with
  | EmptyString => if (String.length cur =? 0)%nat then [] else [rev cur ""]
  | String a r =>
      if isSpace1 a
      then (if (String.length cur =? 0)%nat then fieldsAux r ""
            else rev cur "" :: fieldsAux r "")
      else fieldsAux r (String a cur)
  end.

Definition Fields (s : string) : list string := fieldsAux s "".

End GoStrings.

Module Bufio.
Import GoStrings.

Definition LF : ascii := "010"%char.
Definition CR : ascii := "013"%char.

(** [bufio.MaxScanTokenSize]. *)
Definition MaxScanTokenSize : N := 65536%N.

Definition ErrTooLong : error := "bufio.Scanner: token too long".

(** The data cut at every newline; [cur] holds the bytes of the line being
    read, last byte first.  A final line without newline is a line; an empty
    one is not. *)
Fixpoint rawLines (s cur : string) : list string :=
  match s with
  | EmptyString => if (String.length cur =? 0)%nat then [] else [rev cur ""]
  | String a r =>
      if Ascii.eqb a LF then rev cur "" :: rawLines r ""
      else rawLines r (String a cur)
  end.

(** [dropCR]: a trailing carriage return is removed. *)
Definition dropCR (s : string) : string :=
  match rev s "" with
  | String a r => if Ascii.eqb a CR then rev r "" else s
  | EmptyString => s
  end.

(** The tokens [Scan] delivers with [bufio.ScanLines], and the error [Err]
    reports once [Scan] has returned false.  A line that does not fit the
    buffer stops the scan with [ErrTooLong]; otherwise the error is the one
    the reader met, if any. *)
Fixpoint scanTokens (raw : list string) (readErr : option error)
  : list string * option error :=
  match raw with
  | [] => ([], readErr)
  | l :: rest =>
      if (MaxScanTokenSize <=? N.of_nat (String.length l))%N then ([], Some ErrTooLong)
      else let '(ts, e) := scanTokens rest readErr in (dropCR l :: ts, e)
  end.

Definition ScanLines (content : string) (readErr : option error)
  : list string * option error :=
  scanTokens (rawLines content "") readErr.

End Bufio.

(* ================================================================== *)
(** ** [net.IP] *)

Module Net.

(** A [net.IP] is a byte slice: 4 bytes for IPv4, 16 for IPv6. *)
Definition IP := list Byte.byte.

Definition IPv4len := 4.
Definition IPv6len := 16.

Definition v4InV6Prefix : list Byte.byte :=
  [Byte.x00; Byte.x00; Byte.x00; Byte.x00; Byte.x00; Byte.x00;
   Byte.x00; Byte.x00; Byte.x00; Byte.x00; Byte.xff; Byte.xff].

Fixpoint bytesEqual (a b : list Byte.byte) : bool :=
  match a, b with
  | [], [] => true
  | x :: a', y :: b' => Byte.eqb x y && bytesEqual a' b'
  | _, _ => false
  end.

(** [ip.Equal(x)]: an IPv4 address and the same address in IPv6 form are
    equal. *)
Definition Equal (ip x : IP) : bool :=
  if List.length ip =? List.length x then bytesEqual ip x
  else if (List.length ip =? IPv4len) && (List.length x =? IPv6len)
  then bytesEqual (firstn 12 x) v4InV6Prefix && bytesEqual ip (skipn 12 x)
  else if (List.length ip =? IPv6len) && (List.length x =? IPv4len)
  then bytesEqual (firstn 12 ip) v4InV6Prefix && bytesEqual (skipn 12 ip) x
  else false.

(** [ip.To4()]: the 4-byte form of an IPv4 address, [None] for [nil] (the
    address is not an IPv4 address). *)
Definition To4 (ip : IP) : option IP :=
  if List.length ip =? IPv4len then Some ip
  else if (List.length ip =? IPv6len) && bytesEqual (firstn 12 ip) v4InV6Prefix
  then Some (skipn 12 ip)
  else None.

End Net.

(* ================================================================== *)
(** ** [net/url]: query escaping and [url.Values] *)

Module URL.

Definition upperhex : string := "0123456789ABCDEF".

Definition hexDigit (n : nat) : ascii :=
  match String.get n upperhex with
  | Some c => c
  | None => "0"%char
  end.

(** [shouldEscape(c, encodeQueryComponent)]: letters, digits and [-_.~] are
    kept. *)
Definition shouldEscape (c : ascii) : bool :=
  let n := nat_of_ascii c in
  negb (((97 <=? n) && (n <=? 122)) || ((65 <=? n) && (n <=? 90)) ||
        ((48 <=? n) && (n <=? 57)) ||
        (n =? 45) || (n =? 95) || (n =? 46) || (n =? 126)).

(** [url.QueryEscape]. *)
Fixpoint QueryEscape (s : string) : string :=
  match s with
  | EmptyString => EmptyString
  | String c r =>
      if Ascii.eqb c " "%char then String "+"%char (QueryEscape r)
      else if shouldEscape c
      then String "%"%char
             (String (hexDigit (nat_of_ascii c / 16))
                (String (hexDigit (nat_of_ascii c mod 16)) (QueryEscape r)))
      else String c (QueryEscape r)
  end.

(** [url.Values] is a [map[string][]string]; the keys of the association
    list are pairwise different. *)
Definition Values := list (string * list string).

Fixpoint Get (v : Values) (key : string) : option (list string) :=
  match v with
  | [] => None
  | (k, vs) :: rest => if String.eqb k key then Some vs else Get rest key
  end.

(** [v.Add(key, value)]: appends to the values of [key]. *)
Fixpoint Add (v : Values) (key value : string) : Values :=
  match v with
  | [] => [(key, [value])]
  | (k, vs) :: rest =>
      if String.eqb k key then (k, vs ++ [value]) :: rest
      else (k, vs) :: Add rest key value
  end.

(** [v.Set(key, value)]: replaces the values of [key]. *)
Fixpoint Set_ (v : Values) (key value : string) : Values :=
  match v with
  | [] => [(key, [value])]
  | (k, vs) :: rest =>
      if String.eqb k key then (k, [value]) :: rest
      else (k, vs) :: Set_ rest key value
  end.

Fixpoint insertSorted (e : string * list string) (v : Values) : Values :=
  match v with
  | [] => [e]
  | e' :: rest =>
      if String.leb (fst e) (fst e') then e :: e' :: rest
      else e' :: insertSorted e rest
  end.

(** [slices.Sort(keys)], on the entries. *)
Definition sortByKey (v : Values) : Values :=
  fold_right insertSorted [] v.

Definition writePair (keyEscaped : string) (buf value : string) : string :=
  (if 0 <? String.length buf then buf ++ "&" else buf)
    ++ keyEscaped ++ "=" ++ QueryEscape value.

(** [v.Encode()]: "URL encoded" form, sorted by key. *)
Definition Encode (v : Values) : string :=
  fold_left (fun buf e => fold_left (writePair (QueryEscape (fst e))) (snd e) buf)
            (sortByKey v) "".

End URL.

(* ================================================================== *)
(** ** [encoding/json]: the value a struct marshals to *)

(** The programs marshal flat structs only: an object is a list of members
    with scalar values, in the order of the struct's fields. *)
Inductive JSONValue : Type :=
| JString (s : string)
| JBool (b : bool)
| JNumber (n : Z).

Definition JSONObject := list (string * JSONValue).


(* ================================================================== *)
(** ** Data model of package [cloudflare] and of [github.com/miekg/dns] *)

(** [Client] holds the information necessary to interact with the API. *)
Record Client := {
  Key : string;
  Email : string;
  Debug : bool
}.

(** [Error] holds a single error from an API response. *)
Record APIError := {
  Code : Z;
  Message : string
}.

(** [Response] holds generic portions of an API response. *)
Record Response := {
  Success : bool;
  Errors : list APIError
}.

(** [Zone] holds the result part of a List Zone response. *)
Record Zone := {
  ZID : string;     (* Zone.ID *)
  ZName : string    (* Zone.Name *)
}.

Record ListZoneResponse := {
  LZSuccess : bool;
  LZErrors : list APIError;
  Zones : list Zone
}.

(** [DNSRecord] holds information about a single DNS record. *)
Record DNSRecord := {
  ID : string;
  Type_ : string;
  Name : string;
  Content : string;
  Proxiable : bool;
  Proxied : bool;
  TTL : Z;
  Locked : bool;
  ZoneID : string;
  ZoneName : string;
  CreatedOn : string;
  ModifiedOn : string
}.

Record ListDNSResponse := {
  LDSuccess : bool;
  LDErrors : list APIError;
  Records : list DNSRecord
}.

(** [record.Content = c], on a copy of the struct. *)
Definition setContent (r : DNSRecord) (c : string) : DNSRecord :=
  {| ID := ID r; Type_ := Type_ r; Name := Name r; Content := c;
     Proxiable := Proxiable r; Proxied := Proxied r; TTL := TTL r;
     Locked := Locked r; ZoneID := ZoneID r; ZoneName := ZoneName r;
     CreatedOn := CreatedOn r; ModifiedOn := ModifiedOn r |}.

(** The JSON object [json.Marshal(record)] writes: one member per field, named
    by the field's [json] tag, in the order of the fields. *)
Definition marshalDNSRecord (r : DNSRecord) : JSONObject :=
  [ ("id", JString (ID r));
    ("type", JString (Type_ r));
    ("name", JString (Name r));
    ("content", JString (Content r));
    ("proxiable", JBool (Proxiable r));
    ("proxied", JBool (Proxied r));
    ("ttl", JNumber (TTL r));
    ("locked", JBool (Locked r));
    ("zone_id", JString (ZoneID r));
    ("zone_name", JString (ZoneName r));
    ("created_on", JString (CreatedOn r));
    ("modified_on", JString (ModifiedOn r)) ].

(** [PurgePayload{PurgeEverything: true}]. *)
Definition marshalPurgePayload (purgeEverything : bool) : JSONObject :=
  [ ("purge_everything", JBool purgeEverything) ].

Module DNS.

Definition TypeA : Z := 1.
Definition ClassINET : Z := 1.
Definition RcodeSuccess : Z := 0.

Record Question := {
  QName : string;
  Qtype : Z;
  Qclass : Z
}.

Record RR_Header := {
  HName : string;
  Rrtype : Z;
  Class : Z;
  Ttl : Z
}.

(** A resource record is a value of one of the library's record types;
    the type assertion to a [dns.A] pointer succeeds on the first constructor
    only. *)
Inductive RR : Type :=
| A (hdr : RR_Header) (a : Net.IP)
| AAAA (hdr : RR_Header) (aaaa : Net.IP)
| CNAME (hdr : RR_Header) (target : string)
| OtherRR (hdr : RR_Header) (rdata : string).

(** The query [dnsLookupHost] builds. *)
Record Query := {
  Id : Z;
  RecursionDesired : bool;
  Questions : list Question
}.

(** The fields of the reply [dnsLookupHost] reads. *)
Record Reply := {
  Rcode : Z;
  Answer : list RR
}.

End DNS.

(* ================================================================== *)
(** ** The outside world *)

Record Request := {
  Method : string;
  Url : string;
  Header : list (string * string);
  Body : option string
}.

(** What [httpClient.Do] hands back on success: the body, and what
    [ioutil.ReadAll(resp.Body)] and [resp.Body.Close()] report. *)
Record HTTPResponse := {
  RespBody : string;
  ReadErr : option error;
  CloseErr : option error
}.

(** An opened file: its bytes, and the error reading meets after them. *)
Record FileData := {
  FileBytes : string;
  FileReadErr : option error
}.

(** Log output, by the [log.Printf] that writes it. *)
Inductive LogMsg : Type :=
| LogFoundCurrentIP (ip : string)
| LogHostCurrentIP (ip : string)
| LogMatchesNoUpdate (ip : string)
| LogZone (z : Zone)
| LogRecord (r : DNSRecord)
| LogAlreadyHasIP (ip : string)
| LogUpdatingTo (r : DNSRecord)
| LogUpdated (hostname ip : string)
| LogResponse (r : Response).

Inductive Event : Type :=
| EvOpen (path : string)
| EvIPLookup
| EvDNSExchange (q : DNS.Query) (addr : string)
| EvHTTP (req : Request)
| EvLog (m : LogMsg)
| EvPrintDefaults.

(** Pure functions of the libraries, taken as they are. *)
Record Lib := {
  (** [net.ParseIP]: [None] for [nil]. *)
  net_ParseIP : string -> option Net.IP;
  (** [ip.String()]. *)
  IP_String : Net.IP -> string;
  (** [dns.Fqdn]. *)
  dns_Fqdn : string -> string;
  (** [dns.RcodeToString[rcode]]: the empty string where the map has no
      entry. *)
  dns_RcodeToString : Z -> string;
  (** The text [json.Marshal] writes for an object. *)
  json_Encode : JSONObject -> string;
  (** [json.Unmarshal] into the three response types. *)
  json_Unmarshal_ListZoneResponse : string -> result error ListZoneResponse;
  json_Unmarshal_ListDNSResponse : string -> result error ListDNSResponse;
  json_Unmarshal_Response : string -> result error Response
}.

(** The operations on the world [W]: each takes the world and returns its
    answer with the world after it. *)
Record Env (W : Type) := {
  (** [os.Open] followed by reading the whole file. *)
  os_Open : string -> W -> result error FileData * W;
  (** [icanhazip.Lookup]. *)
  icanhazip_Lookup : W -> result error Net.IP * W;
  (** [dns.Id]: a fresh transaction identifier. *)
  dns_Id : W -> Z * W;
  (** [dns.Exchange]. *)
  dns_Exchange : DNS.Query -> string -> W -> result error DNS.Reply * W;
  (** [httpClient.Do]. *)
  http_Do : Request -> W -> result error HTTPResponse * W
}.
Arguments os_Open {W} _ _ _.
Arguments icanhazip_Lookup {W} _ _.
Arguments dns_Id {W} _ _.
Arguments dns_Exchange {W} _ _ _ _.
Arguments http_Do {W} _ _ _.

(* ================================================================== *)
(** ** Computations: world passing, an error, and the events emitted *)

Definition M (W E A : Type) : Type := W -> result E A * W * list Event.

Definition ret {W E A} (a : A) : M W E A := fun w => (Ok a, w, []).

Definition fail {W E A} (e : E) : M W E A := fun w => (Err e, w, []).

Definition bind {W E A B} (m : M W E A) (f : A -> M W E B) : M W E B :=
  fun w =>
    match m w with
    | (Ok a, w1, ev1) => let '(r, w2, ev2) := f a w1 in (r, w2, ev1 ++ ev2)
    | (Err e, w1, ev1) => (Err e, w1, ev1)
    end.

(** [if err != nil { return ..., wrap(err) }]. *)
Definition mapErr {W E E' A} (wrap : E -> E') (m : M W E A) : M W E' A :=
  fun w =>
    match m w with
    | (Ok a, w1, ev1) => (Ok a, w1, ev1)
    | (Err e, w1, ev1) => (Err (wrap e), w1, ev1)
    end.

Definition emit {W E} (e : Event) : M W E unit := fun w => (Ok tt, w, [e]).

(** A primitive of the environment, with the event that records the call. *)
Definition call {W E A} (e : Event) (op : W -> result E A * W) : M W E A :=
  fun w => let '(r, w1) := op w in (r, w1, [e]).

Definition when_ {W E} (b : bool) (m : M W E unit) : M W E unit :=
  if b then m else ret tt.

Declare Scope go_scope.
Delimit Scope go_scope with go.
Notation "x <- m ;; k" := (bind m (fun x => k))
  (at level 61, m at next level, right associativity) : go_scope.
Notation "m ;;; k" := (bind m (fun _ => k))
  (at level 61, right associativity) : go_scope.
Local Open Scope go_scope.

Definition resultOf {W E A} (x : result E A * W * list Event) : result E A :=
  fst (fst x).
Definition worldOf {W E A} (x : result E A * W * list Event) : W :=
  snd (fst x).
Definition eventsOf {W E A} (x : result E A * W * list Event) : list Event :=
  snd x.

(* ================================================================== *)
(** ** Package [cloudflare] *)

Module Cloudflare.
Import GoStrings.

Section API.
Context {W : Type} (lib : Lib) (env : Env W).

Definition endpoint : string := "https://api.cloudflare.com/client/v4/".

(** [NewClient] creates an API client struct. *)
Definition NewClient (key email : string) : Client :=
  {| Key := key; Email := email; Debug := false |}.

(** [request] makes an API request.  [http.NewRequest] refuses only a method
    or a URL that is not well formed; the methods below are literals and the
    URLs are [endpoint] followed by query-escaped text, so the request is
    always built. *)
Definition request (c : Client) (method url : string) (body : option string)
  : M W error string :=
  let req := {| Method := method; Url := url;
                Header := [("X-Auth-Email", Email c); ("X-Auth-Key", Key c);
                           ("Content-Type", "application/json")];
                Body := body |} in
  resp <- mapErr (append "request problem: ")
                 (call (EvHTTP req) (http_Do env req)) ;;
  match ReadErr resp with
  | Some err => fail ("unable to read body: " ++ err)%string
  | None =>
      match CloseErr resp with
      | Some err2 => fail ("problem closing body: " ++ err2)%string
      | None => ret (RespBody resp)
      end
  end.

(** API errors concatenated for ease of return. *)
Definition errorsToError (apiErrors : list APIError) : error :=
  fold_left
    (fun (msg : string) (err : APIError) =>
       ((if (0 <? String.length msg)%nat then msg ++ ", " else msg)
          ++ "Code " ++ itoa (Code err) ++ ": " ++ Message err)%string)
    apiErrors "".

(** The [url.Values] that [ListZones] builds. *)
Definition listZonesValues (name status : string) (page perPage : Z)
    (order direction match_ : string) : URL.Values :=
  let values : URL.Values := [] in
  let values := if 0 <? String.length name
                then URL.Add values "name" name else values in
  let values := if String.length status =? 0
                then URL.Add values "status" "active"
                else URL.Add values "status" status in
  let values := if (0 <? page)%Z
                then URL.Add values "page" (itoa page) else values in
  let values := if (0 <? perPage)%Z
                then URL.Add values "per_page" (itoa perPage) else values in
  let values := if 0 <? String.length order
                then URL.Add values "order" order else values in
  let values := if 0 <? String.length direction
                then URL.Add values "direction" direction else values in
  let values := if 0 <? String.length match_
                then URL.Add values "match" match_ else values in
  values.

Definition listZonesURL (name status : string) (page perPage : Z)
    (order direction match_ : string) : string :=
  (endpoint ++ "zones?" ++
   URL.Encode (listZonesValues name status page perPage order direction match_))
  %string.

(** [ListZones] makes an API request to list zones. *)
Definition ListZones (c : Client) (name status : string) (page perPage : Z)
    (order direction match_ : string) : M W error (list Zone) :=
  let url := listZonesURL name status page perPage order direction match_ in
  body <- mapErr (append "API request failure: ") (request c "GET" url None) ;;
  match json_Unmarshal_ListZoneResponse lib body with
  | Err err => fail ("JSON decoding problem: " ++ err)%string
  | Ok zoneResponse =>
      if negb (LZSuccess zoneResponse)
      then fail ("list zone error: " ++ errorsToError (LZErrors zoneResponse))%string
      else ret (Zones zoneResponse)
  end.

(** The [url.Values] that [ListDNSRecords] builds. *)
Definition listDNSRecordsValues (recordType name content : string)
    (page perPage : Z) (order direction match_ : string) : URL.Values :=
  let values : URL.Values := [] in
  let values := if 0 <? String.length recordType
                then URL.Set_ values "type" recordType else values in
  let values := if 0 <? String.length name
                then URL.Set_ values "name" name else values in
  let values := if 0 <? String.length content
                then URL.Set_ values "content" content else values in
  let values := if (0 <? page)%Z
                then URL.Set_ values "page" (itoa page) else values in
  let values := if (0 <? perPage)%Z
                then URL.Set_ values "per_page" (itoa perPage) else values in
  let values := if 0 <? String.length order
                then URL.Set_ values "order" order else values in
  let values := if 0 <? String.length direction
                then URL.Set_ values "direction" direction else values in
  let values := if 0 <? String.length match_
                then URL.Set_ values "match" match_ else values in
  values.

(** [ListDNSRecords] makes an API request for DNS records. *)
Definition ListDNSRecords (c : Client) (zoneID recordType name content : string)
    (page perPage : Z) (order direction match_ : string)
  : M W error (list DNSRecord) :=
  if String.length zoneID =? 0
  then fail "you must provide a zone ID. Use ListZones() to find one"
  else
    let values := listDNSRecordsValues recordType name content page perPage
                                       order direction match_ in
    let url := (endpoint ++ "zones/" ++ URL.QueryEscape zoneID
                  ++ "/dns_records?" ++ URL.Encode values)%string in
    body <- mapErr (append "API request failure: ") (request c "GET" url None) ;;
    match json_Unmarshal_ListDNSResponse lib body with
    | Err err => fail ("JSON decoding problem: " ++ err)%string
    | Ok dnsResponse =>
        if negb (LDSuccess dnsResponse)
        then fail ("list DNS records error: "
                     ++ errorsToError (LDErrors dnsResponse))%string
        else ret (Records dnsResponse)
    end.

Definition updateDNSRecordURL (record : DNSRecord) : string :=
  (endpoint ++ "zones/" ++ URL.QueryEscape (ZoneID record)
     ++ "/dns_records/" ++ URL.QueryEscape (ID record))%string.

(** [UpdateDNSRecord] updates a record. *)
Definition UpdateDNSRecord (c : Client) (record : DNSRecord) : M W error unit :=
  let jsonPayload := json_Encode lib (marshalDNSRecord record) in
  let url := updateDNSRecordURL record in
  body <- mapErr (append "API request failure: ")
                 (request c "PUT" url (Some jsonPayload)) ;;
  match json_Unmarshal_Response lib body with
  | Err err => fail ("JSON decoding problem: " ++ err ++ ": " ++ body)%string
  | Ok response =>
      if negb (Success response)
      then fail ("update DNS record error: " ++ errorsToError (Errors response)
                   ++ ". Payload: " ++ jsonPayload)%string
      else ret tt
  end.

(** [PurgeAllFiles] purges all of the files from the cache for the given
    zone. *)
Definition PurgeAllFiles (c : Client) (zoneID : string) : M W error unit :=
  if String.eqb zoneID ""
  then fail "you must provide a zone ID"
  else
    let jsonPayload := json_Encode lib (marshalPurgePayload true) in
    let url := (endpoint ++ "zones/" ++ URL.QueryEscape zoneID
                  ++ "/purge_cache")%string in
    body <- mapErr (append "API request failure: ")
                   (request c "DELETE" url (Some jsonPayload)) ;;
    match json_Unmarshal_Response lib body with
    | Err err => fail ("JSON decoding problem: " ++ err ++ ": " ++ body)%string
    | Ok response =>
        when_ (Debug c) (emit (EvLog (LogResponse response))) ;;;
        if negb (Success response)
        then fail ("purge error: " ++ errorsToError (Errors response)
                     ++ ". Payload: " ++ jsonPayload)%string
        else ret tt
    end.

End API.
End Cloudflare.

(* ================================================================== *)
(** ** Command [cfupdate] *)

Module Cfupdate.
Import GoStrings.

(** The values of the command line flags after [flag.Parse]. *)
Record Flags := {
  email : string;
  domain : string;
  hostname : string;
  keyFile : string;
  ipString : string;
  onlyIfDifferent : bool;
  verbose : bool
}.

(** [Args] are command line arguments.  A [nil] IP is [None]. *)
Record Args := {
  Email : string;
  Domain : string;
  Hostname : string;
  KeyFile : string;
  IP : option Net.IP;
  OnlyIfDifferent : bool;
  Verbose : bool
}.

(** How [main] ends other than by returning: [os.Exit(1)] after the usage
    text, or [log.Fatal] with a message. *)
Inductive Exit : Type :=
| Usage
| Fatal (msg : string).

(** The loop of [getNameserver] over the scanned lines. *)
Fixpoint scanNameserver (lines : list string) : option string :=
  match lines with
  | [] => None
  | line :: rest =>
      let text := TrimSpace line in
      match text with
      | EmptyString => scanNameserver rest
      | String c _ =>
          if Ascii.eqb c "#"%char then scanNameserver rest
          else
            match Split text " "%char with
            | [p0; p1] =>
                if String.eqb p0 "nameserver" then Some p1
                else scanNameserver rest
            | _ => scanNameserver rest
            end
      end
  end.

Section Program.
Context {W : Type} (lib : Lib) (env : Env W).

Definition getArgs (f : Flags) : result error Args :=
  if String.length (email f) =? 0 then Err "You must provide an email."
  else if String.length (domain f) =? 0 then Err "You must provide a domain."
  else if String.length (hostname f) =? 0 then Err "You must provide a hostname."
  else if String.length (keyFile f) =? 0
  then Err "You must provide an API key file."
  else
    let mk ip := {| Email := email f; Domain := domain f;
                    Hostname := hostname f; KeyFile := keyFile f; IP := ip;
                    OnlyIfDifferent := onlyIfDifferent f;
                    Verbose := verbose f |} in
    if 0 <? String.length (ipString f)
    then match net_ParseIP lib (ipString f) with
         | None => Err "Invalid IP address."
         | Some ip => Ok (mk (Some ip))
         end
    else Ok (mk None).

Definition getKeyFromFile (keyFile : string) : M W error string :=
  fd <- call (EvOpen keyFile) (os_Open env keyFile) ;;
  match FileReadErr fd with
  | Some err => fail ("Problem reading from file: " ++ err)%string
  | None =>
      let key := TrimSpace (FileBytes fd) in
      if String.length key =? 0 then fail "No key found in file."
      else ret key
  end.

(** Retrieve the first nameserver from /etc/resolv.conf *)
Definition getNameserver : M W error string :=
  fd <- call (EvOpen "/etc/resolv.conf") (os_Open env "/etc/resolv.conf") ;;
  let '(lines, scanErr) := Bufio.ScanLines (FileBytes fd) (FileReadErr fd) in
  match scanNameserver lines with
  | Some nameserver => ret nameserver
  | None =>
      match scanErr with
      | Some err => fail ("Scan error: " ++ err)%string
      | None => fail "No resolver found"
      end
  end.

(** The loop of [dnsLookupHost] over the answer section. *)
Definition collectA (answer : list DNS.RR) : list Net.IP :=
  fold_left
    (fun ips record =>
       match record with
       | DNS.A _ a => ips ++ [a]
       | _ => ips
       end)
    answer [].

Definition dnsLookupHost (host : string) : M W error (list Net.IP) :=
  nameserver <- mapErr (append "Unable to determine a nameserver: ")
                       getNameserver ;;
  id <- (fun w => let '(i, w1) := dns_Id env w in (Ok i, w1, [])) ;;
  let msg := {| DNS.Id := id; DNS.RecursionDesired := true;
                DNS.Questions := [ {| DNS.QName := dns_Fqdn lib host;
                                      DNS.Qtype := DNS.TypeA;
                                      DNS.Qclass := DNS.ClassINET |} ] |} in
  let addr := (nameserver ++ ":53")%string in
  in_ <- mapErr (append "Unable to perform lookup: ")
                (call (EvDNSExchange msg addr) (dns_Exchange env msg addr)) ;;
  if negb (DNS.Rcode in_ =? DNS.RcodeSuccess)%Z
  then fail ("Lookup problem: " ++ dns_RcodeToString lib (DNS.Rcode in_))%string
  else ret (collectA (DNS.Answer in_)).

(** [record.Name == hostname && record.Type == recordType]. *)
Definition matches (hostname recordType : string) (record : DNSRecord) : bool :=
  String.eqb (Name record) hostname && String.eqb (Type_ record) recordType.

(** The inner loop of [updateIP], over the records of one zone. *)
Fixpoint recordLoop (verbose : bool) (hostname recordType : string)
    (records matchingRecords : list DNSRecord) : M W error (list DNSRecord) :=
  match records with
  | [] => ret matchingRecords
  | record :: rest =>
      when_ verbose (emit (EvLog (LogRecord record))) ;;;
      recordLoop verbose hostname recordType rest
        (if matches hostname recordType record
         then matchingRecords ++ [record] else matchingRecords)
  end.

(** The outer loop of [updateIP], over the zones. *)
Fixpoint zoneLoop (client : Client) (verbose : bool)
    (hostname recordType : string) (zones : list Zone)
    (matchingRecords : list DNSRecord) : M W error (list DNSRecord) :=
  match zones with
  | [] => ret matchingRecords
  | zone :: rest =>
      when_ verbose (emit (EvLog (LogZone zone))) ;;;
      records <- mapErr (append "Unable to list DNS records: ")
                   (Cloudflare.ListDNSRecords lib env client (ZID zone)
                      recordType hostname "" (-1) (-1) "" "" "") ;;
      matchingRecords <- recordLoop verbose hostname recordType records
                                    matchingRecords ;;
      zoneLoop client verbose hostname recordType rest matchingRecords
  end.

(** What [updateIP] does with the record it has settled on. *)
Definition conditionalUpdate (client : Client) (hostname : string)
    (verbose : bool) (ip : Net.IP) (record : DNSRecord) : M W error unit :=
  if String.eqb (Content record) (IP_String lib ip)
  then emit (EvLog (LogAlreadyHasIP (IP_String lib ip)))
  else
    let record := setContent record (IP_String lib ip) in
    when_ verbose (emit (EvLog (LogUpdatingTo record))) ;;;
    mapErr (append "Unable to update DNS record: ")
           (Cloudflare.UpdateDNSRecord lib env client record) ;;;
    emit (EvLog (LogUpdated hostname (IP_String lib ip))).

Definition updateIP (key email domain hostname : string) (verbose : bool)
    (ip : Net.IP) : M W error unit :=
  let client := Cloudflare.NewClient key email in
  zones <- mapErr (append "Unable to list zones: ")
             (Cloudflare.ListZones lib env client domain "" (-1) (-1) "" "" "") ;;
  let recordType := "A" in
  matchingRecords <- zoneLoop client verbose hostname recordType zones [] ;;
  if List.length matchingRecords =? 0
  then fail "Record not found. No update performed."
  else if 1 <? List.length matchingRecords
  then fail "Multiple matching records found. Unable to perform update."
  else
    match matchingRecords with
    | record :: _ => conditionalUpdate client hostname verbose ip record
    | [] => fail "index out of range" (* not reached: the length is 1 *)
    end.

Definition main (f : Flags) : M W Exit unit :=
  args <- match getArgs f with
          | Err _ => emit EvPrintDefaults ;;; fail Usage
          | Ok args => ret args
          end ;;
  key <- mapErr (fun err => Fatal ("Unable to read key: " ++ err))
                (getKeyFromFile (KeyFile args)) ;;
  ip <- match IP args with
        | Some ip => ret ip
        | None =>
            myIP <- mapErr (fun err =>
                              Fatal ("Unable to look up IP from icanhazip.com: "
                                       ++ err))
                           (call EvIPLookup (icanhazip_Lookup env)) ;;
            when_ (Verbose args)
                  (emit (EvLog (LogFoundCurrentIP (IP_String lib myIP)))) ;;;
            ret myIP
        end ;;
  if negb (OnlyIfDifferent args)
  then mapErr Fatal (updateIP key (Email args) (Domain args) (Hostname args)
                              (Verbose args) ip)
  else
    ips <- mapErr Fatal (dnsLookupHost (Hostname args)) ;;
    if List.length ips =? 0
    then fail (Fatal
           "Unable to determine current record IP via DNS. No IPs found.")
    else if 1 <? List.length ips
    then fail (Fatal ("There are " ++ itoa (Z.of_nat (List.length ips))
                        ++ " A records. Unable to update."))
    else
      match ips with
      | currentIP :: _ =>
          when_ (Verbose args)
                (emit (EvLog (LogHostCurrentIP (IP_String lib currentIP)))) ;;;
          if Net.Equal currentIP ip
          then when_ (Verbose args)
                     (emit (EvLog (LogMatchesNoUpdate (IP_String lib ip))))
          else mapErr Fatal (updateIP key (Email args) (Domain args)
                                      (Hostname args) (Verbose args) ip)
      | [] => fail (Fatal "index out of range") (* not reached *)
      end.

End Program.
End Cfupdate.

(* ================================================================== *)
(** ** A test double for the libraries and the world

    Lookup tables stand for the library functions, and the world is a
    script: the files, the answers of the lookup service and of the name
    server, and the bodies the API answers with, in order. *)

Module Fixture.
Import Byte.

(** 203.0.113.5 and 203.0.113.9 as [net.ParseIP] returns them, and
    2001:db8::1. *)
Definition ip5 : Net.IP := Net.v4InV6Prefix ++ [xcb; x00; x71; x05].
Definition ip9 : Net.IP := Net.v4InV6Prefix ++ [xcb; x00; x71; x09].
Definition ip6 : Net.IP :=
  [x20; x01; x0d; xb8; x00; x00; x00; x00;
   x00; x00; x00; x00; x00; x00; x00; x01].

Definition quote : string := String "034"%char "".

Definition encodeValue (v : JSONValue) : string :=
  match v with
  | JString s => (quote ++ s ++ quote)%string
  | JBool true => "true"
  | JBool false => "false"
  | JNumber n => GoStrings.itoa n
  end.

Definition encodeObject (o : JSONObject) : string :=
  ("{" ++ String.concat ","
            (map (fun m : string * JSONValue =>
                    (quote ++ fst m ++ quote ++ ":" ++ encodeValue (snd m))%string)
                 o)
       ++ "}")%string.

Definition zone1 : Zone := {| ZID := "z1"; ZName := "example.com" |}.

Definition record1 : DNSRecord :=
  {| ID := "r1"; Type_ := "A"; Name := "host.example.com";
     Content := "203.0.113.9"; Proxiable := true; Proxied := false;
     TTL := 120; Locked := false; ZoneID := "z1";
     ZoneName := "example.com"; CreatedOn := "2016-09-15T20:12:06Z";
     ModifiedOn := "2016-09-15T20:12:06Z" |}.

Definition cname1 : DNSRecord :=
  {| ID := "r2"; Type_ := "CNAME"; Name := "www.example.com";
     Content := "host.example.com"; Proxiable := true; Proxied := true;
     TTL := 1; Locked := false; ZoneID := "z1";
     ZoneName := "example.com"; CreatedOn := "2016-09-15T20:12:06Z";
     ModifiedOn := "2016-09-15T20:12:06Z" |}.

Definition lib : Lib :=
  {| net_ParseIP := fun s =>
       if String.eqb s "203.0.113.5" then Some ip5
       else if String.eqb s "203.0.113.9" then Some ip9
       else if String.eqb s "2001:db8::1" then Some ip6
       else None;
     IP_String := fun ip =>
       if Net.Equal ip ip5 then "203.0.113.5"
       else if Net.Equal ip ip9 then "203.0.113.9"
       else if Net.Equal ip ip6 then "2001:db8::1"
       else "<nil>";
     dns_Fqdn := fun s => (s ++ ".")%string;
     dns_RcodeToString := fun rcode =>
       if (rcode =? 0)%Z then "NOERROR"
       else if (rcode =? 2)%Z then "SERVFAIL"
       else if (rcode =? 3)%Z then "NXDOMAIN"
       else "";
     json_Encode := encodeObject;
     json_Unmarshal_ListZoneResponse := fun body =>
       if String.eqb body "zones"
       then Ok {| LZSuccess := true; LZErrors := []; Zones := [zone1] |}
       else Err "unexpected end of JSON input";
     json_Unmarshal_ListDNSResponse := fun body =>
       if String.eqb body "records-old"
       then Ok {| LDSuccess := true; LDErrors := [];
                  Records := [cname1; record1] |}
       else if String.eqb body "records-new"
       then Ok {| LDSuccess := true; LDErrors := [];
                  Records := [cname1; setContent record1 "203.0.113.5"] |}
       else if String.eqb body "records-none"
       then Ok {| LDSuccess := true; LDErrors := []; Records := [cname1] |}
       else if String.eqb body "records-two"
       then Ok {| LDSuccess := true; LDErrors := [];
                  Records := [record1; record1] |}
       else Err "unexpected end of JSON input";
     json_Unmarshal_Response := fun body =>
       if String.eqb body "ok"
       then Ok {| Success := true; Errors := [] |}
       else Err "unexpected end of JSON input" |}.

Record World := {
  resolvConf : string;
  keyFileBytes : string;
  lookupIP : Net.IP;
  nextId : Z;
  reply : DNS.Reply;
  bodies : list string
}.

Definition env : Env World :=
  {| os_Open := fun path w =>
       if String.eqb path "/etc/resolv.conf"
       then (Ok {| FileBytes := resolvConf w; FileReadErr := None |}, w)
       else if String.eqb path "key.txt"
       then (Ok {| FileBytes := keyFileBytes w; FileReadErr := None |}, w)
       else (Err ("open " ++ path ++ ": no such file or directory")%string, w);
     icanhazip_Lookup := fun w => (Ok (lookupIP w), w);
     dns_Id := fun w => (nextId w, w);
     dns_Exchange := fun _ _ w => (Ok (reply w), w);
     http_Do := fun _ w =>
       match bodies w with
       | [] => (Err "connection refused", w)
       | b :: rest =>
           (Ok {| RespBody := b; ReadErr := None; CloseErr := None |},
            {| resolvConf := resolvConf w; keyFileBytes := keyFileBytes w;
               lookupIP := lookupIP w; nextId := nextId w;
               reply := reply w; bodies := rest |})
       end |}.

Definition LF : string := String Bufio.LF "".
Definition TAB : string := String "009"%char "".

Definition hdrA : DNS.RR_Header :=
  {| DNS.HName := "host.example.com."; DNS.Rrtype := DNS.TypeA;
     DNS.Class := DNS.ClassINET; DNS.Ttl := 120 |}.

Definition hdrCNAME : DNS.RR_Header :=
  {| DNS.HName := "host.example.com."; DNS.Rrtype := 5;
     DNS.Class := DNS.ClassINET; DNS.Ttl := 120 |}.

(** A world: a resolver file, a key file, the address the lookup service
    reports, the name server's reply and the API's bodies. *)
Definition world (conf : string) (answer : list DNS.RR) (bodies : list string)
  : World :=
  {| resolvConf := conf; keyFileBytes := ("secret" ++ LF)%string;
     lookupIP := ip5; nextId := 7;
     reply := {| DNS.Rcode := 0; DNS.Answer := answer |};
     bodies := bodies |}.

Definition conf1 : string :=
  ("# Generated by resolvconf" ++ LF ++ LF ++
   "search example.com" ++ LF ++
   "nameserver 192.0.2.53" ++ LF ++
   "nameserver 192.0.2.54" ++ LF)%string.

(** A resolver file whose first directive uses a tab, and one whose only
    directive uses two spaces. *)
Definition confTab : string :=
  ("nameserver" ++ TAB ++ "192.0.2.53" ++ LF ++
   "nameserver 192.0.2.54" ++ LF)%string.

Definition confTwoSpaces : string :=
  ("nameserver  192.0.2.53" ++ LF)%string.

(** The listing returns two records that match. *)
Definition twoMatches : World := world conf1 [] ["zones"; "records-two"].

(** The API answers a first run, which updates the record, and a second
    run, to which it lists the updated record. *)
Definition firstRun : World :=
  world conf1 [] ["zones"; "records-old"; "ok"; "zones"; "records-new"].

(** The command line: the explicit IP, if any, and the change-only mode. *)
Definition flags (ip : string) (only : bool) : Cfupdate.Flags :=
  {| Cfupdate.email := "me@example.com"; Cfupdate.domain := "example.com";
     Cfupdate.hostname := "host.example.com"; Cfupdate.keyFile := "key.txt";
     Cfupdate.ipString := ip; Cfupdate.onlyIfDifferent := only;
     Cfupdate.verbose := false |}.

Definition args (ip : option Net.IP) (only : bool) : Cfupdate.Args :=
  {| Cfupdate.Email := "me@example.com"; Cfupdate.Domain := "example.com";
     Cfupdate.Hostname := "host.example.com"; Cfupdate.KeyFile := "key.txt";
     Cfupdate.IP := ip; Cfupdate.OnlyIfDifferent := only;
     Cfupdate.Verbose := false |}.

(** The name server answers with the host's one address, 203.0.113.5 in
    its 4-byte form; the API is not there. *)
Definition upToDate : World :=
  world conf1 [DNS.A hdrA [xcb; x00; x71; x05]] [].

End Fixture.

(* ================================================================== *)
(** ** Definitions used to state the properties *)

(** Kinds of events. *)

Definition isProviderCall (e : Event) : bool :=
  match e with EvHTTP _ => true | _ => false end.

Definition isUpdateCall (e : Event) : bool :=
  match e with EvHTTP req => String.eqb (Method req) "PUT" | _ => false end.

Definition isIPLookup (e : Event) : bool :=
  match e with EvIPLookup => true | _ => false end.

Definition count (p : Event -> bool) (evs : list Event) : nat :=
  List.length (filter p evs).

(** The headers [request] sets. *)
Definition apiHeader (c : Client) : list (string * string) :=
  [("X-Auth-Email", Email c); ("X-Auth-Key", Key c);
   ("Content-Type", "application/json")].

(** The pairs [Encode] writes, in the order of the entries. *)
Definition pairsOf (v : URL.Values) : list string :=
  flat_map (fun e => map (fun x => (URL.QueryEscape (fst e) ++ "=" ++ URL.QueryEscape x)%string)
                         (snd e)) v.

Definition joinFrom (buf : string) (ps : list string) : string :=
  fold_left (fun (buf p : string) =>
               ((if (0 <? String.length buf)%nat then buf ++ "&" else buf) ++ p)%string)
            ps buf.

(** A parameter of a query string, when it is sent. *)
Definition queryParam (present : bool) (key value : string) : list string :=
  if present then [(key ++ "=" ++ URL.QueryEscape value)%string] else [].

(** The query string the parameters of [ListZones] call for: the parameters
    that are sent, by name. *)
Definition zonesQuery (name status : string) (page perPage : Z)
    (order direction match_ : string) : string :=
  String.concat "&"
    (queryParam (0 <? String.length direction) "direction" direction ++
     queryParam (0 <? String.length match_) "match" match_ ++
     queryParam (0 <? String.length name) "name" name ++
     queryParam (0 <? String.length order) "order" order ++
     queryParam (0 <? page)%Z "page" (GoStrings.itoa page) ++
     queryParam (0 <? perPage)%Z "per_page" (GoStrings.itoa perPage) ++
     queryParam true "status"
       (if String.length status =? 0 then "active" else status)).

Definition zonesKeys : list string :=
  ["name"; "status"; "page"; "per_page"; "order"; "direction"; "match"].

Definition subsetb (xs ys : list string) : bool :=
  forallb (fun x => existsb (String.eqb x) ys) xs.

(** The addresses of the records of type A, in the order of the answer
    section. *)
Definition addressesOfA (answer : list DNS.RR) : list Net.IP :=
  flat_map (fun record => match record with
                          | DNS.A _ a => [a]
                          | _ => []
                          end) answer.

(** The query [dnsLookupHost] sends for [host] with identifier [id]. *)
Definition queryFor (lib : Lib) (id : Z) (host : string) : DNS.Query :=
  {| DNS.Id := id; DNS.RecursionDesired := true;
     DNS.Questions := [ {| DNS.QName := dns_Fqdn lib host;
                           DNS.Qtype := DNS.TypeA;
                           DNS.Qclass := DNS.ClassINET |} ] |}.

(** Resolver-config parsing as the specification words it: lines that are
    blank or begin with '#' after trimming are skipped, and the first line of
    exactly two white-space separated tokens whose first token is
    "nameserver" gives its second token. *)
Fixpoint specNameserver (lines : list string) : option string :=
  match lines with
  | [] => None
  | line :: rest =>
      let text := GoStrings.TrimSpace line in
      match text with
      | EmptyString => specNameserver rest
      | String c _ =>
          if Ascii.eqb c "#"%char then specNameserver rest
          else
            match GoStrings.Fields text with
            | [p0; p1] =>
                if String.eqb p0 "nameserver" then Some p1
                else specNameserver rest
            | _ => specNameserver rest
            end
      end
  end.

(** What [getNameserver] reads from one line: the second piece of a line
    that is, once trimmed, neither empty nor a comment, and that single
    spaces cut in exactly two pieces, the first being "nameserver". *)
Definition directive (line : string) : option string :=
  let text := GoStrings.TrimSpace line in
  match text with
  | EmptyString => None
  | String c _ =>
      if Ascii.eqb c "#"%char then None
      else match GoStrings.Split text " "%char with
           | [p0; p1] => if String.eqb p0 "nameserver" then Some p1 else None
           | _ => None
           end
  end.

(** The first value present. *)
Fixpoint firstSome {A} (l : list (option A)) : option A :=
  match l with
  | [] => None
  | Some a :: _ => Some a
  | None :: rest => firstSome rest
  end.

(** *** The phases of [updateIP] and of [main] *)

Section Phases.
Context {W : Type} (lib : Lib) (env : Env W).

(** The log lines of the inner loop of [updateIP]. *)
Definition recordLogs (verbose : bool) (records : list DNSRecord) : list Event :=
  if verbose then map (fun record => EvLog (LogRecord record)) records else [].

(** The listing of the DNS records of every zone: what the loops of
    [updateIP] ask of the API and log, with all the records the calls to
    [ListDNSRecords] return, in order. *)
Fixpoint listRecords (client : Client) (verbose : bool)
    (hostname recordType : string) (zones : list Zone)
  : M W error (list DNSRecord) :=
  match zones with
  | [] => ret []
  | zone :: rest =>
      when_ verbose (emit (EvLog (LogZone zone))) ;;;
      records <- mapErr (append "Unable to list DNS records: ")
                   (Cloudflare.ListDNSRecords lib env client (ZID zone)
                      recordType hostname "" (-1) (-1) "" "" "") ;;
      (fun w => (Ok tt, w, recordLogs verbose records)) ;;;
      more <- listRecords client verbose hostname recordType rest ;;
      ret (records ++ more)
  end.

(** The listing step of [updateIP]: the zones of the domain, then the
    records of each. *)
Definition listAll (key email domain hostname : string) (verbose : bool)
  : M W error (list DNSRecord) :=
  let client := Cloudflare.NewClient key email in
  zones <- mapErr (append "Unable to list zones: ")
             (Cloudflare.ListZones lib env client domain "" (-1) (-1) "" "" "") ;;
  listRecords client verbose hostname "A" zones.

(** The two errors of the disambiguation step. *)
Definition cardinalityError (r : result error unit) : Prop :=
  r = Err "Record not found. No update performed." \/
  r = Err "Multiple matching records found. Unable to perform update.".

(** The start of [main] once the arguments are read: the key, and the IP to
    set. *)
Definition desiredIP (args : Cfupdate.Args) : M W Cfupdate.Exit (string * Net.IP) :=
  key <- mapErr (fun err => Cfupdate.Fatal ("Unable to read key: " ++ err))
                (Cfupdate.getKeyFromFile env (Cfupdate.KeyFile args)) ;;
  ip <- match Cfupdate.IP args with
        | Some ip => ret ip
        | None =>
            myIP <- mapErr (fun err =>
                              Cfupdate.Fatal
                                ("Unable to look up IP from icanhazip.com: "
                                   ++ err))
                           (call EvIPLookup (icanhazip_Lookup env)) ;;
            when_ (Cfupdate.Verbose args)
                  (emit (EvLog (LogFoundCurrentIP (IP_String lib myIP)))) ;;;
            ret myIP
        end ;;
  ret (key, ip).

Definition runUpdate (args : Cfupdate.Args) (key : string) (ip : Net.IP)
  : M W Cfupdate.Exit unit :=
  mapErr Cfupdate.Fatal
    (Cfupdate.updateIP lib env key (Cfupdate.Email args) (Cfupdate.Domain args)
       (Cfupdate.Hostname args) (Cfupdate.Verbose args) ip).

(** The rest of [main], from the IP to set: the update, at once or after
    the comparison with the host's current address. *)
Definition reconcile (args : Cfupdate.Args) (key : string) (ip : Net.IP)
  : M W Cfupdate.Exit unit :=
  if negb (Cfupdate.OnlyIfDifferent args)
  then runUpdate args key ip
  else
    ips <- mapErr Cfupdate.Fatal
             (Cfupdate.dnsLookupHost lib env (Cfupdate.Hostname args)) ;;
    if List.length ips =? 0
    then fail (Cfupdate.Fatal
           "Unable to determine current record IP via DNS. No IPs found.")
    else if 1 <? List.length ips
    then fail (Cfupdate.Fatal
                 ("There are " ++ GoStrings.itoa (Z.of_nat (List.length ips))
                    ++ " A records. Unable to update."))
    else
      match ips with
      | currentIP :: _ =>
          when_ (Cfupdate.Verbose args)
                (emit (EvLog (LogHostCurrentIP (IP_String lib currentIP)))) ;;;
          if Net.Equal currentIP ip
          then when_ (Cfupdate.Verbose args)
                     (emit (EvLog (LogMatchesNoUpdate (IP_String lib ip))))
          else runUpdate args key ip
      | [] => fail (Cfupdate.Fatal "index out of range")
      end.

End Phases.

(** Every event a computation emits satisfies [P]. *)
Definition emitsOnly {W E A} (P : Event -> Prop) (m : M W E A) : Prop :=
  forall w, Forall P (eventsOf (m w)).

(** Events that are not a call of [UpdateDNSRecord]. *)
Definition noUpdate (e : Event) : Prop := isUpdateCall e = false.

(** The request [UpdateDNSRecord] sends for [record]. *)
Definition updateRequest (lib : Lib) (c : Client) (record : DNSRecord) : Request :=
  {| Method := "PUT"; Url := Cloudflare.updateDNSRecordURL record;
     Header := apiHeader c;
     Body := Some (json_Encode lib (marshalDNSRecord record)) |}.


(* ================================================================== *)
(** ** Further definitions: the purge command, and what the further
    properties are stated with *)

(** The first and the last byte of a string, and whether a byte occurs. *)
Definition firstByte (s : string) : option ascii :=
  match s with
  | EmptyString => None
  | String a _ => Some a
  end.

Fixpoint lastByte (s : string) : option ascii :=
  match s with
  | EmptyString => None
  | String a EmptyString => Some a
  | String _ r => lastByte r
  end.

Fixpoint contains (c : ascii) (s : string) : bool :=
  match s with
  | EmptyString => false
  | String a r => Ascii.eqb a c || contains c r
  end.

(** The query string the parameters of [ListDNSRecords] call for. *)
Definition recordsQuery (recordType name content : string) (page perPage : Z)
    (order direction match_ : string) : string :=
  String.concat "&"
    (queryParam (0 <? String.length content) "content" content ++
     queryParam (0 <? String.length direction) "direction" direction ++
     queryParam (0 <? String.length match_) "match" match_ ++
     queryParam (0 <? String.length name) "name" name ++
     queryParam (0 <? String.length order) "order" order ++
     queryParam (0 <? page)%Z "page" (GoStrings.itoa page) ++
     queryParam (0 <? perPage)%Z "per_page" (GoStrings.itoa perPage) ++
     queryParam (0 <? String.length recordType) "type" recordType).

(** The request [ListDNSRecords] sends. *)
Definition recordsRequest (c : Client) (zoneID recordType name content : string)
    (page perPage : Z) (order direction match_ : string) : Request :=
  {| Method := "GET";
     Url := (Cloudflare.endpoint ++ "zones/" ++ URL.QueryEscape zoneID
               ++ "/dns_records?"
               ++ recordsQuery recordType name content page perPage order
                               direction match_)%string;
     Header := apiHeader c; Body := None |}.

Definition recordsKeys : list string :=
  ["type"; "name"; "content"; "page"; "per_page"; "order"; "direction"; "match"].

(** The request [ListZones] sends for the zones of [domain], as [updateIP]
    and the purge command call it. *)
Definition zonesRequest (c : Client) (domain : string) : Request :=
  {| Method := "GET";
     Url := Cloudflare.listZonesURL domain "" (-1) (-1) "" "" "";
     Header := apiHeader c; Body := None |}.

(** The API requests among the events. *)
Definition requestsOf (evs : list Event) : list Event := filter isProviderCall evs.

(** The log lines that only the verbose mode writes. *)
Definition isVerboseLog (e : Event) : bool :=
  match e with
  | EvLog (LogZone _) | EvLog (LogRecord _) | EvLog (LogUpdatingTo _)
  | EvLog (LogFoundCurrentIP _) | EvLog (LogHostCurrentIP _)
  | EvLog (LogMatchesNoUpdate _) => true
  | _ => false
  end.

(** The events without the log lines of the verbose mode. *)
Definition quiet (evs : list Event) : list Event :=
  filter (fun e => negb (isVerboseLog e)) evs.

(** What an event of [updateIP] can be: a GET without body or a PUT with
    a body, either with the headers of the client; one of the two log lines
    of the outcome; in verbose mode, one of its log lines. *)
Definition updateEvent (c : Client) (verbose : bool) (e : Event) : Prop :=
  match e with
  | EvHTTP req =>
      Header req = apiHeader c
      /\ ((Method req = "GET" /\ Body req = None)
          \/ (Method req = "PUT" /\ exists body, Body req = Some body))
  | EvLog (LogAlreadyHasIP _) | EvLog (LogUpdated _ _) => True
  | EvLog (LogZone _) | EvLog (LogRecord _) | EvLog (LogUpdatingTo _) =>
      verbose = true
  | _ => False
  end.

(** Same result, same world, and the same events but for the verbose log
    lines. *)
Definition sameButLogs {W E A} (x y : result E A * W * list Event) : Prop :=
  resultOf x = resultOf y /\ worldOf x = worldOf y
  /\ quiet (eventsOf x) = quiet (eventsOf y).

(** The request [PurgeAllFiles] sends. *)
Definition purgeRequest (lib : Lib) (c : Client) (zoneID : string) : Request :=
  {| Method := "DELETE";
     Url := (Cloudflare.endpoint ++ "zones/" ++ URL.QueryEscape zoneID
               ++ "/purge_cache")%string;
     Header := apiHeader c;
     Body := Some (json_Encode lib [("purge_everything", JBool true)]) |}.

(** What [request] makes of the answer to the HTTP request: the body, when
    the request went through and the body was read and closed. *)
Definition bodyOf (r : result error HTTPResponse) : result error string :=
  match r with
  | Err e => Err ("request problem: " ++ e)%string
  | Ok resp =>
      match ReadErr resp with
      | Some err => Err ("unable to read body: " ++ err)%string
      | None =>
          match CloseErr resp with
          | Some err2 => Err ("problem closing body: " ++ err2)%string
          | None => Ok (RespBody resp)
          end
      end
  end.

(** Letters, digits and the bytes [-_.~+%]: what a query-escaped string is
    made of. *)
Definition escapedByte (c : ascii) : bool :=
  negb (URL.shouldEscape c) || Ascii.eqb c "+"%char || Ascii.eqb c "%"%char.

Fixpoint allBytes (p : ascii -> bool) (s : string) : bool :=
  match s with
  | EmptyString => true
  | String c r => p c && allBytes p r
  end.

(** The text of one API error. *)
Definition errorText (err : APIError) : string :=
  ("Code " ++ GoStrings.itoa (Code err) ++ ": " ++ Message err)%string.

(* ================================================================== *)
(** ** Command [cfpurge], and [ReadKeyFromFile] of package [cloudflare] *)

(** [client.Debug = true], on the copy of the client that [main] of
    [cfpurge] holds. *)
Definition setDebug (c : Client) : Client :=
  {| Key := Key c; Email := Email c; Debug := true |}.

Module Cfpurge.

(** The values of the command line flags after [flag.Parse]. *)
Record Flags := {
  email : string;
  domain : string;
  keyFile : string;
  verbose : bool
}.

(** [Args] are command line arguments. *)
Record Args := {
  Email : string;
  Domain : string;
  KeyFile : string;
  Verbose : bool
}.

(** How [main] ends other than by returning: [os.Exit(1)] after the usage
    text, or [log.Fatalf] with a message. *)
Inductive Exit : Type :=
| Usage
| Fatal (msg : string).

(** What a run does: the events of the world, and the two log lines that
    this program and [ReadKeyFromFile] add. *)
Inductive Output : Type :=
| World (e : Event)
| LogClose (keyFile err : string)     (* "close: %s: %s" *)
| LogPurgeComplete.                   (* "Purge complete." *)

Definition getArgs (f : Flags) : result error Args :=
  if String.length (email f) =? 0 then Err "you must provide an email"
  else if String.length (domain f) =? 0 then Err "you must provide a domain"
  else if String.length (keyFile f) =? 0
  then Err "you must provide an API key file"
  else Ok {| Email := email f; Domain := domain f; KeyFile := keyFile f;
             Verbose := verbose f |}.

(** [fmt] writes a nil error under the verb [%s] as it writes any nil
    operand. *)
Definition nilError : string := "%!s(<nil>)".

Section Program.
Context {W : Type} (lib : Lib) (env : Env W).

(** [fh.Close()]: the error, if any. *)
Context (os_Close : string -> W -> option error * W).

(** [ReadKeyFromFile] reads an API key from a given file.  The file is
    closed when the function returns, and a failure to close it is
    logged. *)
Definition ReadKeyFromFile (keyFile : string)
  : W -> result error string * W * list Output :=
  fun w =>
    match os_Open env keyFile w with
    | (Err err, w1) => (Err err, w1, [World (EvOpen keyFile)])
    | (Ok fd, w1) =>
        let r :=
          match FileReadErr fd with
          | Some err => Err ("problem reading from file: " ++ err)%string
          | None =>
              let key := GoStrings.TrimSpace (FileBytes fd) in
              if String.length key =? 0 then Err "no key found in file"
              else Ok key
          end in
        let '(closeErr, w2) := os_Close keyFile w1 in
        (r, w2,
         World (EvOpen keyFile)
           :: match closeErr with
              | Some err => [LogClose keyFile err]
              | None => []
              end)
    end.

(** [main].  The second test of the error of [ListZones] in the source is
    never reached with an error, and is left out. *)
Definition main (f : Flags) : W -> result Exit unit * W * list Output :=
  fun w =>
    match getArgs f with
    | Err _ => (Err Usage, w, [World EvPrintDefaults])
    | Ok args =>
        match ReadKeyFromFile (KeyFile args) w with
        | (Err err, w1, out1) =>
            (Err (Fatal ("Unable to read key: " ++ err)), w1, out1)
        | (Ok key, w1, out1) =>
            let client := Cloudflare.NewClient key (Email args) in
            let client := if Verbose args then setDebug client else client in
            match Cloudflare.ListZones lib env client (Domain args) ""
                    (-1) (-1) "" "" "" w1 with
            | (Err err, w2, ev2) =>
                (Err (Fatal ("Unable to list zones: " ++ err)), w2,
                 out1 ++ map World ev2)
            | (Ok zones, w2, ev2) =>
                if negb (List.length zones =? 1)
                then (Err (Fatal ("Zone not found for domain: " ++ nilError)),
                      w2, out1 ++ map World ev2)
                else
                  match zones with
                  | zone :: _ =>
                      match Cloudflare.PurgeAllFiles lib env client (ZID zone)
                              w2 with
                      | (Err err, w3, ev3) =>
                          (Err (Fatal ("Purge failed: " ++ err)), w3,
                           out1 ++ map World ev2 ++ map World ev3)
                      | (Ok _, w3, ev3) =>
                          (Ok tt, w3,
                           out1 ++ map World ev2 ++ map World ev3
                             ++ (if Verbose args then [LogPurgeComplete]
                                 else []))
                      end
                  | [] => (Err (Fatal "index out of range"), w2,
                           out1 ++ map World ev2) (* not reached *)
                  end
            end
        end
    end.

End Program.
End Cfpurge.

(** The API requests among what a run of [cfpurge] does. *)
Definition purgeRequests (out : list Cfpurge.Output) : list Request :=
  flat_map (fun o => match o with
                     | Cfpurge.World (EvHTTP req) => [req]
                     | _ => []
                     end) out.

(** The client [main] of [cfpurge] works with. *)
Definition purgeClient (args : Cfpurge.Args) (key : string) : Client :=
  if Cfpurge.Verbose args
  then setDebug (Cloudflare.NewClient key (Cfpurge.Email args))
  else Cloudflare.NewClient key (Cfpurge.Email args).

(** Further worlds and command lines for the test double. *)
Module Scenario.
Import Byte.

(** The name server knows the host under 203.0.113.9; the API answers a
    run that updates the record. *)
Definition staleAddress : Fixture.World :=
  Fixture.world Fixture.conf1 [DNS.A Fixture.hdrA [xcb; x00; x71; x09]]
                ["zones"; "records-old"; "ok"].

(** The API lists the zones and then is gone. *)
Definition listingBreaks : Fixture.World :=
  Fixture.world Fixture.conf1 [] ["zones"].

(** The API lists one zone and accepts the purge. *)
Definition purgeAccepted : Fixture.World :=
  Fixture.world Fixture.conf1 [] ["zones"; "ok"].

(** A command line of [cfupdate] without e-mail, and one naming a key file
    that is not there. *)
Definition noEmail : Cfupdate.Flags :=
  {| Cfupdate.email := ""; Cfupdate.domain := "example.com";
     Cfupdate.hostname := "host.example.com"; Cfupdate.keyFile := "key.txt";
     Cfupdate.ipString := ""; Cfupdate.onlyIfDifferent := false;
     Cfupdate.verbose := false |}.

Definition noKeyFile : Cfupdate.Flags :=
  {| Cfupdate.email := "me@example.com"; Cfupdate.domain := "example.com";
     Cfupdate.hostname := "host.example.com"; Cfupdate.keyFile := "nokey.txt";
     Cfupdate.ipString := ""; Cfupdate.onlyIfDifferent := false;
     Cfupdate.verbose := false |}.

Definition noKeyFileArgs : Cfupdate.Args :=
  {| Cfupdate.Email := "me@example.com"; Cfupdate.Domain := "example.com";
     Cfupdate.Hostname := "host.example.com"; Cfupdate.KeyFile := "nokey.txt";
     Cfupdate.IP := None; Cfupdate.OnlyIfDifferent := false;
     Cfupdate.Verbose := false |}.

(** A command line of [cfpurge]. *)
Definition purgeFlags : Cfpurge.Flags :=
  {| Cfpurge.email := "me@example.com"; Cfpurge.domain := "example.com";
     Cfpurge.keyFile := "key.txt"; Cfpurge.verbose := false |}.

Definition purgeArgs : Cfpurge.Args :=
  {| Cfpurge.Email := "me@example.com"; Cfpurge.Domain := "example.com";
     Cfpurge.KeyFile := "key.txt"; Cfpurge.Verbose := false |}.

(** Closing a file never fails. *)
Definition os_Close (path : string) (w : Fixture.World)
  : option error * Fixture.World := (None, w).

End Scenario.

(** The DNS queries among the events. *)
Definition isDNSExchange (e : Event) : bool :=
  match e with EvDNSExchange _ _ => true | _ => false end.

(** A computation emits at most [n] events of the kind [p]. *)
Definition atMost {W E A} (p : Event -> bool) (n : nat) (m : M W E A) : Prop :=
  forall w, count p (eventsOf (m w)) <= n.
(* ================================================================== *)
(** * Properties *)

(** ** Strings and [url.Values.Encode] *)

Lemma append_assoc (a b c : string) : ((a ++ b) ++ c = a ++ (b ++ c))%string.
Proof. induction a as [|x a IH]; simpl; [reflexivity | now rewrite IH]. Qed.

Lemma append_empty_r (a : string) : (a ++ "")%string = a.
Proof. induction a as [|x a IH]; simpl; [reflexivity | now rewrite IH]. Qed.

Lemma length_append (a b : string) :
  String.length (a ++ b) = String.length a + String.length b.
Proof. induction a; simpl; auto. Qed.

Module URLFacts.
Import URL.

Lemma fold_writePair k vs : forall buf,
  fold_left (writePair k) vs buf
  = joinFrom buf (map (fun x => (k ++ "=" ++ QueryEscape x)%string) vs).
Proof.
  induction vs as [|x vs IH]; intros buf; simpl; [reflexivity|].
  now rewrite IH.
Qed.

Lemma joinFrom_app ps qs buf : joinFrom buf (ps ++ qs) = joinFrom (joinFrom buf ps) qs.
Proof. apply fold_left_app. Qed.

Lemma encode_fold v : forall buf,
  fold_left (fun buf e => fold_left (writePair (QueryEscape (fst e))) (snd e) buf) v buf
  = joinFrom buf (pairsOf v).
Proof.
  induction v as [|e v IH]; intros buf; simpl; [reflexivity|].
  now rewrite IH, fold_writePair, joinFrom_app.
Qed.

Lemma joinFrom_nonempty ps : forall buf, 0 < String.length buf ->
  joinFrom buf ps = (buf ++ fold_right (fun p acc => "&" ++ p ++ acc) "" ps)%string.
Proof.
  induction ps as [|p ps IH]; intros buf Hb; simpl.
  - now rewrite append_empty_r.
  - destruct (Nat.ltb_spec 0 (String.length buf)); [|lia].
    rewrite IH.
    + now rewrite !append_assoc.
    + rewrite !length_append. lia.
Qed.

Lemma concat_cons p ps :
  String.concat "&" (p :: ps)
  = (p ++ fold_right (fun p acc => "&" ++ p ++ acc) "" ps)%string.
Proof.
  revert p. induction ps as [|q ps IH]; intros p; simpl.
  - now rewrite append_empty_r.
  - simpl in IH. now rewrite IH.
Qed.

Lemma joinFrom_concat ps :
  Forall (fun p => 0 < String.length p) ps ->
  joinFrom "" ps = String.concat "&" ps.
Proof.
  destruct 1 as [|p ps Hp Hps]; [reflexivity|].
  rewrite concat_cons. simpl. now apply joinFrom_nonempty.
Qed.

Lemma pairsOf_nonempty v : Forall (fun p => 0 < String.length p) (pairsOf v).
Proof.
  apply Forall_forall. intros p Hp. unfold pairsOf in Hp.
  apply in_flat_map in Hp. destruct Hp as [e [_ Hp]].
  apply in_map_iff in Hp. destruct Hp as [x [<- _]].
  rewrite length_append. simpl. lia.
Qed.

(** [Encode] writes the pairs of the entries sorted by key, joined by "&". *)
Lemma Encode_concat v : Encode v = String.concat "&" (pairsOf (sortByKey v)).
Proof.
  unfold Encode. rewrite encode_fold. apply joinFrom_concat, pairsOf_nonempty.
Qed.

End URLFacts.

(** ** Computations *)

Lemma count_app p evs1 evs2 : count p (evs1 ++ evs2) = count p evs1 + count p evs2.
Proof. unfold count. now rewrite filter_app, length_app. Qed.

Lemma count_nil p : count p [] = 0.
Proof. reflexivity. Qed.

Ltac unfold_m :=
  unfold bind, mapErr, call, ret, fail, emit, when_,
         resultOf, worldOf, eventsOf in *.

Section Monad.
Context {W E : Type}.

Lemma bind_ok {A B} (m : M W E A) (f : A -> M W E B) w a w1 ev1 :
  m w = (Ok a, w1, ev1) ->
  bind m f w = (resultOf (f a w1), worldOf (f a w1), ev1 ++ eventsOf (f a w1)).
Proof.
  intros H. unfold bind, resultOf, worldOf, eventsOf. rewrite H.
  now destruct (f a w1) as [[r w2] ev2].
Qed.

Lemma bind_err {A B} (m : M W E A) (f : A -> M W E B) w e w1 ev1 :
  m w = (Err e, w1, ev1) -> bind m f w = (Err e, w1, ev1).
Proof. intros H. unfold bind. now rewrite H. Qed.

Lemma run_eta {A} (x : result E A * W * list Event) :
  x = (resultOf x, worldOf x, eventsOf x).
Proof. now destruct x as [[r w] ev]. Qed.

Lemma emitsOnly_ret {A} P (a : A) : emitsOnly P (@ret W E A a).
Proof. intros w. constructor. Qed.

Lemma emitsOnly_fail {A} P (e : E) : emitsOnly P (@fail W E A e).
Proof. intros w. constructor. Qed.

Lemma emitsOnly_emit P e : P e -> emitsOnly P (@emit W E e).
Proof. intros H w. repeat constructor. exact H. Qed.

Lemma emitsOnly_call {A} P e (op : W -> result E A * W) :
  P e -> emitsOnly P (call e op).
Proof.
  intros H w. unfold call, eventsOf. destruct (op w). repeat constructor.
  exact H.
Qed.

Lemma emitsOnly_bind {A B} P (m : M W E A) (f : A -> M W E B) :
  emitsOnly P m -> (forall a, emitsOnly P (f a)) -> emitsOnly P (bind m f).
Proof.
  intros Hm Hf w. specialize (Hm w). unfold bind, eventsOf in *.
  destruct (m w) as [[[a|e] w1] ev1]; simpl in *; [|exact Hm].
  specialize (Hf a w1). destruct (f a w1) as [[r w2] ev2]. simpl in *.
  apply Forall_app. now split.
Qed.

Lemma emitsOnly_when P b (m : M W E unit) :
  emitsOnly P m -> emitsOnly P (when_ b m).
Proof. destruct b; [trivial|]. intros _. apply emitsOnly_ret. Qed.

End Monad.

Lemma emitsOnly_mapErr {W E E' A} P (wrap : E -> E') (m : M W E A) :
  emitsOnly P m -> emitsOnly P (mapErr wrap m).
Proof.
  intros Hm w. specialize (Hm w). unfold mapErr, eventsOf in *.
  now destruct (m w) as [[[a|e] w1] ev1].
Qed.

Lemma count_zero p evs : Forall (fun e => p e = false) evs -> count p evs = 0.
Proof.
  unfold count. induction 1 as [|e evs He _ IH]; simpl; [reflexivity|].
  now rewrite He.
Qed.

Section MonadLaws.
Context {W E : Type}.

Lemma bind_assoc {A B C} (m : M W E A) (f : A -> M W E B) (g : B -> M W E C) w :
  bind (bind m f) g w = bind m (fun a => bind (f a) g) w.
Proof.
  unfold bind. destruct (m w) as [[[a|e] w1] ev1]; [|reflexivity].
  destruct (f a w1) as [[[b|e] w2] ev2]; [|reflexivity].
  destruct (g b w2) as [[r w3] ev3]. now rewrite app_assoc.
Qed.

Lemma bind_ext {A B} (m : M W E A) (f g : A -> M W E B) w :
  (forall a w1, f a w1 = g a w1) -> bind m f w = bind m g w.
Proof.
  intros H. unfold bind. destruct (m w) as [[[a|e] w1] ev1]; [|reflexivity].
  now rewrite H.
Qed.

Lemma bind_ret_l {A B} (a : A) (f : A -> M W E B) w : bind (ret a) f w = f a w.
Proof. unfold bind, ret. now destruct (f a w) as [[r w1] ev1]. Qed.

End MonadLaws.

(** ** The API client *)

Section ClientProperties.
Context {W : Type} (lib : Lib) (env : Env W).

Lemma request_events c method url body w :
  eventsOf (Cloudflare.request env c method url body w)
  = [EvHTTP {| Method := method; Url := url; Header := apiHeader c;
               Body := body |}].
Proof.
  unfold Cloudflare.request, apiHeader. unfold_m.
  destruct (http_Do env _ w) as [[resp|e] w1]; simpl; [|reflexivity].
  destruct (ReadErr resp); [reflexivity|].
  destruct (CloseErr resp); reflexivity.
Qed.

Lemma request_world c method url body w :
  worldOf (Cloudflare.request env c method url body w)
  = snd (http_Do env {| Method := method; Url := url; Header := apiHeader c;
                        Body := body |} w).
Proof.
  unfold Cloudflare.request, apiHeader. unfold_m.
  destruct (http_Do env _ w) as [[resp|e] w1]; simpl; [|reflexivity].
  destruct (ReadErr resp); [reflexivity|].
  destruct (CloseErr resp); reflexivity.
Qed.

Lemma UpdateDNSRecord_events c record w :
  eventsOf (Cloudflare.UpdateDNSRecord lib env c record w)
  = [EvHTTP {| Method := "PUT"; Url := Cloudflare.updateDNSRecordURL record;
               Header := apiHeader c;
               Body := Some (json_Encode lib (marshalDNSRecord record)) |}].
Proof.
  unfold Cloudflare.UpdateDNSRecord.
  pose proof (request_events c "PUT" (Cloudflare.updateDNSRecordURL record)
                (Some (json_Encode lib (marshalDNSRecord record))) w) as H.
  unfold_m.
  destruct (Cloudflare.request env c "PUT" _ _ w) as [[[body|e] w1] ev1];
    simpl in *; [|exact H].
  subst ev1.
  destruct (json_Unmarshal_Response lib body) as [resp|e]; [|reflexivity].
  destruct (Success resp); reflexivity.
Qed.

(** C9. [UpdateDNSRecord] validates neither [record.ZoneID] nor [record.ID]:
    for every record it issues exactly one HTTP request, a PUT to the URL
    built from the two identifiers, and with both identifiers empty that URL
    is the one with the two empty path segments; [ListDNSRecords] and
    [PurgeAllFiles] called with an empty zone identifier return their error
    and issue no request. *)
Theorem UpdateDNSRecord_no_id_validation :
  (forall c record w,
      eventsOf (Cloudflare.UpdateDNSRecord lib env c record w)
      = [EvHTTP {| Method := "PUT";
                   Url := Cloudflare.updateDNSRecordURL record;
                   Header := apiHeader c;
                   Body := Some (json_Encode lib (marshalDNSRecord record)) |}])
  /\ (forall ty nm ct pb pd ttl lk zn co mo,
         Cloudflare.updateDNSRecordURL
           {| ID := ""; Type_ := ty; Name := nm; Content := ct;
              Proxiable := pb; Proxied := pd; TTL := ttl; Locked := lk;
              ZoneID := ""; ZoneName := zn; CreatedOn := co;
              ModifiedOn := mo |}
         = "https://api.cloudflare.com/client/v4/zones//dns_records/")
  /\ (forall c recordType name content page perPage order direction match_ w,
         Cloudflare.ListDNSRecords lib env c "" recordType name content page
                                   perPage order direction match_ w
         = (Err "you must provide a zone ID. Use ListZones() to find one",
            w, []))
  /\ (forall c w,
         Cloudflare.PurgeAllFiles lib env c "" w
         = (Err "you must provide a zone ID", w, [])).
Proof.
  repeat split.
  - apply UpdateDNSRecord_events.
Qed.

End ClientProperties.

(** ** The query of [ListZones] *)

Section ListZonesQuery.
Context {W : Type} (lib : Lib) (env : Env W).

Lemma subsetb_incl xs ys : subsetb xs ys = true -> incl xs ys.
Proof.
  unfold subsetb. rewrite forallb_forall. intros H x Hx.
  specialize (H x Hx). apply existsb_exists in H. destruct H as [y [Hy E]].
  apply String.eqb_eq in E. now subst.
Qed.

Lemma listZonesValues_get name status page perPage order direction match_ :
  let values := Cloudflare.listZonesValues name status page perPage order
                                           direction match_ in
  URL.Get values "status"
    = Some [if String.length status =? 0 then "active" else status]
  /\ URL.Get values "name"
     = (if 0 <? String.length name then Some [name] else None)
  /\ URL.Get values "order"
     = (if 0 <? String.length order then Some [order] else None)
  /\ URL.Get values "direction"
     = (if 0 <? String.length direction then Some [direction] else None)
  /\ URL.Get values "match"
     = (if 0 <? String.length match_ then Some [match_] else None)
  /\ URL.Get values "page"
     = (if (0 <? page)%Z then Some [GoStrings.itoa page] else None)
  /\ URL.Get values "per_page"
     = (if (0 <? perPage)%Z then Some [GoStrings.itoa perPage] else None)
  /\ incl (map fst values) zonesKeys.
Proof.
  unfold Cloudflare.listZonesValues, zonesKeys.
  generalize (GoStrings.itoa page) (GoStrings.itoa perPage). intros sp spp.
  destruct (0 <? String.length name), (String.length status =? 0),
    (0 <? String.length order), (0 <? String.length direction),
    (0 <? String.length match_), (0 <? page)%Z, (0 <? perPage)%Z;
    (repeat (split; [reflexivity|]); apply subsetb_incl; reflexivity).
Qed.

Lemma listZones_encode name status page perPage order direction match_ :
  URL.Encode (Cloudflare.listZonesValues name status page perPage order
                                         direction match_)
  = zonesQuery name status page perPage order direction match_.
Proof.
  rewrite URLFacts.Encode_concat.
  unfold Cloudflare.listZonesValues, zonesQuery, queryParam. f_equal.
  generalize (GoStrings.itoa page) (GoStrings.itoa perPage). intros sp spp.
  destruct (0 <? String.length name), (String.length status =? 0),
    (0 <? String.length order), (0 <? String.length direction),
    (0 <? String.length match_), (0 <? page)%Z, (0 <? perPage)%Z;
    reflexivity.
Qed.

Lemma ListZones_events c name status page perPage order direction match_ w :
  eventsOf (Cloudflare.ListZones lib env c name status page perPage order
                                 direction match_ w)
  = [EvHTTP {| Method := "GET";
               Url := Cloudflare.listZonesURL name status page perPage order
                                              direction match_;
               Header := apiHeader c; Body := None |}].
Proof.
  unfold Cloudflare.ListZones.
  pose proof (request_events env c "GET"
                (Cloudflare.listZonesURL name status page perPage order
                                         direction match_) None w) as H.
  unfold_m.
  destruct (Cloudflare.request env c "GET" _ _ w) as [[[body|e] w1] ev1];
    simpl in *; [|exact H].
  subst ev1.
  destruct (json_Unmarshal_ListZoneResponse lib body) as [resp|e];
    [|reflexivity].
  destruct (LZSuccess resp); reflexivity.
Qed.

(** The call [updateIP] makes, and a call with every parameter given. *)
Example listZonesURL_domain :
  Cloudflare.listZonesURL "example.com" "" (-1) (-1) "" "" ""
  = "https://api.cloudflare.com/client/v4/zones?name=example.com&status=active".
Proof. reflexivity. Qed.

Example listZonesURL_all :
  Cloudflare.listZonesURL "example.com" "pending" 2 50 "name" "desc" "any"
  = ("https://api.cloudflare.com/client/v4/zones?direction=desc&match=any"
       ++ "&name=example.com&order=name&page=2&per_page=50&status=pending")%string.
Proof. reflexivity. Qed.

(** C8. Query construction of [ListZones], for every combination of
    parameters: the values sent hold "active" under [status] when the status
    is blank and the given status otherwise; [name], [order], [direction] and
    [match] are present exactly when the parameter is not blank, [page] and
    [per_page] exactly when it is positive, each with the value given (the
    integers in decimal); no other key is sent; the query string of the
    single GET request is the URL encoding of exactly these values, sorted
    by key. *)
Theorem ListZones_query_construction
    c name status page perPage order direction match_ w :
  let values := Cloudflare.listZonesValues name status page perPage order
                                           direction match_ in
  (URL.Get values "status"
     = Some [if String.length status =? 0 then "active" else status]
   /\ URL.Get values "name"
      = (if 0 <? String.length name then Some [name] else None)
   /\ URL.Get values "order"
      = (if 0 <? String.length order then Some [order] else None)
   /\ URL.Get values "direction"
      = (if 0 <? String.length direction then Some [direction] else None)
   /\ URL.Get values "match"
      = (if 0 <? String.length match_ then Some [match_] else None)
   /\ URL.Get values "page"
      = (if (0 <? page)%Z then Some [GoStrings.itoa page] else None)
   /\ URL.Get values "per_page"
      = (if (0 <? perPage)%Z then Some [GoStrings.itoa perPage] else None)
   /\ incl (map fst values) zonesKeys)
  /\ URL.Encode values
     = zonesQuery name status page perPage order direction match_
  /\ eventsOf (Cloudflare.ListZones lib env c name status page perPage order
                                    direction match_ w)
     = [EvHTTP {| Method := "GET";
                  Url := (Cloudflare.endpoint ++ "zones?" ++
                          zonesQuery name status page perPage order
                                     direction match_)%string;
                  Header := apiHeader c; Body := None |}].
Proof.
  intros values. split; [apply listZonesValues_get|].
  split; [apply listZones_encode|].
  rewrite ListZones_events. unfold Cloudflare.listZonesURL.
  now rewrite listZones_encode.
Qed.

End ListZonesQuery.

(** ** Resolver configuration *)

(** The loop returns what the first line holding a directive holds. *)
Lemma scanNameserver_first lines :
  Cfupdate.scanNameserver lines = firstSome (map directive lines).
Proof.
  induction lines as [|line lines IH]; [reflexivity|].
  cbn [Cfupdate.scanNameserver map firstSome]. unfold directive.
  cbv zeta.
  destruct (GoStrings.TrimSpace line) as [|c text]; [exact IH|].
  destruct (Ascii.eqb c "#"%char); [exact IH|].
  destruct (GoStrings.Split (String c text) " "%char) as [|p0 [|p1 [|p2 ps]]];
    try exact IH.
  destruct (String.eqb p0 "nameserver"); [reflexivity|exact IH].
Qed.

Section ResolverFile.
Context {W : Type} (env : Env W).

(** [getNameserver], once the file is open. *)
Lemma getNameserver_result w fd w1 :
  os_Open env "/etc/resolv.conf" w = (Ok fd, w1) ->
  Cfupdate.getNameserver env w
  = (match firstSome (map directive
                          (fst (Bufio.ScanLines (FileBytes fd) (FileReadErr fd))))
     with
     | Some nameserver => Ok nameserver
     | None =>
         match snd (Bufio.ScanLines (FileBytes fd) (FileReadErr fd)) with
         | Some err => Err ("Scan error: " ++ err)%string
         | None => Err "No resolver found"
         end
     end, w1, [EvOpen "/etc/resolv.conf"]).
Proof.
  intros H. unfold Cfupdate.getNameserver, bind, call. rewrite H.
  destruct (Bufio.ScanLines (FileBytes fd) (FileReadErr fd)) as [lines scanErr].
  cbn [fst snd]. rewrite scanNameserver_first.
  destruct (firstSome (map directive lines)); [reflexivity|].
  destruct scanErr; reflexivity.
Qed.
End ResolverFile.

(** A file with a comment, a blank line, another directive and two
    nameserver lines: the first nameserver line wins. *)
Example getNameserver_first_of_two :
  resultOf (Cfupdate.getNameserver Fixture.env
              (Fixture.world Fixture.conf1 [] []))
  = Ok "192.0.2.53".
Proof. reflexivity. Qed.

Example getNameserver_none :
  resultOf (Cfupdate.getNameserver Fixture.env
              (Fixture.world ("# no resolver" ++ Fixture.LF) [] []))
  = Err "No resolver found".
Proof. reflexivity. Qed.

(** C5. [getNameserver] cuts a line at single spaces, not at white space:
    a [nameserver] line whose two tokens are separated by a tab is passed
    over, and the address of a later line is returned; one whose tokens are
    separated by two spaces is passed over, and no resolver is found.  In
    both files the first line of exactly two white-space separated tokens
    led by "nameserver" holds 192.0.2.53. *)
Theorem getNameserver_misses_directive :
  (resultOf (Cfupdate.getNameserver Fixture.env
               (Fixture.world Fixture.confTab [] []))
   = Ok "192.0.2.54"
   /\ specNameserver (fst (Bufio.ScanLines Fixture.confTab None))
      = Some "192.0.2.53")
  /\ (resultOf (Cfupdate.getNameserver Fixture.env
                  (Fixture.world Fixture.confTwoSpaces [] []))
      = Err "No resolver found"
      /\ specNameserver (fst (Bufio.ScanLines Fixture.confTwoSpaces None))
         = Some "192.0.2.53").
Proof. repeat split. Qed.

(** ** The DNS query path *)

Section DNSLookup.
Context {W : Type} (lib : Lib) (env : Env W).

Lemma collectA_from answer : forall ips,
  fold_left (fun ips record => match record with
                               | DNS.A _ a => ips ++ [a]
                               | _ => ips
                               end) answer ips
  = ips ++ addressesOfA answer.
Proof.
  induction answer as [|record answer IH]; intros ips; simpl.
  - now rewrite app_nil_r.
  - rewrite IH. destruct record; simpl; try reflexivity.
    now rewrite <- app_assoc.
Qed.

Lemma collectA_addresses answer : Cfupdate.collectA answer = addressesOfA answer.
Proof. unfold Cfupdate.collectA. now rewrite collectA_from. Qed.

(** C6. Whenever [dnsLookupHost] receives a response: with a response code
    other than success the result is the error naming the response code;
    with the success code it is exactly the addresses of the answer records
    of type A, in the order of the answer section, other records skipped,
    nothing sorted and nothing removed, so an empty answer section gives the
    empty list and no error. *)
Theorem dnsLookupHost_response host w nameserver w1 ev1 id w2 reply w3 :
  Cfupdate.getNameserver env w = (Ok nameserver, w1, ev1) ->
  dns_Id env w1 = (id, w2) ->
  dns_Exchange env (queryFor lib id host) (nameserver ++ ":53")%string w2
    = (Ok reply, w3) ->
  resultOf (Cfupdate.dnsLookupHost lib env host w)
  = if (DNS.Rcode reply =? DNS.RcodeSuccess)%Z
    then Ok (addressesOfA (DNS.Answer reply))
    else Err ("Lookup problem: " ++ dns_RcodeToString lib (DNS.Rcode reply))%string.
Proof.
  intros Hns Hid Hex. unfold Cfupdate.dnsLookupHost. unfold_m.
  rewrite Hns, Hid. unfold queryFor in Hex. rewrite Hex. simpl.
  destruct (DNS.Rcode reply =? DNS.RcodeSuccess)%Z; simpl; [|reflexivity].
  now rewrite collectA_addresses.
Qed.

End DNSLookup.

(** A reply with a CNAME record among three A records, two of them equal:
    the three addresses come back, in the order of the reply. *)
Lemma dnsLookupHost_response_witness :
  let w := Fixture.world Fixture.conf1
             [DNS.A Fixture.hdrA Fixture.ip9;
              DNS.CNAME Fixture.hdrCNAME "other.example.com.";
              DNS.A Fixture.hdrA Fixture.ip5;
              DNS.A Fixture.hdrA Fixture.ip9] [] in
  resultOf (Cfupdate.dnsLookupHost Fixture.lib Fixture.env "host.example.com" w)
  = Ok [Fixture.ip9; Fixture.ip5; Fixture.ip9].
Proof.
  intros w.
  exact (dnsLookupHost_response Fixture.lib Fixture.env "host.example.com"
           w "192.0.2.53" w [EvOpen "/etc/resolv.conf"] 7%Z w
           (Fixture.reply w) w eq_refl eq_refl eq_refl).
Defined.

(** ** The update flow *)

Section UpdateFlow.
Context {W : Type} (lib : Lib) (env : Env W).

Lemma recordLoop_run verbose hostname recordType records :
  forall matchingRecords (w : W),
    Cfupdate.recordLoop verbose hostname recordType records matchingRecords w
    = (Ok (matchingRecords
             ++ filter (Cfupdate.matches hostname recordType) records),
       w, recordLogs verbose records).
Proof.
  unfold recordLogs.
  induction records as [|record records IH]; intros acc w; simpl.
  - unfold ret. rewrite app_nil_r. now destruct verbose.
  - unfold bind at 1. unfold when_, emit, ret.
    destruct verbose; rewrite IH;
      destruct (Cfupdate.matches hostname recordType record); simpl;
      now rewrite <- ?app_assoc.
Qed.

Lemma zoneLoop_listRecords client verbose hostname recordType zones :
  forall matchingRecords w,
    Cfupdate.zoneLoop lib env client verbose hostname recordType zones
                      matchingRecords w
    = match listRecords lib env client verbose hostname recordType zones w with
      | (Ok records, w1, ev) =>
          (Ok (matchingRecords
                 ++ filter (Cfupdate.matches hostname recordType) records),
           w1, ev)
      | (Err e, w1, ev) => (Err e, w1, ev)
      end.
Proof.
  induction zones as [|zone zones IH]; intros acc w.
  - cbn [Cfupdate.zoneLoop listRecords]. unfold ret. now rewrite app_nil_r.
  - cbn [Cfupdate.zoneLoop listRecords].
    unfold bind.
    destruct (when_ verbose (emit (EvLog (LogZone zone))) w)
      as [[[[]|e] w0] ev0]; [|reflexivity].
    destruct (mapErr _ _ w0) as [[[records|e] w1] ev1]; [|reflexivity].
    rewrite recordLoop_run. rewrite IH.
    destruct (listRecords lib env client verbose hostname recordType zones w1)
      as [[[more|e] w2] ev2]; cbn [ret]; [|reflexivity].
    unfold ret.
    rewrite filter_app, ?app_nil_r, <- !app_assoc. reflexivity.
Qed.

(** [updateIP], from the outcome of its listing step. *)
Lemma updateIP_after_listing key email domain hostname verbose ip w
      records w1 ev1 :
  listAll lib env key email domain hostname verbose w = (Ok records, w1, ev1) ->
  Cfupdate.updateIP lib env key email domain hostname verbose ip w
  = let matchingRecords := filter (Cfupdate.matches hostname "A") records in
    match matchingRecords with
    | [] => (Err "Record not found. No update performed.", w1, ev1)
    | [record] =>
        let x := Cfupdate.conditionalUpdate lib env
                   (Cloudflare.NewClient key email) hostname verbose ip
                   record w1 in
        (resultOf x, worldOf x, ev1 ++ eventsOf x)
    | _ :: _ :: _ =>
        (Err "Multiple matching records found. Unable to perform update.",
         w1, ev1)
    end.
Proof.
  unfold listAll, Cfupdate.updateIP. intros H.
  unfold bind at 1 in H. unfold bind at 1.
  destruct (mapErr _ _ w) as [[[zones|e] w0] ev0]; [|discriminate].
  unfold bind at 1. rewrite zoneLoop_listRecords.
  destruct (listRecords lib env _ verbose hostname "A" zones w0)
    as [[[recs|e] w2] ev2]; [|discriminate].
  injection H as H1 H2 H3. subst records w2 ev1.
  cbv zeta.
  destruct (filter (Cfupdate.matches hostname "A") recs) as [|r [|r' m]];
    cbn [List.length Nat.eqb Nat.ltb Nat.leb app].
  - unfold fail. now rewrite app_nil_r.
  - unfold resultOf, worldOf, eventsOf.
    destruct (Cfupdate.conditionalUpdate _ _ _ _ _ _ _ _) as [[? ?] ?].
    cbn [fst snd]. now rewrite app_assoc.
  - unfold fail. now rewrite app_nil_r.
Qed.

Lemma request_emits P c method url body :
  P (EvHTTP {| Method := method; Url := url; Header := apiHeader c;
               Body := body |}) ->
  emitsOnly P (Cloudflare.request env c method url body).
Proof.
  intros H w. rewrite request_events. repeat constructor. exact H.
Qed.

Lemma ListZones_noUpdate c name status page perPage order direction match_ :
  emitsOnly noUpdate
    (Cloudflare.ListZones lib env c name status page perPage order direction
                          match_).
Proof.
  intros w. rewrite ListZones_events. repeat constructor.
Qed.

Lemma ListDNSRecords_noUpdate c zoneID recordType name content page perPage
      order direction match_ :
  emitsOnly noUpdate
    (Cloudflare.ListDNSRecords lib env c zoneID recordType name content page
                               perPage order direction match_).
Proof.
  unfold Cloudflare.ListDNSRecords.
  destruct (String.length zoneID =? 0); [apply emitsOnly_fail|].
  apply emitsOnly_bind.
  - apply emitsOnly_mapErr, request_emits. reflexivity.
  - intros body. destruct (json_Unmarshal_ListDNSResponse lib body) as [r|e];
      [|apply emitsOnly_fail].
    destruct (negb (LDSuccess r)); [apply emitsOnly_fail|apply emitsOnly_ret].
Qed.

Lemma listRecords_noUpdate client verbose hostname recordType zones :
  emitsOnly noUpdate
    (listRecords lib env client verbose hostname recordType zones).
Proof.
  induction zones as [|zone zones IH]; cbn [listRecords].
  - apply emitsOnly_ret.
  - apply emitsOnly_bind; [apply emitsOnly_when, emitsOnly_emit; reflexivity|].
    intros _. apply emitsOnly_bind;
      [apply emitsOnly_mapErr, ListDNSRecords_noUpdate|].
    intros records. apply emitsOnly_bind.
    + intros w. unfold eventsOf, recordLogs. cbn [snd].
      destruct verbose; [|constructor].
      apply Forall_forall. intros e He. apply in_map_iff in He.
      destruct He as [r [<- _]]. reflexivity.
    + intros _. apply emitsOnly_bind; [exact IH|].
      intros more. apply emitsOnly_ret.
Qed.

Lemma listAll_noUpdate key email domain hostname verbose :
  emitsOnly noUpdate (listAll lib env key email domain hostname verbose).
Proof.
  unfold listAll. apply emitsOnly_bind.
  - apply emitsOnly_mapErr, ListZones_noUpdate.
  - intros zones. apply listRecords_noUpdate.
Qed.

Lemma listAll_no_update_calls key email domain hostname verbose w :
  count isUpdateCall
        (eventsOf (listAll lib env key email domain hostname verbose w)) = 0.
Proof. apply count_zero, listAll_noUpdate. Qed.

Lemma conditionalUpdate_up_to_date client hostname verbose ip record w :
  Content record = IP_String lib ip ->
  Cfupdate.conditionalUpdate lib env client hostname verbose ip record w
  = (Ok tt, w, [EvLog (LogAlreadyHasIP (IP_String lib ip))]).
Proof.
  intros H. unfold Cfupdate.conditionalUpdate.
  rewrite H, String.eqb_refl. reflexivity.
Qed.

Lemma conditionalUpdate_sends client hostname verbose ip record w :
  Content record <> IP_String lib ip ->
  let x := Cfupdate.conditionalUpdate lib env client hostname verbose ip
                                      record w in
  filter isUpdateCall (eventsOf x)
  = [EvHTTP (updateRequest lib client (setContent record (IP_String lib ip)))]
  /\ (resultOf x = Ok tt
      \/ exists e, resultOf x = Err ("Unable to update DNS record: " ++ e)%string).
Proof.
  intros H. unfold Cfupdate.conditionalUpdate.
  apply String.eqb_neq in H. rewrite H.
  set (r' := setContent record (IP_String lib ip)).
  pose proof (UpdateDNSRecord_events lib env client r') as Hev.
  cbv zeta. destruct verbose; specialize (Hev w); unfold_m; unfold_m;
    destruct (Cloudflare.UpdateDNSRecord lib env client r' w)
      as [[[[]|e] w1] ev1]; cbn [fst snd] in *; subst ev1;
    (split; [reflexivity|]); [left|right; exists e|left|right; exists e];
    reflexivity.
Qed.

Lemma matches_iff hostname recordType record :
  Cfupdate.matches hostname recordType record = true
  <-> Name record = hostname /\ Type_ record = recordType.
Proof.
  unfold Cfupdate.matches. rewrite andb_true_iff, !String.eqb_eq. tauto.
Qed.
End UpdateFlow.

Section UpdateTheorems.
Context {W : Type} (lib : Lib) (env : Env W).

Lemma conditionalUpdate_not_cardinality client hostname verbose ip record w :
  ~ cardinalityError
      (resultOf (Cfupdate.conditionalUpdate lib env client hostname verbose ip
                                            record w)).
Proof.
  destruct (String.eqb_spec (Content record) (IP_String lib ip)) as [E|E].
  - rewrite conditionalUpdate_up_to_date by exact E.
    intros [H|H]; discriminate H.
  - destruct (conditionalUpdate_sends lib env client hostname verbose ip
                record w E) as [_ [H|[e H]]];
      rewrite H; intros [H'|H']; discriminate H'.
Qed.

(** C1. Once [updateIP] has listed the zones of the domain and the DNS
    records of each zone, the records it keeps are those whose name is
    the hostname and whose type is "A"; with none it returns the error
    "Record not found", with two or more the error "Multiple matching
    records", in both cases having made no update call (its events are those
    of the listing); with exactly one it goes on with that record.  So a
    record is selected if and only if exactly one matches. *)
Theorem updateIP_selects_unique_match
    key email domain hostname verbose ip w records w1 ev1 :
  listAll lib env key email domain hostname verbose w = (Ok records, w1, ev1) ->
  let matching := filter (Cfupdate.matches hostname "A") records in
  let run := Cfupdate.updateIP lib env key email domain hostname verbose ip w in
  (forall record,
      In record matching
      <-> In record records /\ Name record = hostname /\ Type_ record = "A")
  /\ (List.length matching = 0 ->
      run = (Err "Record not found. No update performed.", w1, ev1))
  /\ (2 <= List.length matching ->
      run = (Err "Multiple matching records found. Unable to perform update.",
             w1, ev1))
  /\ (forall record,
         matching = [record] ->
         let x := Cfupdate.conditionalUpdate lib env
                    (Cloudflare.NewClient key email) hostname verbose ip
                    record w1 in
         run = (resultOf x, worldOf x, ev1 ++ eventsOf x))
  /\ (List.length matching = 1 <-> ~ cardinalityError (resultOf run))
  /\ (cardinalityError (resultOf run) -> count isUpdateCall (eventsOf run) = 0).
Proof.
  intros Hlist matching run.
  pose proof (updateIP_after_listing lib env key email domain hostname verbose
                ip w records w1 ev1 Hlist) as Hrun.
  fold run in Hrun. cbv zeta in Hrun. fold matching in Hrun.
  assert (Hev1 : count isUpdateCall ev1 = 0).
  { pose proof (listAll_no_update_calls lib env key email domain hostname
                  verbose w) as H. now rewrite Hlist in H. }
  split.
  { intros record. unfold matching. rewrite filter_In, matches_iff. tauto. }
  destruct matching as [|r [|r' m]]; cbn [List.length];
    (split; [|split; [|split; [|split]]]).
  - intros _. exact Hrun.
  - intros H. lia.
  - intros record H. discriminate H.
  - split; [intros H; discriminate H|].
    intros H. exfalso. apply H. rewrite Hrun. now left.
  - intros _. now rewrite Hrun.
  - intros H. discriminate H.
  - intros H. lia.
  - intros record H. injection H as <-. exact Hrun.
  - split; [|reflexivity].
    intros _. rewrite Hrun. apply conditionalUpdate_not_cardinality.
  - intros H. exfalso. rewrite Hrun in H.
    now apply conditionalUpdate_not_cardinality in H.
  - intros H. discriminate H.
  - intros _. exact Hrun.
  - intros record H. discriminate H.
  - split; [intros H; discriminate H|].
    intros H. exfalso. apply H. rewrite Hrun. now right.
  - intros _. now rewrite Hrun.
Qed.

Lemma updateIP_single key email domain hostname verbose ip w records w1 ev1
      record :
  listAll lib env key email domain hostname verbose w = (Ok records, w1, ev1) ->
  filter (Cfupdate.matches hostname "A") records = [record] ->
  let x := Cfupdate.conditionalUpdate lib env (Cloudflare.NewClient key email)
             hostname verbose ip record w1 in
  Cfupdate.updateIP lib env key email domain hostname verbose ip w
  = (resultOf x, worldOf x, ev1 ++ eventsOf x).
Proof.
  intros Hlist Hm.
  rewrite (updateIP_after_listing lib env key email domain hostname verbose
             ip w records w1 ev1 Hlist).
  cbv zeta. now rewrite Hm.
Qed.

Lemma updateIP_up_to_date key email domain hostname verbose ip w records w1
      ev1 record :
  listAll lib env key email domain hostname verbose w = (Ok records, w1, ev1) ->
  filter (Cfupdate.matches hostname "A") records = [record] ->
  Content record = IP_String lib ip ->
  let run := Cfupdate.updateIP lib env key email domain hostname verbose ip w in
  run = (Ok tt, w1, ev1 ++ [EvLog (LogAlreadyHasIP (IP_String lib ip))])
  /\ count isUpdateCall (eventsOf run) = 0.
Proof.
  intros Hlist Hm Hc run. unfold run.
  rewrite (updateIP_single _ _ _ _ _ _ _ _ _ _ _ Hlist Hm).
  rewrite conditionalUpdate_up_to_date by exact Hc.
  split; [reflexivity|].
  unfold eventsOf. cbn [snd]. rewrite count_app.
  pose proof (listAll_no_update_calls lib env key email domain hostname
                verbose w) as H. rewrite Hlist in H.
  unfold eventsOf in H. cbn [snd] in H. now rewrite H.
Qed.

Lemma updateIP_one_update key email domain hostname verbose ip w records w1
      ev1 record :
  listAll lib env key email domain hostname verbose w = (Ok records, w1, ev1) ->
  filter (Cfupdate.matches hostname "A") records = [record] ->
  Content record <> IP_String lib ip ->
  filter isUpdateCall
    (eventsOf (Cfupdate.updateIP lib env key email domain hostname verbose ip w))
  = [EvHTTP (updateRequest lib (Cloudflare.NewClient key email)
                           (setContent record (IP_String lib ip)))].
Proof.
  intros Hlist Hm Hc.
  rewrite (updateIP_single _ _ _ _ _ _ _ _ _ _ _ Hlist Hm).
  unfold eventsOf at 1. cbn [snd]. rewrite filter_app.
  destruct (conditionalUpdate_sends lib env (Cloudflare.NewClient key email)
              hostname verbose ip record w1 Hc) as [-> _].
  pose proof (listAll_no_update_calls lib env key email domain hostname
                verbose w) as H. rewrite Hlist in H.
  unfold eventsOf, count in H. cbn [snd] in H.
  apply length_zero_iff_nil in H. now rewrite H.
Qed.

(** C3. With the record uniquely matched: if its content is the string form
    of the desired IP, [updateIP] makes no update call, logs that the record
    already has the IP and returns without error; otherwise it makes exactly
    one update call.  A second run with the same desired IP, against a
    provider that now lists the matched record with the content of the
    desired IP, makes no update call and returns without error, so the two
    runs together make one update call when the content differed and none
    when it did not. *)
Theorem updateIP_idempotent
    key email domain hostname verbose ip w records w1 ev1 record :
  listAll lib env key email domain hostname verbose w = (Ok records, w1, ev1) ->
  filter (Cfupdate.matches hostname "A") records = [record] ->
  let run1 := Cfupdate.updateIP lib env key email domain hostname verbose ip w in
  (Content record = IP_String lib ip ->
   run1 = (Ok tt, w1, ev1 ++ [EvLog (LogAlreadyHasIP (IP_String lib ip))])
   /\ count isUpdateCall (eventsOf run1) = 0)
  /\ (Content record <> IP_String lib ip ->
      count isUpdateCall (eventsOf run1) = 1)
  /\ (forall records2 w2 ev2 record2,
         listAll lib env key email domain hostname verbose (worldOf run1)
           = (Ok records2, w2, ev2) ->
         filter (Cfupdate.matches hostname "A") records2 = [record2] ->
         Content record2 = IP_String lib ip ->
         let run2 := Cfupdate.updateIP lib env key email domain hostname
                                       verbose ip (worldOf run1) in
         run2 = (Ok tt, w2,
                 ev2 ++ [EvLog (LogAlreadyHasIP (IP_String lib ip))])
         /\ count isUpdateCall (eventsOf run2) = 0
         /\ count isUpdateCall (eventsOf run1 ++ eventsOf run2)
            = if String.eqb (Content record) (IP_String lib ip) then 0 else 1).
Proof.
  intros Hlist Hm run1.
  assert (H1 : Content record = IP_String lib ip ->
               run1 = (Ok tt, w1,
                       ev1 ++ [EvLog (LogAlreadyHasIP (IP_String lib ip))])
               /\ count isUpdateCall (eventsOf run1) = 0).
  { intros Hc. exact (updateIP_up_to_date _ _ _ _ _ _ _ _ _ _ _ Hlist Hm Hc). }
  assert (H2 : Content record <> IP_String lib ip ->
               count isUpdateCall (eventsOf run1) = 1).
  { intros Hc. unfold count, run1.
    now rewrite (updateIP_one_update _ _ _ _ _ _ _ _ _ _ _ Hlist Hm Hc). }
  split; [exact H1|]. split; [exact H2|].
  intros records2 w2 ev2 record2 Hlist2 Hm2 Hc2 run2.
  destruct (updateIP_up_to_date _ _ _ _ _ _ _ _ _ _ _ Hlist2 Hm2 Hc2)
    as [Hrun2 Hcount2].
  fold run2 in Hrun2, Hcount2.
  split; [exact Hrun2|]. split; [exact Hcount2|].
  rewrite count_app, Hcount2, Nat.add_0_r.
  destruct (String.eqb_spec (Content record) (IP_String lib ip)) as [E|E].
  - now apply H1.
  - now apply H2.
Qed.




End UpdateTheorems.

(** Two records of the listing match: the flow stops with the error. *)
Lemma updateIP_selects_unique_match_witness :
  resultOf (listAll Fixture.lib Fixture.env "secret" "me@example.com" "example.com"
                    "host.example.com" false Fixture.twoMatches)
  = Ok [Fixture.record1; Fixture.record1]
  /\ resultOf (Cfupdate.updateIP Fixture.lib Fixture.env "secret" "me@example.com"
                 "example.com" "host.example.com" false Fixture.ip5 Fixture.twoMatches)
     = Err "Multiple matching records found. Unable to perform update.".
Proof.
  split; [reflexivity|].
  pose proof (updateIP_selects_unique_match Fixture.lib Fixture.env "secret" "me@example.com"
                "example.com" "host.example.com" false Fixture.ip5 Fixture.twoMatches
                _ _ _ eq_refl) as H.
  destruct H as (_ & _ & H & _).
  rewrite H; [reflexivity|]. apply le_n.
Defined.

(** A first run that updates the record, and a second run against the
    provider listing the updated record. *)
Lemma updateIP_idempotent_witness :
  let run1 := Cfupdate.updateIP Fixture.lib Fixture.env "secret" "me@example.com"
                "example.com" "host.example.com" false Fixture.ip5 Fixture.firstRun in
  let run2 := Cfupdate.updateIP Fixture.lib Fixture.env "secret" "me@example.com"
                "example.com" "host.example.com" false Fixture.ip5 (worldOf run1) in
  count isUpdateCall (eventsOf run1) = 1
  /\ resultOf run2 = Ok tt
  /\ count isUpdateCall (eventsOf run2) = 0
  /\ count isUpdateCall (eventsOf run1 ++ eventsOf run2) = 1.
Proof.
  intros run1 run2.
  pose proof (updateIP_idempotent Fixture.lib Fixture.env "secret" "me@example.com"
                "example.com" "host.example.com" false Fixture.ip5 Fixture.firstRun
                _ _ _ Fixture.record1 eq_refl eq_refl) as H.
  destruct H as (_ & H1 & H2).
  split; [apply H1; discriminate|].
  specialize (H2 _ _ _ (setContent Fixture.record1 "203.0.113.5")
                 eq_refl eq_refl eq_refl).
  destruct H2 as (H2 & H3 & H4).
  split; [exact (f_equal resultOf H2)|].
  split; [exact H3|exact H4].
Defined.


(** ** The command *)

Section MainFlow.
Context {W : Type} (lib : Lib) (env : Env W).

Lemma mapErr_ok {E E' A} (wrap : E -> E') (m : M W E A) w a w1 ev1 :
  m w = (Ok a, w1, ev1) -> mapErr wrap m w = (Ok a, w1, ev1).
Proof. intros H. unfold mapErr. now rewrite H. Qed.

Lemma main_phases f w :
  Cfupdate.main lib env f w
  = match Cfupdate.getArgs lib f with
    | Err _ => (Err Cfupdate.Usage, w, [EvPrintDefaults])
    | Ok args =>
        bind (desiredIP lib env args)
             (fun p => reconcile lib env args (fst p) (snd p)) w
    end.
Proof.
  unfold Cfupdate.main, desiredIP.
  destruct (Cfupdate.getArgs lib f) as [args|e]; [|reflexivity].
  rewrite bind_ret_l, bind_assoc. apply bind_ext. intros key w1.
  rewrite bind_assoc. apply bind_ext. intros ip w2.
  rewrite bind_ret_l. reflexivity.
Qed.

(** The events of [updateIP] are API requests and log lines. *)
Lemma updateIP_emits P key email domain hostname verbose ip :
  (forall req, P (EvHTTP req)) -> (forall m, P (EvLog m)) ->
  emitsOnly P (Cfupdate.updateIP lib env key email domain hostname verbose ip).
Proof.
  intros Hh Hl w.
  assert (Hreq : forall c method url body,
             emitsOnly P (Cloudflare.request env c method url body)).
  { intros. apply request_emits, Hh. }
  assert (Hlist : emitsOnly P (listAll lib env key email domain hostname verbose)).
  { unfold listAll. apply emitsOnly_bind.
    - apply emitsOnly_mapErr. intros w'. rewrite ListZones_events.
      repeat constructor. apply Hh.
    - intros zones. induction zones as [|zone zones IH]; cbn [listRecords].
      + apply emitsOnly_ret.
      + apply emitsOnly_bind; [apply emitsOnly_when, emitsOnly_emit, Hl|].
        intros _. apply emitsOnly_bind.
        * apply emitsOnly_mapErr. unfold Cloudflare.ListDNSRecords.
          destruct (String.length (ZID zone) =? 0); [apply emitsOnly_fail|].
          apply emitsOnly_bind; [apply emitsOnly_mapErr, Hreq|].
          intros body.
          destruct (json_Unmarshal_ListDNSResponse lib body) as [r|e];
            [|apply emitsOnly_fail].
          destruct (negb (LDSuccess r));
            [apply emitsOnly_fail|apply emitsOnly_ret].
        * intros records. apply emitsOnly_bind.
          -- intros w'. unfold eventsOf, recordLogs. cbn [snd].
             destruct verbose; [|constructor].
             apply Forall_forall. intros e He. apply in_map_iff in He.
             destruct He as [r [<- _]]. apply Hl.
          -- intros _. apply emitsOnly_bind; [exact IH|].
             intros more. apply emitsOnly_ret. }
  specialize (Hlist w).
  destruct (listAll lib env key email domain hostname verbose w)
    as [[[records|e] w1] ev1] eqn:E.
  - rewrite (updateIP_after_listing lib env _ _ _ _ _ ip _ _ _ _ E).
    cbv zeta. unfold eventsOf in *. cbn [snd] in *.
    destruct (filter _ records) as [|r [|r' m]]; cbn [snd]; try exact Hlist.
    apply Forall_app. split; [exact Hlist|].
    unfold Cfupdate.conditionalUpdate.
    destruct (String.eqb (Content r) (IP_String lib ip)).
    + repeat constructor. apply Hl.
    + cbv zeta.
      assert (H : emitsOnly P
                (when_ verbose
                   (emit (EvLog (LogUpdatingTo
                                   (setContent r (IP_String lib ip)))));;;
                 mapErr (append "Unable to update DNS record: ")
                   (Cloudflare.UpdateDNSRecord lib env
                      (Cloudflare.NewClient key email)
                      (setContent r (IP_String lib ip)));;;
                 emit (EvLog (LogUpdated hostname (IP_String lib ip))))).
      { apply emitsOnly_bind; [apply emitsOnly_when, emitsOnly_emit, Hl|].
        intros _. apply emitsOnly_bind; [|intros _; apply emitsOnly_emit, Hl].
        apply emitsOnly_mapErr. intros w'. rewrite UpdateDNSRecord_events.
        repeat constructor. apply Hh. }
      apply H.
  - (* the listing failed *)
    unfold Cfupdate.updateIP. unfold listAll in E.
    unfold bind at 1 in E. unfold bind at 1.
    destruct (mapErr _ _ w) as [[[zones|e0] w0] ev0].
    + unfold bind at 1. rewrite zoneLoop_listRecords.
      destruct (listRecords lib env _ verbose hostname "A" zones w0)
        as [[[recs|e1] w2] ev2]; [discriminate|].
      injection E as _ _ <-. exact Hlist.
    + injection E as _ _ <-. exact Hlist.
Qed.

Lemma getKeyFromFile_emits P keyFile :
  (forall path, P (EvOpen path)) ->
  emitsOnly P (Cfupdate.getKeyFromFile env keyFile).
Proof.
  intros Ho. unfold Cfupdate.getKeyFromFile.
  apply emitsOnly_bind; [apply emitsOnly_call, Ho|].
  intros fd. destruct (FileReadErr fd); [apply emitsOnly_fail|].
  destruct (String.length _ =? 0); [apply emitsOnly_fail|apply emitsOnly_ret].
Qed.

Lemma getNameserver_emits P :
  (forall path, P (EvOpen path)) -> emitsOnly P (Cfupdate.getNameserver env).
Proof.
  intros Ho. unfold Cfupdate.getNameserver.
  apply emitsOnly_bind; [apply emitsOnly_call, Ho|].
  intros fd. destruct (Bufio.ScanLines _ _) as [lines scanErr].
  destruct (Cfupdate.scanNameserver lines); [apply emitsOnly_ret|].
  destruct scanErr; apply emitsOnly_fail.
Qed.

(** The events of [dnsLookupHost] are the opening of the resolver file and
    the DNS exchange. *)
Lemma dnsLookupHost_emits P host :
  (forall path, P (EvOpen path)) -> (forall q addr, P (EvDNSExchange q addr)) ->
  emitsOnly P (Cfupdate.dnsLookupHost lib env host).
Proof.
  intros Ho Hx. unfold Cfupdate.dnsLookupHost.
  apply emitsOnly_bind; [apply emitsOnly_mapErr, getNameserver_emits, Ho|].
  intros nameserver. apply emitsOnly_bind.
  - intros w. unfold eventsOf. destruct (dns_Id env w). constructor.
  - intros id. apply emitsOnly_bind;
      [apply emitsOnly_mapErr, emitsOnly_call, Hx|].
    intros in_. destruct (negb _); [apply emitsOnly_fail|apply emitsOnly_ret].
Qed.

(** The events of the start of [main]: the key file is opened, the lookup
    service is asked when no IP was given, and a log line may follow. *)
Lemma desiredIP_emits P args :
  (forall path, P (EvOpen path)) -> (forall m, P (EvLog m)) ->
  (Cfupdate.IP args = None -> P EvIPLookup) ->
  emitsOnly P (desiredIP lib env args).
Proof.
  intros Ho Hl Hi. unfold desiredIP.
  apply emitsOnly_bind; [apply emitsOnly_mapErr, getKeyFromFile_emits, Ho|].
  intros key. apply emitsOnly_bind; [|intros ip; apply emitsOnly_ret].
  destruct (Cfupdate.IP args); [apply emitsOnly_ret|].
  apply emitsOnly_bind; [apply emitsOnly_mapErr, emitsOnly_call; now apply Hi|].
  intros myIP. apply emitsOnly_bind; [|intros _; apply emitsOnly_ret].
  apply emitsOnly_when, emitsOnly_emit, Hl.
Qed.

Lemma reconcile_emits P args key ip :
  (forall path, P (EvOpen path)) -> (forall m, P (EvLog m)) ->
  (forall q addr, P (EvDNSExchange q addr)) -> (forall req, P (EvHTTP req)) ->
  emitsOnly P (reconcile lib env args key ip).
Proof.
  intros Ho Hl Hx Hh. unfold reconcile, runUpdate.
  destruct (negb _); [apply emitsOnly_mapErr, updateIP_emits; assumption|].
  apply emitsOnly_bind; [apply emitsOnly_mapErr, dnsLookupHost_emits; assumption|].
  intros ips. destruct (List.length ips =? 0); [apply emitsOnly_fail|].
  destruct (1 <? List.length ips); [apply emitsOnly_fail|].
  destruct ips as [|currentIP rest]; [apply emitsOnly_fail|].
  apply emitsOnly_bind; [apply emitsOnly_when, emitsOnly_emit, Hl|].
  intros _. destruct (Net.Equal currentIP ip).
  - apply emitsOnly_when, emitsOnly_emit, Hl.
  - apply emitsOnly_mapErr, updateIP_emits; assumption.
Qed.

Lemma getArgs_IP f args :
  Cfupdate.getArgs lib f = Ok args ->
  Cfupdate.IP args
  = if 0 <? String.length (Cfupdate.ipString f)
    then net_ParseIP lib (Cfupdate.ipString f) else None.
Proof.
  unfold Cfupdate.getArgs.
  destruct (String.length (Cfupdate.email f) =? 0); [discriminate|].
  destruct (String.length (Cfupdate.domain f) =? 0); [discriminate|].
  destruct (String.length (Cfupdate.hostname f) =? 0); [discriminate|].
  destruct (String.length (Cfupdate.keyFile f) =? 0); [discriminate|].
  destruct (0 <? String.length (Cfupdate.ipString f)).
  - destruct (net_ParseIP lib (Cfupdate.ipString f)); [|discriminate].
    now intros [= <-].
  - now intros [= <-].
Qed.

(** C7. With an explicit IP address on the command line, the IP [main] sets
    is that address, as parsed: the rest of [main] runs with it, and no
    event of the run is a call of the external lookup service.  A run that
    calls the lookup service is a run without an explicit address; such a
    run, once the key is read, calls the service exactly once. *)
Theorem explicit_ip_skips_lookup f args w :
  Cfupdate.getArgs lib f = Ok args ->
  let run := Cfupdate.main lib env f w in
  (forall ip,
      Cfupdate.IP args = Some ip ->
      net_ParseIP lib (Cfupdate.ipString f) = Some ip
      /\ run = bind (mapErr (fun err => Cfupdate.Fatal ("Unable to read key: " ++ err))
                       (Cfupdate.getKeyFromFile env (Cfupdate.KeyFile args)))
                    (fun key => reconcile lib env args key ip) w
      /\ count isIPLookup (eventsOf run) = 0)
  /\ (count isIPLookup (eventsOf run) <> 0 ->
      Cfupdate.IP args = None /\ Cfupdate.ipString f = "")
  /\ (forall key w1 ev1,
         Cfupdate.IP args = None ->
         Cfupdate.getKeyFromFile env (Cfupdate.KeyFile args) w
           = (Ok key, w1, ev1) ->
         count isIPLookup (eventsOf run) = 1).
Proof.
  intros Hargs run.
  assert (Hrun : run = bind (desiredIP lib env args)
                            (fun p => reconcile lib env args (fst p) (snd p)) w).
  { unfold run. rewrite main_phases. now rewrite Hargs. }
  assert (Hsome : forall ip, Cfupdate.IP args = Some ip ->
                             count isIPLookup (eventsOf run) = 0).
  { intros ip Hip. rewrite Hrun. apply count_zero.
    apply (emitsOnly_bind (fun e => isIPLookup e = false)).
    - apply desiredIP_emits; try reflexivity. rewrite Hip. discriminate.
    - intros p. apply reconcile_emits; reflexivity. }
  pose proof (getArgs_IP f args Hargs) as HIP.
  split; [|split].
  - intros ip Hip. split; [|split].
    + rewrite Hip in HIP.
      destruct (0 <? String.length (Cfupdate.ipString f)); [now symmetry|].
      discriminate.
    + rewrite Hrun. unfold desiredIP. rewrite Hip.
      rewrite bind_assoc. apply bind_ext. intros key w1.
      rewrite bind_assoc, !bind_ret_l. reflexivity.
    + now apply Hsome with ip.
  - intros Hcount.
    destruct (Cfupdate.IP args) as [ip|] eqn:Hip.
    + exfalso. apply Hcount. now apply Hsome with ip.
    + split; [reflexivity|].
      destruct (0 <? String.length (Cfupdate.ipString f)) eqn:El.
      * exfalso. clear Hrun Hsome Hcount. unfold Cfupdate.getArgs in Hargs.
        rewrite El, <- HIP in Hargs.
        destruct (String.length (Cfupdate.email f) =? 0); [discriminate|].
        destruct (String.length (Cfupdate.domain f) =? 0); [discriminate|].
        destruct (String.length (Cfupdate.hostname f) =? 0); [discriminate|].
        destruct (String.length (Cfupdate.keyFile f) =? 0); discriminate.
      * destruct (Cfupdate.ipString f); [reflexivity|discriminate El].
  - intros key w1 ev1 Hip Hkey. rewrite Hrun.
    assert (Hk : count isIPLookup ev1 = 0).
    { pose proof (getKeyFromFile_emits (fun e => isIPLookup e = false)
                    (Cfupdate.KeyFile args) (fun _ => eq_refl) w) as H.
      rewrite Hkey in H. now apply count_zero. }
    assert (Hr : forall ip w2,
               count isIPLookup (eventsOf (reconcile lib env args key ip w2)) = 0).
    { intros ip w2. apply count_zero.
      apply (reconcile_emits (fun e => isIPLookup e = false)); reflexivity. }
    unfold desiredIP. rewrite Hip.
    rewrite bind_assoc.
    rewrite (bind_ok _ _ _ _ _ _ (mapErr_ok _ _ _ _ _ _ Hkey)).
    unfold eventsOf at 1. cbn [snd]. rewrite count_app, Hk. cbn [Nat.add].
    rewrite !bind_assoc. unfold bind at 1. unfold mapErr, call.
    destruct (icanhazip_Lookup env w1) as [[myIP|e] w2]; [|reflexivity].
    rewrite bind_assoc.
    destruct (Cfupdate.Verbose args); unfold when_.
    + unfold bind at 1, emit. rewrite !bind_ret_l. cbn [fst snd].
      specialize (Hr myIP w2).
      destruct (reconcile lib env args key myIP w2) as [[r w3] ev3].
      unfold eventsOf in *. cbn [snd app] in *. unfold count in *.
      cbn [filter isIPLookup List.length] in *. now rewrite Hr.
    + rewrite !bind_ret_l. cbn [fst snd].
      specialize (Hr myIP w2).
      destruct (reconcile lib env args key myIP w2) as [[r w3] ev3].
      unfold eventsOf in *. cbn [snd app] in *. unfold count in *.
      cbn [filter isIPLookup List.length] in *. now rewrite Hr.
Qed.

(** C2. In change-only mode, once the IP to set is known and the DNS lookup
    of the hostname has answered: no provider API call has been made so far;
    with no address [main] ends by the fatal error "No IPs found", with more
    than one by the fatal error that counts the A records, in both cases
    with no event after the lookup; with one address equal to the IP to set
    the run ends successfully and none of its events is a provider API
    call. *)
Theorem change_only_mode f args w key ip w0 ev0 ips w1 ev1 :
  Cfupdate.getArgs lib f = Ok args ->
  Cfupdate.OnlyIfDifferent args = true ->
  desiredIP lib env args w = (Ok (key, ip), w0, ev0) ->
  Cfupdate.dnsLookupHost lib env (Cfupdate.Hostname args) w0 = (Ok ips, w1, ev1) ->
  let run := Cfupdate.main lib env f w in
  count isProviderCall (ev0 ++ ev1) = 0
  /\ (List.length ips = 0 ->
      run = (Err (Cfupdate.Fatal
                    "Unable to determine current record IP via DNS. No IPs found."),
             w1, ev0 ++ ev1))
  /\ (2 <= List.length ips ->
      run = (Err (Cfupdate.Fatal
                    ("There are " ++ GoStrings.itoa (Z.of_nat (List.length ips))
                       ++ " A records. Unable to update.")),
             w1, ev0 ++ ev1))
  /\ (forall currentIP,
         ips = [currentIP] ->
         Net.Equal currentIP ip = true ->
         resultOf run = Ok tt /\ worldOf run = w1
         /\ count isProviderCall (eventsOf run) = 0).
Proof.
  intros Hargs Hmode Hip Hdns run.
  assert (Hev : count isProviderCall (ev0 ++ ev1) = 0).
  { rewrite count_app.
    pose proof (desiredIP_emits (fun e => isProviderCall e = false) args
                  (fun _ => eq_refl) (fun _ => eq_refl) (fun _ => eq_refl) w)
      as H0.
    pose proof (dnsLookupHost_emits (fun e => isProviderCall e = false)
                  (Cfupdate.Hostname args)
                  (fun _ => eq_refl) (fun _ _ => eq_refl) w0) as H1.
    rewrite Hip in H0. rewrite Hdns in H1. unfold eventsOf in H0, H1.
    cbn [snd] in H0, H1.
    now rewrite (count_zero _ _ H0), (count_zero _ _ H1). }
  assert (Hrun : run
                 = (resultOf (reconcile lib env args key ip w0),
                    worldOf (reconcile lib env args key ip w0),
                    ev0 ++ eventsOf (reconcile lib env args key ip w0))).
  { unfold run. rewrite main_phases, Hargs.
    now rewrite (bind_ok _ _ _ _ _ _ Hip). }
  assert (Hrec : reconcile lib env args key ip w0
                 = bind (fun w => (Ok ips, w1, ev1))
                     (fun ips =>
                        if List.length ips =? 0
                        then fail (Cfupdate.Fatal
                          "Unable to determine current record IP via DNS. No IPs found.")
                        else if 1 <? List.length ips
                        then fail (Cfupdate.Fatal
                               ("There are "
                                  ++ GoStrings.itoa (Z.of_nat (List.length ips))
                                  ++ " A records. Unable to update."))
                        else
                          match ips with
                          | currentIP :: _ =>
                              when_ (Cfupdate.Verbose args)
                                (emit (EvLog (LogHostCurrentIP
                                                (IP_String lib currentIP)))) ;;;
                              if Net.Equal currentIP ip
                              then when_ (Cfupdate.Verbose args)
                                     (emit (EvLog (LogMatchesNoUpdate
                                                     (IP_String lib ip))))
                              else runUpdate lib env args key ip
                          | [] => fail (Cfupdate.Fatal "index out of range")
                          end) w0).
  { unfold reconcile. rewrite Hmode. cbn [negb].
    unfold bind at 1 3. now rewrite (mapErr_ok _ _ _ _ _ _ Hdns). }
  split; [exact Hev|].
  split; [|split].
  - intros Hlen. rewrite Hrun, Hrec. destruct ips; [|discriminate Hlen].
    cbn. now rewrite app_nil_r.
  - intros Hlen. rewrite Hrun, Hrec.
    destruct ips as [|a [|b ips]]; cbn [List.length] in Hlen; try lia.
    unfold bind, fail, resultOf, worldOf, eventsOf.
    cbn [List.length Nat.eqb Nat.ltb Nat.leb fst snd]. now rewrite app_nil_r.
  - intros currentIP -> Heq. rewrite Hrun, Hrec.
    unfold bind, resultOf, worldOf, eventsOf.
    cbn [List.length Nat.eqb Nat.ltb Nat.leb fst snd]. rewrite Heq.
    rewrite count_app in Hev.
    destruct (Cfupdate.Verbose args); cbn; rewrite !count_app; cbn;
      repeat split; unfold count in *; cbn; lia.
Qed.

(** C10. The [-ip] flag takes any text that [net.ParseIP] accepts, whether
    the address is IPv4 or not: the parsed address becomes the IP of the
    arguments, and when [updateIP] updates a record of type "A" with it, the
    record sent has that type and the address's string form as content.  A
    non-empty text that does not parse makes [getArgs] fail with "Invalid IP
    address.", and [main] ends after the usage text, the world untouched. *)
Theorem ip_flag_accepts_any_parsed_address f :
  0 < String.length (Cfupdate.email f) ->
  0 < String.length (Cfupdate.domain f) ->
  0 < String.length (Cfupdate.hostname f) ->
  0 < String.length (Cfupdate.keyFile f) ->
  0 < String.length (Cfupdate.ipString f) ->
  (forall ip,
      net_ParseIP lib (Cfupdate.ipString f) = Some ip ->
      Cfupdate.getArgs lib f
      = Ok {| Cfupdate.Email := Cfupdate.email f;
              Cfupdate.Domain := Cfupdate.domain f;
              Cfupdate.Hostname := Cfupdate.hostname f;
              Cfupdate.KeyFile := Cfupdate.keyFile f;
              Cfupdate.IP := Some ip;
              Cfupdate.OnlyIfDifferent := Cfupdate.onlyIfDifferent f;
              Cfupdate.Verbose := Cfupdate.verbose f |}
      /\ forall client verbose record w,
          Cfupdate.matches (Cfupdate.hostname f) "A" record = true ->
          Content record <> IP_String lib ip ->
          let sent := setContent record (IP_String lib ip) in
          filter isUpdateCall
            (eventsOf (Cfupdate.conditionalUpdate lib env client
                         (Cfupdate.hostname f) verbose ip record w))
          = [EvHTTP (updateRequest lib client sent)]
          /\ Type_ sent = "A" /\ Content sent = IP_String lib ip)
  /\ (net_ParseIP lib (Cfupdate.ipString f) = None ->
      Cfupdate.getArgs lib f = Err "Invalid IP address."
      /\ forall w, Cfupdate.main lib env f w
                   = (Err Cfupdate.Usage, w, [EvPrintDefaults])).
Proof.
  intros He Hd Hh Hk Hi.
  assert (Hargs : Cfupdate.getArgs lib f
                  = match net_ParseIP lib (Cfupdate.ipString f) with
                    | None => Err "Invalid IP address."
                    | Some ip =>
                        Ok {| Cfupdate.Email := Cfupdate.email f;
                              Cfupdate.Domain := Cfupdate.domain f;
                              Cfupdate.Hostname := Cfupdate.hostname f;
                              Cfupdate.KeyFile := Cfupdate.keyFile f;
                              Cfupdate.IP := Some ip;
                              Cfupdate.OnlyIfDifferent :=
                                Cfupdate.onlyIfDifferent f;
                              Cfupdate.Verbose := Cfupdate.verbose f |}
                    end).
  { unfold Cfupdate.getArgs.
    apply Nat.ltb_lt in Hi. rewrite Hi.
    destruct (Nat.eqb_spec (String.length (Cfupdate.email f)) 0); [lia|].
    destruct (Nat.eqb_spec (String.length (Cfupdate.domain f)) 0); [lia|].
    destruct (Nat.eqb_spec (String.length (Cfupdate.hostname f)) 0); [lia|].
    destruct (Nat.eqb_spec (String.length (Cfupdate.keyFile f)) 0); [lia|].
    reflexivity. }
  split.
  - intros ip Hp. rewrite Hp in Hargs. split; [exact Hargs|].
    intros client verbose record w Hm Hc sent.
    destruct (conditionalUpdate_sends lib env client (Cfupdate.hostname f)
                verbose ip record w Hc) as [Hs _].
    split; [exact Hs|]. apply matches_iff in Hm. now split.
  - intros Hp. rewrite Hp in Hargs. split; [exact Hargs|].
    intros w. rewrite main_phases. now rewrite Hargs.
Qed.

End MainFlow.

(** An explicit IPv4 address on the command line. *)
Lemma explicit_ip_skips_lookup_witness :
  Cfupdate.getArgs Fixture.lib (Fixture.flags "203.0.113.5" false)
  = Ok (Fixture.args (Some Fixture.ip5) false)
  /\ count isIPLookup
       (eventsOf (Cfupdate.main Fixture.lib Fixture.env
                    (Fixture.flags "203.0.113.5" false) Fixture.firstRun)) = 0.
Proof.
  split; [reflexivity|].
  exact (proj2 (proj2 (proj1 (explicit_ip_skips_lookup Fixture.lib Fixture.env
                         (Fixture.flags "203.0.113.5" false)
                         (Fixture.args (Some Fixture.ip5) false)
                         Fixture.firstRun eq_refl)
                         Fixture.ip5 eq_refl))).
Defined.

(** Change-only mode, the host's address being the one the lookup service
    reports. *)
Lemma change_only_mode_witness :
  let run := Cfupdate.main Fixture.lib Fixture.env (Fixture.flags "" true)
                           Fixture.upToDate in
  resultOf run = Ok tt /\ count isProviderCall (eventsOf run) = 0.
Proof.
  intros run.
  pose proof (change_only_mode Fixture.lib Fixture.env (Fixture.flags "" true)
                (Fixture.args None true) Fixture.upToDate
                "secret" Fixture.ip5 _ _ _ _ _
                eq_refl eq_refl eq_refl eq_refl) as H.
  destruct H as (_ & _ & _ & H).
  destruct (H _ eq_refl eq_refl) as (H1 & _ & H2).
  split; [exact H1|exact H2].
Defined.

(** An IPv6 address on the command line, and the update of an A record
    with it. *)
Lemma ip_flag_accepts_any_parsed_address_witness :
  Net.To4 Fixture.ip6 = None
  /\ Cfupdate.getArgs Fixture.lib (Fixture.flags "2001:db8::1" false)
     = Ok (Fixture.args (Some Fixture.ip6) false)
  /\ filter isUpdateCall
       (eventsOf (Cfupdate.conditionalUpdate Fixture.lib Fixture.env
                    (Cloudflare.NewClient "secret" "me@example.com")
                    "host.example.com" false Fixture.ip6 Fixture.record1
                    Fixture.firstRun))
     = [EvHTTP (updateRequest Fixture.lib
                  (Cloudflare.NewClient "secret" "me@example.com")
                  (setContent Fixture.record1 "2001:db8::1"))].
Proof.
  split; [reflexivity|].
  pose proof (ip_flag_accepts_any_parsed_address Fixture.lib Fixture.env
                (Fixture.flags "2001:db8::1" false)) as H.
  destruct H as [H _]; try (cbn; lia).
  destruct (H Fixture.ip6 eq_refl) as [H1 H2].
  split; [exact H1|].
  apply H2; [reflexivity|discriminate].
Defined.

(* ================================================================== *)
(** * Further properties *)

(** ** Trimming and splitting *)

Section TrimSplit.
Import GoStrings.

Lemma rev_acc s : forall acc, rev s acc = (rev s "" ++ acc)%string.
Proof.
  induction s as [|a s IH]; intros acc; cbn [rev]; [reflexivity|].
  rewrite (IH (String a acc)), (IH (String a "")).
  now rewrite append_assoc.
Qed.

Lemma rev_append a b : rev (a ++ b) "" = (rev b "" ++ rev a "")%string.
Proof.
  induction a as [|x a IH]; cbn [append rev].
  - now rewrite append_empty_r.
  - rewrite (rev_acc (a ++ b)), (rev_acc a), IH. now rewrite append_assoc.
Qed.

Lemma rev_involutive s : rev (rev s "") "" = s.
Proof.
  induction s as [|a s IH]; [reflexivity|].
  cbn [rev]. rewrite (rev_acc s), rev_append, IH. reflexivity.
Qed.

Lemma lastByte_append_one s a : lastByte (s ++ String a "") = Some a.
Proof.
  induction s as [|x s IH]; [reflexivity|].
  cbn [append lastByte]. rewrite IH.
  destruct (s ++ String a "")%string eqn:E; [|reflexivity].
  destruct s; discriminate E.
Qed.

Lemma lastByte_rev s : lastByte (rev s "") = firstByte s.
Proof.
  destruct s as [|a s]; [reflexivity|].
  cbn [rev firstByte]. rewrite rev_acc. apply lastByte_append_one.
Qed.

Lemma firstByte_append s t : s <> "" -> firstByte (s ++ t) = firstByte s.
Proof. destruct s; [congruence|reflexivity]. Qed.

(** Trimming removes a prefix, and what is left does not start with a
    one-byte white space. *)
Lemma trimWith_spec sp2 sp3 n : forall s,
  String.length s <= n ->
  (exists p, s = (p ++ trimWith sp2 sp3 s)%string)
  /\ (forall a, firstByte (trimWith sp2 sp3 s) = Some a -> isSpace1 a = false).
Proof.
  induction n as [|n IH]; intros s Hn.
  - destruct s; [|cbn in Hn; lia]. split; [now exists ""|discriminate].
  - destruct s as [|a r1]; [split; [now exists ""|discriminate]|].
    cbn [String.length] in Hn.
    cbn [trimWith]. destruct (isSpace1 a) eqn:Ea.
    { destruct (IH r1 ltac:(lia)) as [[p Hp] Hh]. split; [|exact Hh].
      exists (String a p). cbn [append]. now rewrite <- Hp. }
    destruct r1 as [|b r2].
    { split; [now exists ""|]. intros a' [= <-]. exact Ea. }
    cbn [String.length] in Hn. destruct (sp2 a b).
    { destruct (IH r2 ltac:(lia)) as [[p Hp] Hh]. split; [|exact Hh].
      exists (String a (String b p)). cbn [append]. now rewrite <- Hp. }
    destruct r2 as [|c r3].
    { split; [now exists ""|]. intros a' [= <-]. exact Ea. }
    cbn [String.length] in Hn. destruct (sp3 a b c).
    { destruct (IH r3 ltac:(lia)) as [[p Hp] Hh]. split; [|exact Hh].
      exists (String a (String b (String c p))). cbn [append]. now rewrite <- Hp. }
    split; [now exists ""|]. intros a' [= <-]. exact Ea.
Qed.

Lemma TrimRightSpace_prefix t : exists q, t = (TrimRightSpace t ++ q)%string.
Proof.
  unfold TrimRightSpace.
  destruct (trimWith_spec (fun a b => isSpace2 b a) (fun a b c => isSpace3 c b a)
              _ (rev t "") (le_n _)) as [[p Hp] _].
  exists (rev p ""). rewrite <- rev_append, <- Hp. now rewrite rev_involutive.
Qed.

(** [TrimSpace] leaves no one-byte white space at either end. *)
Lemma TrimSpace_ends s :
  (forall a, firstByte (TrimSpace s) = Some a -> isSpace1 a = false)
  /\ (forall a, lastByte (TrimSpace s) = Some a -> isSpace1 a = false).
Proof.
  unfold TrimSpace. split; intros a Ha.
  - destruct (TrimRightSpace_prefix (TrimLeftSpace s)) as [q Hq].
    destruct (TrimRightSpace (TrimLeftSpace s)) as [|x u] eqn:E; [discriminate|].
    cbn in Ha. injection Ha as ->.
    destruct (trimWith_spec isSpace2 isSpace3 _ s (le_n _)) as [_ Hh].
    apply Hh. unfold TrimLeftSpace in Hq. now rewrite Hq.
  - unfold TrimRightSpace in Ha. rewrite lastByte_rev in Ha.
    destruct (trimWith_spec (fun a b => isSpace2 b a)
                (fun a b c => isSpace3 c b a) _
                (rev (TrimLeftSpace s) "") (le_n _)) as [_ Hh].
    now apply Hh.
Qed.

(** The pieces of [Split] hold no separator. *)
Lemma Split_no_sep s sep : Forall (fun p => contains sep p = false) (Split s sep).
Proof.
  induction s as [|a s IH]; cbn [Split]; [repeat constructor|].
  destruct (Ascii.eqb a sep) eqn:E; [constructor; [reflexivity|exact IH]|].
  destruct (Split s sep) as [|p ps]; [repeat constructor; cbn; now rewrite E|].
  inversion IH as [|? ? Hp Hps]; subst. constructor; [|exact Hps].
  cbn. now rewrite E, Hp.
Qed.

Lemma Split_nonempty s sep : Split s sep <> [].
Proof.
  destruct s as [|a s]; cbn [Split]; [discriminate|].
  destruct (Ascii.eqb a sep); [discriminate|].
  destruct (Split s sep); discriminate.
Qed.

(** The last piece is empty only for the empty string and for a string that
    ends with the separator. *)
Lemma Split_last_empty s sep :
  last (Split s sep) "" = "" -> s = "" \/ lastByte s = Some sep.
Proof.
  induction s as [|a s IH]; [now left|].
  cbn [Split]. pose proof (Split_nonempty s sep) as Hs.
  destruct (Ascii.eqb_spec a sep) as [->|Hne]; intros H; right.
  - destruct (Split s sep) as [|p ps] eqn:E; [congruence|].
    change (last (p :: ps) "" = "") in H.
    destruct (IH H) as [->|Hl]; [reflexivity|].
    cbn [lastByte]. destruct s; [discriminate|exact Hl].
  - destruct (Split s sep) as [|p ps] eqn:E; [congruence|].
    destruct ps as [|p' ps']; [discriminate H|].
    change (last (p' :: ps') "" = "") in H.
    change (last (p :: p' :: ps') "") with (last (p' :: ps') "") in IH.
    destruct (IH H) as [->|Hl]; [discriminate E|].
    cbn [lastByte]. destruct s; [discriminate|exact Hl].
Qed.

End TrimSplit.

(** ** The command line and the key file *)

Section CommandEdges.
Context {W : Type} (lib : Lib) (env : Env W).

(** X1. [getArgs] succeeds exactly when the four required flags are not
    empty and the [-ip] flag is empty or parses; the arguments are then the
    flags as given, with the parsed IP. *)
Theorem getArgs_ok_iff f args :
  Cfupdate.getArgs lib f = Ok args
  <-> (Cfupdate.email f <> "" /\ Cfupdate.domain f <> ""
       /\ Cfupdate.hostname f <> "" /\ Cfupdate.keyFile f <> "")
      /\ ((Cfupdate.ipString f = "" /\ Cfupdate.IP args = None)
          \/ (Cfupdate.ipString f <> ""
              /\ exists ip, net_ParseIP lib (Cfupdate.ipString f) = Some ip
                            /\ Cfupdate.IP args = Some ip))
      /\ Cfupdate.Email args = Cfupdate.email f
      /\ Cfupdate.Domain args = Cfupdate.domain f
      /\ Cfupdate.Hostname args = Cfupdate.hostname f
      /\ Cfupdate.KeyFile args = Cfupdate.keyFile f
      /\ Cfupdate.OnlyIfDifferent args = Cfupdate.onlyIfDifferent f
      /\ Cfupdate.Verbose args = Cfupdate.verbose f.
Proof.
  unfold Cfupdate.getArgs.
  destruct (Cfupdate.email f) as [|c1 s1] eqn:E1;
    [cbn; split; [discriminate|intros [[H _] _]; congruence]|].
  destruct (Cfupdate.domain f) as [|c2 s2] eqn:E2;
    [cbn; split; [discriminate|intros [(_ & H & _) _]; congruence]|].
  destruct (Cfupdate.hostname f) as [|c3 s3] eqn:E3;
    [cbn; split; [discriminate|intros [(_ & _ & H & _) _]; congruence]|].
  destruct (Cfupdate.keyFile f) as [|c4 s4] eqn:E4;
    [cbn; split; [discriminate|intros [(_ & _ & _ & H) _]; congruence]|].
  cbn [String.length Nat.eqb].
  destruct (Cfupdate.ipString f) as [|c5 s5] eqn:E5; cbn [String.length Nat.ltb Nat.leb].
  - split.
    + intros [= <-]. cbn. repeat split; try discriminate. now left.
    + intros (_ & [[_ Hip]|[Hne _]] & He & Hd & Hh & Hk & Ho & Hv);
        [|congruence].
      destruct args; cbn in *. now subst.
  - destruct (net_ParseIP lib (String c5 s5)) as [ip|] eqn:Ep.
    + split.
      * intros [= <-]. cbn. repeat split; try discriminate.
        right. split; [discriminate|]. now exists ip.
      * intros (_ & [[Hne _]|[_ (ip' & Hp & Hip)]] & He & Hd & Hh & Hk & Ho & Hv);
          [discriminate|].
        destruct args; cbn in *. injection Hp as <-. now subst.
    + split; [discriminate|].
      intros (_ & [[Hne _]|[_ (ip' & Hp & _)]] & _); discriminate.
Qed.

(** X2. When [getArgs] fails, whatever the reason, [main] prints the usage
    text and exits: the world is untouched, no file is opened and nothing is
    sent. *)
Theorem main_usage_exit f e w :
  Cfupdate.getArgs lib f = Err e ->
  Cfupdate.main lib env f w = (Err Cfupdate.Usage, w, [EvPrintDefaults]).
Proof. intros H. rewrite main_phases. now rewrite H. Qed.

Lemma getKeyFromFile_events keyFile w :
  eventsOf (Cfupdate.getKeyFromFile env keyFile w) = [EvOpen keyFile].
Proof.
  unfold Cfupdate.getKeyFromFile, bind, call, eventsOf.
  destruct (os_Open env keyFile w) as [[fd|e] w1]; [|reflexivity].
  destruct (FileReadErr fd); [reflexivity|].
  destruct (String.length _ =? 0); reflexivity.
Qed.

(** X3. [getKeyFromFile] opens the key file and nothing else.  The key it
    returns is the content of the file with the surrounding white space
    removed: it is never empty and neither starts nor ends with a space, a
    tab, a newline or a carriage return.  A file that cannot be opened gives
    the error of the opening, a failed read "Problem reading from file", and
    a file of white space only "No key found in file.". *)
Theorem getKeyFromFile_result keyFile w :
  let run := Cfupdate.getKeyFromFile env keyFile w in
  eventsOf run = [EvOpen keyFile]
  /\ worldOf run = snd (os_Open env keyFile w)
  /\ resultOf run
     = match fst (os_Open env keyFile w) with
       | Err err => Err err
       | Ok fd =>
           match FileReadErr fd with
           | Some err => Err ("Problem reading from file: " ++ err)%string
           | None =>
               if String.eqb (GoStrings.TrimSpace (FileBytes fd)) ""
               then Err "No key found in file."
               else Ok (GoStrings.TrimSpace (FileBytes fd))
           end
       end
  /\ (forall key,
         resultOf run = Ok key ->
         key <> ""
         /\ (forall a, firstByte key = Some a -> GoStrings.isSpace1 a = false)
         /\ (forall a, lastByte key = Some a -> GoStrings.isSpace1 a = false)).
Proof.
  intros run. split; [apply getKeyFromFile_events|].
  unfold run, Cfupdate.getKeyFromFile, bind, call, resultOf, worldOf.
  destruct (os_Open env keyFile w) as [[fd|e] w1]; cbn [fst snd].
  - destruct (FileReadErr fd); cbn [fst snd].
    + repeat split; discriminate.
    + pose proof (TrimSpace_ends (FileBytes fd)) as [Hf Hl].
      destruct (GoStrings.TrimSpace (FileBytes fd)) as [|c s] eqn:E.
      * cbn. repeat split; discriminate.
      * cbn [String.length Nat.eqb String.eqb fst snd ret].
        split; [reflexivity|]. split; [reflexivity|].
        intros key [= <-]. split; [discriminate|]. now split.
  - repeat split; discriminate.
Qed.

(** X4. A key that cannot be read ends [main] at once: the fatal error
    "Unable to read key", the key file being the only thing touched; the
    lookup service, the name server and the API are not contacted. *)
Theorem main_key_failure f args w e w1 ev1 :
  Cfupdate.getArgs lib f = Ok args ->
  Cfupdate.getKeyFromFile env (Cfupdate.KeyFile args) w = (Err e, w1, ev1) ->
  Cfupdate.main lib env f w
  = (Err (Cfupdate.Fatal ("Unable to read key: " ++ e)), w1,
     [EvOpen (Cfupdate.KeyFile args)]).
Proof.
  intros Hargs Hkey. rewrite main_phases, Hargs.
  pose proof (getKeyFromFile_events (Cfupdate.KeyFile args) w) as Hev.
  rewrite Hkey in Hev. unfold eventsOf in Hev. cbn [snd] in Hev. subst ev1.
  unfold desiredIP. rewrite bind_assoc.
  apply bind_err. unfold mapErr. now rewrite Hkey.
Qed.

End CommandEdges.

(** ** The resolver file and the DNS query *)

Lemma firstSome_In {A} (l : list (option A)) a :
  firstSome l = Some a -> In (Some a) l.
Proof.
  induction l as [|[x|] l IH]; cbn; [discriminate| |].
  - intros [= ->]. now left.
  - intros H. right. now apply IH.
Qed.

Lemma firstSome_app {A} (l1 l2 : list (option A)) :
  firstSome (l1 ++ l2)
  = match firstSome l1 with Some a => Some a | None => firstSome l2 end.
Proof. induction l1 as [|[x|] l1 IH]; cbn; auto. Qed.

(** What a directive line holds is not empty and holds no space. *)
Lemma directive_address line ns :
  directive line = Some ns -> ns <> "" /\ contains " "%char ns = false.
Proof.
  unfold directive. cbv zeta.
  pose proof (TrimSpace_ends line) as [_ Hl].
  destruct (GoStrings.TrimSpace line) as [|c text] eqn:E; [discriminate|].
  destruct (Ascii.eqb c "#"%char); [discriminate|].
  pose proof (Split_no_sep (String c text) " "%char) as Hs.
  pose proof (Split_last_empty (String c text) " "%char) as Hlast.
  destruct (GoStrings.Split (String c text) " "%char) as [|p0 [|p1 [|p2 ps]]];
    try discriminate.
  destruct (String.eqb p0 "nameserver"); [|discriminate].
  intros [= <-]. split.
  - intros ->. destruct (Hlast eq_refl) as [H|H]; [discriminate|].
    specialize (Hl _ H). discriminate Hl.
  - inversion Hs as [|? ? _ Hs']. inversion Hs' as [|? ? Hp _]. exact Hp.
Qed.

(** Joining the pieces of [Split] with the separator gives the string
    back. *)
Lemma Split_concat s sep :
  String.concat (String sep "") (GoStrings.Split s sep) = s.
Proof.
  assert (Hc : forall x y l,
             String.concat (String sep "") (x :: y :: l)
             = (x ++ String sep "" ++ String.concat (String sep "") (y :: l))%string)
    by reflexivity.
  induction s as [|a s IH]; [reflexivity|].
  cbn [GoStrings.Split]. pose proof (Split_nonempty s sep) as Hs.
  destruct (Ascii.eqb_spec a sep) as [->|Hne].
  - destruct (GoStrings.Split s sep) as [|p ps] eqn:E; [congruence|].
    rewrite Hc. rewrite IH. reflexivity.
  - destruct (GoStrings.Split s sep) as [|p ps] eqn:E; [congruence|].
    destruct ps as [|p' ps'].
    + cbn [String.concat] in *. now rewrite IH.
    + rewrite Hc. rewrite Hc in IH. rewrite <- IH. reflexivity.
Qed.

Lemma directive_line line ns :
  directive line = Some ns ->
  GoStrings.TrimSpace line = ("nameserver " ++ ns)%string.
Proof.
  unfold directive. cbv zeta.
  destruct (GoStrings.TrimSpace line) as [|c text] eqn:E; [discriminate|].
  destruct (Ascii.eqb c "#"%char); [discriminate|].
  pose proof (Split_concat (String c text) " "%char) as Hc.
  destruct (GoStrings.Split (String c text) " "%char) as [|p0 [|p1 [|p2 ps]]];
    try discriminate.
  destruct (String.eqb_spec p0 "nameserver") as [->|]; [|discriminate].
  intros [= <-]. now rewrite <- Hc.
Qed.

Section Resolver.
Context {W : Type} (lib : Lib) (env : Env W).

(** X5. The nameserver [getNameserver] returns is never empty and holds no
    space; it stands on a line of the file that reads, once trimmed,
    "nameserver", one space, and the nameserver. *)
Theorem getNameserver_address w ns w1 ev1 :
  Cfupdate.getNameserver env w = (Ok ns, w1, ev1) ->
  ns <> "" /\ contains " "%char ns = false
  /\ exists fd line,
       fst (os_Open env "/etc/resolv.conf" w) = Ok fd
       /\ In line (fst (Bufio.ScanLines (FileBytes fd) (FileReadErr fd)))
       /\ GoStrings.TrimSpace line = ("nameserver " ++ ns)%string.
Proof.
  intros H.
  destruct (os_Open env "/etc/resolv.conf" w) as [[fd|e] w0] eqn:Eo.
  - rewrite (getNameserver_result env w fd w0 Eo) in H.
    destruct (firstSome _) as [ns'|] eqn:Ef.
    + injection H as <- _ _.
      apply firstSome_In, in_map_iff in Ef. destruct Ef as [line [Hd Hin]].
      destruct (directive_address line ns' Hd) as [H1 H2].
      split; [exact H1|]. split; [exact H2|].
      exists fd, line. split; [reflexivity|]. split; [exact Hin|].
      now apply directive_line.
    + destruct (snd (Bufio.ScanLines _ _)); discriminate H.
  - unfold Cfupdate.getNameserver, bind, call in H. rewrite Eo in H.
    discriminate H.
Qed.

(** X6. Lines after the first directive do not matter: the loop over the
    lines of a file continued by more lines returns what it returns on the
    first lines when it finds a nameserver there, and what it returns on
    the further lines otherwise. *)
Theorem scanNameserver_app lines more :
  Cfupdate.scanNameserver (lines ++ more)
  = match Cfupdate.scanNameserver lines with
    | Some ns => Some ns
    | None => Cfupdate.scanNameserver more
    end.
Proof. rewrite !scanNameserver_first, map_app. apply firstSome_app. Qed.

Lemma getNameserver_events w :
  eventsOf (Cfupdate.getNameserver env w) = [EvOpen "/etc/resolv.conf"].
Proof.
  unfold Cfupdate.getNameserver, bind, call, eventsOf.
  destruct (os_Open env _ w) as [[fd|e] w1]; [|reflexivity].
  destruct (Bufio.ScanLines _ _) as [lines scanErr].
  destruct (Cfupdate.scanNameserver lines); [reflexivity|].
  destruct scanErr; reflexivity.
Qed.

(** X7. [dnsLookupHost] sends at most one query, and none when no nameserver
    is found: it then returns "Unable to determine a nameserver" having
    only opened the resolver file.  With a nameserver, the one query goes
    to port 53 of that nameserver and asks, recursion desired, the single
    question of the A records, class INET, of the fully qualified host. *)
Theorem dnsLookupHost_query host w :
  let run := Cfupdate.dnsLookupHost lib env host w in
  match Cfupdate.getNameserver env w with
  | (Err e, w1, _) =>
      run = (Err ("Unable to determine a nameserver: " ++ e)%string, w1,
             [EvOpen "/etc/resolv.conf"])
  | (Ok nameserver, w1, _) =>
      eventsOf run
      = [EvOpen "/etc/resolv.conf";
         EvDNSExchange
           {| DNS.Id := fst (dns_Id env w1); DNS.RecursionDesired := true;
              DNS.Questions := [ {| DNS.QName := dns_Fqdn lib host;
                                    DNS.Qtype := 1; DNS.Qclass := 1 |} ] |}
           (nameserver ++ ":53")%string]
  end.
Proof.
  intros run. unfold run, Cfupdate.dnsLookupHost.
  pose proof (getNameserver_events w) as Hev.
  destruct (Cfupdate.getNameserver env w) as [[[ns|e] w1] ev1] eqn:E;
    unfold eventsOf in Hev; cbn [snd] in Hev; subst ev1.
  - unfold bind, mapErr, call, eventsOf. rewrite E.
    destruct (dns_Id env w1) as [id w2]. cbn [fst snd].
    destruct (dns_Exchange env _ _ w2) as [[reply|e] w3]; [|reflexivity].
    destruct (negb _); reflexivity.
  - unfold bind, mapErr. now rewrite E.
Qed.

End Resolver.

Lemma getNameserver_address_witness :
  Cfupdate.getNameserver Fixture.env (Fixture.world Fixture.conf1 [] [])
  = (Ok "192.0.2.53", Fixture.world Fixture.conf1 [] [],
     [EvOpen "/etc/resolv.conf"])
  /\ contains " "%char "192.0.2.53" = false.
Proof.
  split; [reflexivity|].
  exact (proj1 (proj2 (getNameserver_address Fixture.env
                         (Fixture.world Fixture.conf1 [] []) "192.0.2.53"
                         _ _ eq_refl))).
Defined.

(** ** The query of [ListDNSRecords] *)

Section RecordsQuery.
Context {W : Type} (lib : Lib) (env : Env W).

Lemma listDNSRecordsValues_get recordType name content page perPage order
      direction match_ :
  let values := Cloudflare.listDNSRecordsValues recordType name content page
                  perPage order direction match_ in
  URL.Get values "type"
    = (if 0 <? String.length recordType then Some [recordType] else None)
  /\ URL.Get values "name"
     = (if 0 <? String.length name then Some [name] else None)
  /\ URL.Get values "content"
     = (if 0 <? String.length content then Some [content] else None)
  /\ URL.Get values "order"
     = (if 0 <? String.length order then Some [order] else None)
  /\ URL.Get values "direction"
     = (if 0 <? String.length direction then Some [direction] else None)
  /\ URL.Get values "match"
     = (if 0 <? String.length match_ then Some [match_] else None)
  /\ URL.Get values "page"
     = (if (0 <? page)%Z then Some [GoStrings.itoa page] else None)
  /\ URL.Get values "per_page"
     = (if (0 <? perPage)%Z then Some [GoStrings.itoa perPage] else None)
  /\ incl (map fst values) recordsKeys.
Proof.
  unfold Cloudflare.listDNSRecordsValues, recordsKeys.
  generalize (GoStrings.itoa page) (GoStrings.itoa perPage). intros sp spp.
  generalize (0 <? String.length recordType) (0 <? String.length name)
    (0 <? String.length content) (0 <? page)%Z (0 <? perPage)%Z
    (0 <? String.length order) (0 <? String.length direction)
    (0 <? String.length match_).
  intros b1 b2 b3 b4 b5 b6 b7 b8.
  destruct b1, b2, b3, b4, b5, b6, b7, b8;
    (repeat (split; [reflexivity|]); apply subsetb_incl; reflexivity).
Qed.

Lemma listDNSRecords_encode recordType name content page perPage order
      direction match_ :
  URL.Encode (Cloudflare.listDNSRecordsValues recordType name content page
                perPage order direction match_)
  = recordsQuery recordType name content page perPage order direction match_.
Proof.
  rewrite URLFacts.Encode_concat.
  unfold Cloudflare.listDNSRecordsValues, recordsQuery, queryParam. f_equal.
  generalize (GoStrings.itoa page) (GoStrings.itoa perPage). intros sp spp.
  generalize (0 <? String.length recordType) (0 <? String.length name)
    (0 <? String.length content) (0 <? page)%Z (0 <? perPage)%Z
    (0 <? String.length order) (0 <? String.length direction)
    (0 <? String.length match_).
  intros b1 b2 b3 b4 b5 b6 b7 b8.
  destruct b1, b2, b3, b4, b5, b6, b7, b8; reflexivity.
Qed.

Lemma ListDNSRecords_events c zoneID recordType name content page perPage
      order direction match_ w :
  eventsOf (Cloudflare.ListDNSRecords lib env c zoneID recordType name content
              page perPage order direction match_ w)
  = if String.length zoneID =? 0 then []
    else [EvHTTP (recordsRequest c zoneID recordType name content page perPage
                                 order direction match_)].
Proof.
  unfold Cloudflare.ListDNSRecords, recordsRequest.
  destruct (String.length zoneID =? 0); [reflexivity|].
  cbv zeta. rewrite listDNSRecords_encode.
  match goal with
  | |- context [Cloudflare.request env c "GET" ?u None] =>
      pose proof (request_events env c "GET" u None w) as H
  end.
  unfold bind, mapErr, eventsOf in *.
  destruct (Cloudflare.request env c "GET" _ None w) as [[[body|e] w1] ev1];
    cbn [snd] in *; [|exact H].
  subst ev1.
  destruct (json_Unmarshal_ListDNSResponse lib body) as [resp|e];
    [|reflexivity].
  destruct (LDSuccess resp); reflexivity.
Qed.

(** X10. Query construction of [ListDNSRecords]: [type], [name], [content],
    [order], [direction] and [match] are sent exactly when the parameter is
    not empty, [page] and [per_page] exactly when it is positive, each with
    the value given, and nothing else is sent; there is no default value.
    With a zone identifier that is not empty the call makes exactly one
    request, a GET to the records of the query-escaped zone with the URL
    encoding of these values, sorted by key. *)
Theorem ListDNSRecords_query_construction
    c zoneID recordType name content page perPage order direction match_ w :
  let values := Cloudflare.listDNSRecordsValues recordType name content page
                  perPage order direction match_ in
  (URL.Get values "type"
     = (if 0 <? String.length recordType then Some [recordType] else None)
   /\ URL.Get values "name"
      = (if 0 <? String.length name then Some [name] else None)
   /\ URL.Get values "content"
      = (if 0 <? String.length content then Some [content] else None)
   /\ URL.Get values "order"
      = (if 0 <? String.length order then Some [order] else None)
   /\ URL.Get values "direction"
      = (if 0 <? String.length direction then Some [direction] else None)
   /\ URL.Get values "match"
      = (if 0 <? String.length match_ then Some [match_] else None)
   /\ URL.Get values "page"
      = (if (0 <? page)%Z then Some [GoStrings.itoa page] else None)
   /\ URL.Get values "per_page"
      = (if (0 <? perPage)%Z then Some [GoStrings.itoa perPage] else None)
   /\ incl (map fst values) recordsKeys)
  /\ eventsOf (Cloudflare.ListDNSRecords lib env c zoneID recordType name
                 content page perPage order direction match_ w)
     = if String.length zoneID =? 0 then []
       else [EvHTTP {| Method := "GET";
                       Url := (Cloudflare.endpoint ++ "zones/"
                                 ++ URL.QueryEscape zoneID ++ "/dns_records?"
                                 ++ recordsQuery recordType name content page
                                      perPage order direction match_)%string;
                       Header := apiHeader c; Body := None |}].
Proof.
  intros values. split; [apply listDNSRecordsValues_get|].
  apply ListDNSRecords_events.
Qed.

End RecordsQuery.

Example recordsRequest_updateIP :
  Url (recordsRequest (Cloudflare.NewClient "secret" "me@example.com") "z1"
                      "A" "host.example.com" "" (-1) (-1) "" "" "")
  = "https://api.cloudflare.com/client/v4/zones/z1/dns_records?name=host.example.com&type=A".
Proof. reflexivity. Qed.

(** ** Failures and bounds of the update flow *)

Section UpdateEdges.
Context {W : Type} (lib : Lib) (env : Env W).

Lemma updateIP_listing_failed key email domain hostname verbose ip w e w1 ev1 :
  listAll lib env key email domain hostname verbose w = (Err e, w1, ev1) ->
  Cfupdate.updateIP lib env key email domain hostname verbose ip w
  = (Err e, w1, ev1).
Proof.
  intros E. unfold Cfupdate.updateIP. unfold listAll in E.
  unfold bind at 1 in E. unfold bind at 1.
  destruct (mapErr _ _ w) as [[[zones|e0] w0] ev0];
    [|injection E as <- <- <-; reflexivity].
  unfold bind at 1. rewrite zoneLoop_listRecords.
  destruct (listRecords lib env _ verbose hostname "A" zones w0)
    as [[[recs|e1] w2] ev2]; [discriminate|].
  injection E as <- <- <-. reflexivity.
Qed.

(** X8. When the listing fails, of the zones or of the records of any zone,
    [updateIP] returns that error and does nothing more: its events are
    those of the listing, whatever records the zones listed before held. *)
Theorem updateIP_listing_failure key email domain hostname verbose ip w e w1 ev1 :
  listAll lib env key email domain hostname verbose w = (Err e, w1, ev1) ->
  Cfupdate.updateIP lib env key email domain hostname verbose ip w
  = (Err e, w1, ev1)
  /\ count isUpdateCall ev1 = 0.
Proof.
  intros E. split; [now apply updateIP_listing_failed|].
  pose proof (listAll_no_update_calls lib env key email domain hostname
                verbose w) as H.
  now rewrite E in H.
Qed.

Lemma updateIP_update_bound key email domain hostname verbose ip w :
  count isUpdateCall
    (eventsOf (Cfupdate.updateIP lib env key email domain hostname verbose ip w))
  <= 1.
Proof.
  destruct (listAll lib env key email domain hostname verbose w)
    as [[[records|e] w1] ev1] eqn:E.
  - rewrite (updateIP_after_listing lib env key email domain hostname verbose
               ip w records w1 ev1 E).
    cbv zeta.
    pose proof (listAll_no_update_calls lib env key email domain hostname
                  verbose w) as Hl.
    rewrite E in Hl. unfold eventsOf in Hl. cbn [snd] in Hl.
    destruct (filter (Cfupdate.matches hostname "A") records) as [|r [|r' m]].
    + unfold eventsOf. cbn [snd]. lia.
    + destruct (String.eqb_spec (Content r) (IP_String lib ip)) as [Ec|Ec].
      * rewrite conditionalUpdate_up_to_date by exact Ec.
        unfold eventsOf. cbn [snd]. rewrite count_app, Hl. cbn. lia.
      * unfold eventsOf at 1. cbn [snd].
        rewrite count_app, Hl. unfold count at 1.
        destruct (conditionalUpdate_sends lib env (Cloudflare.NewClient key email)
                    hostname verbose ip r w1 Ec) as [-> _].
        cbn. lia.
    + unfold eventsOf. cbn [snd]. lia.
  - rewrite (updateIP_listing_failed _ _ _ _ _ ip _ _ _ _ E).
    pose proof (listAll_no_update_calls lib env key email domain hostname
                  verbose w) as H.
    rewrite E in H. unfold eventsOf in *. cbn [snd] in *. lia.
Qed.

(** X9. Whatever the API answers, [updateIP] makes at most one update
    call. *)
Theorem updateIP_at_most_one_update key email domain hostname verbose ip w :
  count isUpdateCall
    (eventsOf (Cfupdate.updateIP lib env key email domain hostname verbose ip w))
  <= 1.
Proof. apply updateIP_update_bound. Qed.

End UpdateEdges.

(** ** The requests of the listing *)

Section ListingRequests.
Context {W : Type} (lib : Lib) (env : Env W).

Lemma ListDNSRecords_ok_zone c zoneID recordType name content page perPage
      order direction match_ w records w1 ev1 :
  Cloudflare.ListDNSRecords lib env c zoneID recordType name content page
                            perPage order direction match_ w
    = (Ok records, w1, ev1) ->
  zoneID <> "".
Proof.
  unfold Cloudflare.ListDNSRecords. destruct zoneID; [discriminate|discriminate].
Qed.

Lemma requestsOf_app a b : requestsOf (a ++ b) = requestsOf a ++ requestsOf b.
Proof. apply filter_app. Qed.

Lemma requestsOf_recordLogs verbose records :
  requestsOf (recordLogs verbose records) = [].
Proof.
  unfold recordLogs, requestsOf. destruct verbose; [|reflexivity].
  induction records as [|r records IH]; [reflexivity|exact IH].
Qed.

Lemma listRecords_requests client verbose hostname zones :
  forall w records w1 ev1,
    listRecords lib env client verbose hostname "A" zones w
      = (Ok records, w1, ev1) ->
    Forall (fun zone => ZID zone <> "") zones
    /\ requestsOf ev1
       = map (fun zone =>
                EvHTTP (recordsRequest client (ZID zone) "A" hostname ""
                                       (-1) (-1) "" "" ""))
             zones.
Proof.
  induction zones as [|zone zones IH]; intros w records w1 ev1 H.
  - cbn in H. injection H as _ _ <-. split; [constructor|reflexivity].
  - cbn [listRecords] in H. unfold bind at 1 in H.
    destruct (when_ verbose (emit (EvLog (LogZone zone))) w)
      as [[[[]|e] w0] ev0] eqn:E0; [|discriminate].
    assert (Hz : w0 = w /\ requestsOf ev0 = []).
    { destruct verbose; cbn in E0; injection E0 as <- <-; now split. }
    destruct Hz as [-> Hev0].
    unfold bind at 1 in H.
    pose proof (ListDNSRecords_events lib env client (ZID zone) "A" hostname ""
                  (-1) (-1) "" "" "" w) as Hev.
    unfold mapErr at 1 in H.
    destruct (Cloudflare.ListDNSRecords lib env client (ZID zone) "A" hostname
                "" (-1) (-1) "" "" "" w) as [[[recs|e] w2] ev2] eqn:E2;
      [|discriminate].
    pose proof (ListDNSRecords_ok_zone _ _ _ _ _ _ _ _ _ _ _ _ _ _ E2) as Hne.
    unfold eventsOf in Hev. cbn [snd] in Hev.
    assert (Hlen : (String.length (ZID zone) =? 0) = false)
      by (destruct (ZID zone); [congruence|reflexivity]).
    rewrite Hlen in Hev. subst ev2.
    unfold bind at 1 in H. unfold bind at 1 in H.
    destruct (listRecords lib env client verbose hostname "A" zones w2)
      as [[[more|e] w3] ev3] eqn:E3; [|discriminate].
    destruct (IH _ _ _ _ E3) as [Hall Hreq].
    unfold ret in H. injection H as _ _ <-.
    split; [constructor; [exact Hne|exact Hall]|].
    rewrite requestsOf_app, Hev0.
    change (requestsOf (?e :: ?l)) with (if isProviderCall e then e :: requestsOf l
                                         else requestsOf l).
    cbn [isProviderCall app map].
    now rewrite !requestsOf_app, requestsOf_recordLogs, Hreq, app_nil_r.
Qed.

(** X11. A listing that succeeds has asked the API for the zones of the
    domain once, and then once for the A records of the hostname in each
    zone returned, in the order of the zones; every zone has an identifier
    that is not empty, and these are all the requests of the listing. *)
Theorem listAll_requests key email domain hostname verbose w records w1 ev1 :
  listAll lib env key email domain hostname verbose w = (Ok records, w1, ev1) ->
  let client := Cloudflare.NewClient key email in
  exists zones,
    resultOf (Cloudflare.ListZones lib env client domain "" (-1) (-1) "" "" "" w)
      = Ok zones
    /\ Forall (fun zone => ZID zone <> "") zones
    /\ requestsOf ev1
       = EvHTTP (zonesRequest client domain)
         :: map (fun zone =>
                   EvHTTP (recordsRequest client (ZID zone) "A" hostname ""
                                          (-1) (-1) "" "" ""))
                zones.
Proof.
  intros H client. unfold listAll in H. fold client in H.
  unfold bind at 1 in H. unfold mapErr at 1 in H.
  pose proof (ListZones_events lib env client domain "" (-1) (-1) "" "" "" w)
    as Hev.
  destruct (Cloudflare.ListZones lib env client domain "" (-1) (-1) "" "" "" w)
    as [[[zones|e] w0] ev0] eqn:E0; [|discriminate].
  unfold eventsOf in Hev. cbn [snd] in Hev. subst ev0.
  destruct (listRecords lib env client verbose hostname "A" zones w0)
    as [[[recs|e] w2] ev2] eqn:E2; [|discriminate].
  destruct (listRecords_requests _ _ _ _ _ _ _ _ E2) as [Hall Hreq].
  injection H as _ _ <-.
  exists zones. split; [reflexivity|]. split; [exact Hall|].
  cbn [app].
  change (requestsOf (?e :: ?l)) with (if isProviderCall e then e :: requestsOf l
                                       else requestsOf l).
  cbn [isProviderCall]. now rewrite Hreq.
Qed.

End ListingRequests.

Lemma listAll_requests_witness :
  exists zones,
    resultOf (Cloudflare.ListZones Fixture.lib Fixture.env
                (Cloudflare.NewClient "secret" "me@example.com")
                "example.com" "" (-1) (-1) "" "" "" Fixture.firstRun)
      = Ok zones
    /\ Forall (fun zone => ZID zone <> "") zones
    /\ requestsOf
         (eventsOf (listAll Fixture.lib Fixture.env "secret" "me@example.com"
                      "example.com" "host.example.com" true Fixture.firstRun))
       = EvHTTP (zonesRequest (Cloudflare.NewClient "secret" "me@example.com")
                              "example.com")
         :: map (fun zone =>
                   EvHTTP (recordsRequest
                             (Cloudflare.NewClient "secret" "me@example.com")
                             (ZID zone) "A" "host.example.com" ""
                             (-1) (-1) "" "" ""))
                zones.
Proof.
  exact (listAll_requests Fixture.lib Fixture.env "secret" "me@example.com"
           "example.com" "host.example.com" true Fixture.firstRun
           _ _ _ eq_refl).
Defined.

(** ** The events of the update flow, and the verbose mode *)

Section Verbose.
Context {W : Type} (lib : Lib) (env : Env W).

Lemma quiet_app a b : quiet (a ++ b) = quiet a ++ quiet b.
Proof. apply filter_app. Qed.

Lemma sameButLogs_refl {E A} (x : result E A * W * list Event) : sameButLogs x x.
Proof. repeat split. Qed.

Lemma sameButLogs_bind {E A B} (m1 m2 : M W E A) (f1 f2 : A -> M W E B) w :
  sameButLogs (m1 w) (m2 w) ->
  (forall a w1, sameButLogs (f1 a w1) (f2 a w1)) ->
  sameButLogs (bind m1 f1 w) (bind m2 f2 w).
Proof.
  unfold sameButLogs, bind, resultOf, worldOf, eventsOf.
  destruct (m1 w) as [[r1 w1] ev1], (m2 w) as [[r2 w2] ev2]. cbn [fst snd].
  intros (<- & <- & He) Hf. destruct r1 as [a|e]; [|now repeat split].
  specialize (Hf a w1).
  destruct (f1 a w1) as [[r3 w3] ev3], (f2 a w1) as [[r4 w4] ev4].
  cbn [fst snd] in *. destruct Hf as (<- & <- & He').
  repeat split. now rewrite !quiet_app, He, He'.
Qed.

Lemma sameButLogs_mapErr {E E' A} (wrap : E -> E') (m1 m2 : M W E A) w :
  sameButLogs (m1 w) (m2 w) ->
  sameButLogs (mapErr wrap m1 w) (mapErr wrap m2 w).
Proof.
  unfold sameButLogs, mapErr, resultOf, worldOf, eventsOf.
  destruct (m1 w) as [[r1 w1] ev1], (m2 w) as [[r2 w2] ev2]. cbn [fst snd].
  intros (<- & <- & He). destruct r1; now repeat split.
Qed.

Lemma sameButLogs_when {E} (e : Event) (w : W) :
  isVerboseLog e = true ->
  sameButLogs (@when_ W E true (emit e) w) (when_ false (emit e) w).
Proof.
  intros H. unfold sameButLogs, when_, emit, ret, resultOf, worldOf, eventsOf,
            quiet.
  cbn [fst snd filter]. rewrite H. now repeat split.
Qed.

Lemma sameButLogs_recordLogs {E} records (w : W) :
  sameButLogs (@Ok E unit tt, w, recordLogs true records)
              (Ok tt, w, recordLogs false records).
Proof.
  repeat split. unfold eventsOf, recordLogs, quiet. cbn [snd].
  induction records as [|r records IH]; [reflexivity|exact IH].
Qed.

Lemma listRecords_verbose client hostname zones : forall w,
  sameButLogs (listRecords lib env client true hostname "A" zones w)
              (listRecords lib env client false hostname "A" zones w).
Proof.
  induction zones as [|zone zones IH]; intros w; [apply sameButLogs_refl|].
  cbn [listRecords].
  apply sameButLogs_bind; [now apply sameButLogs_when|]. intros _ w1.
  apply sameButLogs_bind; [apply sameButLogs_refl|]. intros records w2.
  apply sameButLogs_bind; [apply sameButLogs_recordLogs|]. intros _ w3.
  apply sameButLogs_bind; [apply IH|]. intros more w4. apply sameButLogs_refl.
Qed.

Lemma zoneLoop_verbose client hostname zones acc : forall w,
  sameButLogs (Cfupdate.zoneLoop lib env client true hostname "A" zones acc w)
              (Cfupdate.zoneLoop lib env client false hostname "A" zones acc w).
Proof.
  intros w. rewrite !zoneLoop_listRecords.
  destruct (listRecords_verbose client hostname zones w) as (Hr & Hw & He).
  unfold sameButLogs, resultOf, worldOf, eventsOf in *.
  destruct (listRecords lib env client true hostname "A" zones w)
    as [[r1 w1] ev1].
  destruct (listRecords lib env client false hostname "A" zones w)
    as [[r2 w2] ev2].
  cbn [fst snd] in *. subst r2 w2. destruct r1; now repeat split.
Qed.

Lemma conditionalUpdate_verbose client hostname ip record w :
  sameButLogs (Cfupdate.conditionalUpdate lib env client hostname true ip record w)
              (Cfupdate.conditionalUpdate lib env client hostname false ip record w).
Proof.
  unfold Cfupdate.conditionalUpdate.
  destruct (String.eqb _ _); [apply sameButLogs_refl|]. cbv zeta.
  apply sameButLogs_bind; [now apply sameButLogs_when|]. intros _ w1.
  apply sameButLogs_refl.
Qed.

Lemma zoneLoop_shape client verbose hostname zones : forall acc,
  emitsOnly (updateEvent client verbose)
    (Cfupdate.zoneLoop lib env client verbose hostname "A" zones acc).
Proof.
  induction zones as [|zone zones IH]; intros acc; cbn [Cfupdate.zoneLoop].
  - apply emitsOnly_ret.
  - apply emitsOnly_bind.
    { destruct verbose; [apply emitsOnly_emit; reflexivity|apply emitsOnly_ret]. }
    intros _. apply emitsOnly_bind.
    { apply emitsOnly_mapErr. intros w. rewrite ListDNSRecords_events.
      destruct (String.length (ZID zone) =? 0); constructor; [|constructor].
      split; [reflexivity|]. now left. }
    intros records. apply emitsOnly_bind; [|intros m; apply IH].
    intros w. rewrite recordLoop_run. unfold eventsOf, recordLogs. cbn [snd].
    destruct verbose; [|constructor].
    apply Forall_forall. intros e He. apply in_map_iff in He.
    destruct He as [r [<- _]]. reflexivity.
Qed.

Lemma updateIP_events_shape_aux key email domain hostname verbose ip :
  emitsOnly (updateEvent (Cloudflare.NewClient key email) verbose)
    (Cfupdate.updateIP lib env key email domain hostname verbose ip).
Proof.
  unfold Cfupdate.updateIP. cbv zeta.
  apply emitsOnly_bind.
  { apply emitsOnly_mapErr. intros w. rewrite ListZones_events.
    constructor; [|constructor]. split; [reflexivity|]. now left. }
  intros zones. apply emitsOnly_bind; [apply zoneLoop_shape|].
  intros m. destruct (List.length m =? 0); [apply emitsOnly_fail|].
  destruct (1 <? List.length m); [apply emitsOnly_fail|].
  destruct m as [|record m]; [apply emitsOnly_fail|].
  unfold Cfupdate.conditionalUpdate.
  destruct (String.eqb _ _); [apply emitsOnly_emit; exact I|]. cbv zeta.
  apply emitsOnly_bind.
  { destruct verbose; [apply emitsOnly_emit; reflexivity|apply emitsOnly_ret]. }
  intros _. apply emitsOnly_bind; [|intros _; apply emitsOnly_emit; exact I].
  apply emitsOnly_mapErr. intros w. rewrite UpdateDNSRecord_events.
  constructor; [|constructor]. split; [reflexivity|]. right.
  split; [reflexivity|]. eexists. reflexivity.
Qed.

(** X13. What [updateIP] does to the world: every event of a run is a GET
    request without body or a PUT request with a body, each carrying the
    e-mail and key given as the authentication headers, or a log line.  It
    opens no file, asks neither the lookup service nor a name server and
    sends no DELETE; without the verbose mode its only log lines are the two
    that tell the outcome. *)
Theorem updateIP_events_shape key email domain hostname verbose ip :
  emitsOnly (updateEvent (Cloudflare.NewClient key email) verbose)
    (Cfupdate.updateIP lib env key email domain hostname verbose ip).
Proof. apply updateIP_events_shape_aux. Qed.

Lemma quiet_plain c evs : Forall (updateEvent c false) evs -> quiet evs = evs.
Proof.
  unfold quiet. induction 1 as [|e evs He _ IH]; [reflexivity|].
  cbn [filter]. rewrite IH.
  destruct e as [| | |req|[]|]; cbn in He |- *; try reflexivity;
    try contradiction; discriminate He.
Qed.

Lemma requestsOf_quiet evs : requestsOf (quiet evs) = requestsOf evs.
Proof.
  unfold requestsOf, quiet. induction evs as [|e evs IH]; [reflexivity|].
  cbn [filter]. destruct e as [| | |req|[]|]; cbn; rewrite ?IH; reflexivity.
Qed.

Lemma updateIP_verbose key email domain hostname ip w :
  sameButLogs (Cfupdate.updateIP lib env key email domain hostname true ip w)
              (Cfupdate.updateIP lib env key email domain hostname false ip w).
Proof.
  unfold Cfupdate.updateIP. cbv zeta.
  apply sameButLogs_bind; [apply sameButLogs_refl|]. intros zones w1.
  apply sameButLogs_bind; [apply zoneLoop_verbose|]. intros m w2.
  destruct (List.length m =? 0); [apply sameButLogs_refl|].
  destruct (1 <? List.length m); [apply sameButLogs_refl|].
  destruct m as [|record m]; [apply sameButLogs_refl|].
  apply conditionalUpdate_verbose.
Qed.

(** X12. The verbose mode only adds log lines: with and without it
    [updateIP] returns the same result, leaves the same world and emits the
    same events, API requests and the two log lines of the outcome, in the
    same order. *)
Theorem updateIP_verbose_only_logs key email domain hostname ip w :
  let loud := Cfupdate.updateIP lib env key email domain hostname true ip w in
  let plain := Cfupdate.updateIP lib env key email domain hostname false ip w in
  resultOf loud = resultOf plain
  /\ worldOf loud = worldOf plain
  /\ quiet (eventsOf loud) = eventsOf plain
  /\ requestsOf (eventsOf loud) = requestsOf (eventsOf plain).
Proof.
  intros loud plain.
  destruct (updateIP_verbose key email domain hostname ip w) as (Hr & Hw & He).
  fold loud plain in Hr, Hw, He.
  assert (Hq : quiet (eventsOf plain) = eventsOf plain).
  { apply (quiet_plain (Cloudflare.NewClient key email)).
    apply (updateIP_events_shape_aux key email domain hostname false ip w). }
  rewrite Hq in He.
  split; [exact Hr|]. split; [exact Hw|]. split; [exact He|].
  now rewrite <- He, requestsOf_quiet.
Qed.

End Verbose.

(** ** The command, with and without the change-only mode *)

Section MainEdges.
Context {W : Type} (lib : Lib) (env : Env W).

Lemma desiredIP_events args w :
  exists rest,
    eventsOf (desiredIP lib env args w) = EvOpen (Cfupdate.KeyFile args) :: rest
    /\ Forall (fun e => e = EvIPLookup \/ exists m, e = EvLog m) rest.
Proof.
  unfold desiredIP.
  pose proof (getKeyFromFile_events env (Cfupdate.KeyFile args) w) as Hk.
  unfold eventsOf in *. unfold bind at 1. unfold mapErr at 1.
  destruct (Cfupdate.getKeyFromFile env (Cfupdate.KeyFile args) w)
    as [[[key|e] w1] ev1]; cbn [snd] in *; subst ev1.
  - destruct (Cfupdate.IP args) as [ip|].
    + rewrite !bind_ret_l. exists []. now split.
    + rewrite bind_assoc. unfold bind at 1, mapErr, call.
      destruct (icanhazip_Lookup env w1) as [[myIP|e] w2].
      * rewrite bind_assoc.
        destruct (Cfupdate.Verbose args); unfold when_.
        -- unfold bind at 1, emit. rewrite !bind_ret_l. cbn.
           eexists. split; [reflexivity|].
           constructor; [now left|].
           constructor; [right; eexists; reflexivity|constructor].
        -- rewrite !bind_ret_l. cbn. eexists. split; [reflexivity|].
           constructor; [now left|constructor].
      * cbn. eexists. split; [reflexivity|].
        constructor; [now left|constructor].
  - exists []. now split.
Qed.

(** X14. Without the change-only mode [main] never opens the resolver file
    and sends no DNS query: the only file a run opens is the key file, and
    none of its events is a DNS exchange. *)
Theorem main_no_dns_without_change_only f args w :
  Cfupdate.getArgs lib f = Ok args ->
  Cfupdate.OnlyIfDifferent args = false ->
  Forall (fun e => match e with
                   | EvDNSExchange _ _ => False
                   | EvOpen path => path = Cfupdate.KeyFile args
                   | _ => True
                   end)
         (eventsOf (Cfupdate.main lib env f w)).
Proof.
  intros Hargs Hmode. rewrite main_phases, Hargs.
  destruct (desiredIP_events args w) as [rest [Hev Hrest]].
  unfold bind, eventsOf in *.
  destruct (desiredIP lib env args w) as [[[[key ip]|e] w1] ev1];
    cbn [fst snd] in *; subst ev1.
  - assert (Hu : Forall (fun e => match e with
                                  | EvDNSExchange _ _ => False
                                  | EvOpen path => path = Cfupdate.KeyFile args
                                  | _ => True
                                  end)
                        (snd (reconcile lib env args key ip w1))).
    { unfold reconcile, runUpdate. rewrite Hmode. cbn [negb].
      apply (emitsOnly_mapErr _ Cfupdate.Fatal).
      apply updateIP_emits; intros; exact I. }
    destruct (reconcile lib env args key ip w1) as [[r w2] ev2]. cbn [snd] in *.
    constructor; [reflexivity|]. apply Forall_app. split; [|exact Hu].
    eapply Forall_impl; [|exact Hrest].
    intros e [->|[m ->]]; exact I.
  - constructor; [reflexivity|].
    eapply Forall_impl; [|exact Hrest].
    intros e' [->|[m ->]]; exact I.
Qed.

(** X15. In change-only mode, when the name server answers with one address
    that is not equal to the IP to set, [main] goes on to [updateIP]: what
    it then does and how it ends are what [updateIP] does and returns, an
    error of [updateIP] being fatal. *)
Theorem change_only_mode_differs f args w key ip w0 ev0 currentIP w1 ev1 :
  Cfupdate.getArgs lib f = Ok args ->
  Cfupdate.OnlyIfDifferent args = true ->
  desiredIP lib env args w = (Ok (key, ip), w0, ev0) ->
  Cfupdate.dnsLookupHost lib env (Cfupdate.Hostname args) w0
    = (Ok [currentIP], w1, ev1) ->
  Net.Equal currentIP ip = false ->
  let update := Cfupdate.updateIP lib env key (Cfupdate.Email args)
                  (Cfupdate.Domain args) (Cfupdate.Hostname args)
                  (Cfupdate.Verbose args) ip w1 in
  let run := Cfupdate.main lib env f w in
  resultOf run
    = match resultOf update with
      | Ok tt => Ok tt
      | Err e => Err (Cfupdate.Fatal e)
      end
  /\ worldOf run = worldOf update
  /\ eventsOf run
     = ev0 ++ ev1
       ++ (if Cfupdate.Verbose args
           then [EvLog (LogHostCurrentIP (IP_String lib currentIP))] else [])
       ++ eventsOf update.
Proof.
  intros Hargs Hmode Hip Hdns Hne. cbv zeta.
  rewrite main_phases, Hargs.
  rewrite (bind_ok _ _ _ _ _ _ Hip). cbn [fst snd].
  unfold reconcile. rewrite Hmode. cbn [negb].
  rewrite (bind_ok _ _ _ _ _ _ (mapErr_ok _ _ _ _ _ _ Hdns)).
  cbn [List.length Nat.eqb Nat.ltb Nat.leb]. rewrite Hne.
  unfold runUpdate.
  unfold resultOf, worldOf, eventsOf, bind, mapErr, when_, emit, ret.
  destruct (Cfupdate.Verbose args);
    destruct (Cfupdate.updateIP _ _ _ _ _ _ _ _ _) as [[[[]|e] w2] ev2];
    cbn [fst snd app]; repeat split; now rewrite <- ?app_assoc.
Qed.

End MainEdges.

(** ** What the client returns, and the URLs it builds *)

Section ClientResults.
Context {W : Type} (lib : Lib) (env : Env W).

Lemma request_run c method url body w :
  let req := {| Method := method; Url := url; Header := apiHeader c;
                Body := body |} in
  Cloudflare.request env c method url body w
  = (bodyOf (fst (http_Do env req w)), snd (http_Do env req w), [EvHTTP req]).
Proof.
  cbv zeta. unfold Cloudflare.request, apiHeader, bodyOf, bind, mapErr, call.
  destruct (http_Do env _ w) as [[resp|e] w1]; cbn [fst snd]; [|reflexivity].
  destruct (ReadErr resp); [reflexivity|].
  destruct (CloseErr resp); reflexivity.
Qed.

(** X16. [UpdateDNSRecord] returns without error exactly when the request
    went through, the body of the answer was read and closed, it decoded,
    and its success flag is set.  An answer whose success flag is not set
    gives the error that joins the API's errors and quotes the payload
    sent; the HTTP status is not looked at. *)
Theorem UpdateDNSRecord_result c record w :
  let answer := fst (http_Do env (updateRequest lib c record) w) in
  resultOf (Cloudflare.UpdateDNSRecord lib env c record w)
  = match bodyOf answer with
    | Err e => Err ("API request failure: " ++ e)%string
    | Ok body =>
        match json_Unmarshal_Response lib body with
        | Err e => Err ("JSON decoding problem: " ++ e ++ ": " ++ body)%string
        | Ok response =>
            if Success response then Ok tt
            else Err ("update DNS record error: "
                        ++ Cloudflare.errorsToError (Errors response)
                        ++ ". Payload: "
                        ++ json_Encode lib (marshalDNSRecord record))%string
        end
    end.
Proof.
  cbv zeta. unfold Cloudflare.UpdateDNSRecord, updateRequest. cbv zeta.
  unfold bind, mapErr, resultOf. rewrite request_run. cbv zeta.
  destruct (bodyOf _) as [body|e]; cbn [fst snd]; [|reflexivity].
  destruct (json_Unmarshal_Response lib body) as [resp|e]; [|reflexivity].
  destruct (Success resp); reflexivity.
Qed.

(** X17. [ListZones] and [ListDNSRecords] return the list of the decoded
    answer, as it is, exactly when the request went through, the body was
    read and closed, it decoded, and its success flag is set; otherwise the
    error of the first of these steps that failed.  [ListDNSRecords] makes
    no request for an empty zone identifier. *)
Theorem listing_results c name status zoneID recordType content page perPage
    order direction match_ w :
  resultOf (Cloudflare.ListZones lib env c name status page perPage order
              direction match_ w)
  = match bodyOf (fst (http_Do env
                         {| Method := "GET";
                            Url := Cloudflare.listZonesURL name status page
                                     perPage order direction match_;
                            Header := apiHeader c; Body := None |} w)) with
    | Err e => Err ("API request failure: " ++ e)%string
    | Ok body =>
        match json_Unmarshal_ListZoneResponse lib body with
        | Err e => Err ("JSON decoding problem: " ++ e)%string
        | Ok response =>
            if LZSuccess response then Ok (Zones response)
            else Err ("list zone error: "
                        ++ Cloudflare.errorsToError (LZErrors response))%string
        end
    end
  /\ resultOf (Cloudflare.ListDNSRecords lib env c zoneID recordType name
                 content page perPage order direction match_ w)
     = if String.eqb zoneID ""
       then Err "you must provide a zone ID. Use ListZones() to find one"
       else
         match bodyOf (fst (http_Do env
                              (recordsRequest c zoneID recordType name content
                                 page perPage order direction match_) w)) with
         | Err e => Err ("API request failure: " ++ e)%string
         | Ok body =>
             match json_Unmarshal_ListDNSResponse lib body with
             | Err e => Err ("JSON decoding problem: " ++ e)%string
             | Ok response =>
                 if LDSuccess response then Ok (Records response)
                 else Err ("list DNS records error: "
                             ++ Cloudflare.errorsToError (LDErrors response))%string
             end
         end.
Proof.
  split.
  - unfold Cloudflare.ListZones. cbv zeta.
    unfold bind, mapErr, resultOf. rewrite request_run. cbv zeta.
    destruct (bodyOf _) as [body|e]; cbn [fst snd]; [|reflexivity].
    destruct (json_Unmarshal_ListZoneResponse lib body) as [resp|e];
      [|reflexivity].
    destruct (LZSuccess resp); reflexivity.
  - unfold Cloudflare.ListDNSRecords, recordsRequest.
    destruct zoneID as [|c0 s0]; [reflexivity|].
    cbn [String.length Nat.eqb String.eqb]. cbv zeta.
    rewrite listDNSRecords_encode.
    unfold bind, mapErr, resultOf. rewrite request_run. cbv zeta.
    destruct (bodyOf _) as [body|e]; cbn [fst snd]; [|reflexivity].
    destruct (json_Unmarshal_ListDNSResponse lib body) as [resp|e];
      [|reflexivity].
    destruct (LDSuccess resp); reflexivity.
Qed.

(** X18. [PurgeAllFiles] with a zone identifier that is not empty makes
    exactly one request: a DELETE to the purge address of the query-escaped
    zone whose body is the JSON object with the single member
    "purge_everything", true.  It returns without error exactly when the
    answer decodes with its success flag set, and the debug mode only adds
    a log line with the answer. *)
Theorem PurgeAllFiles_request c zoneID w :
  zoneID <> "" ->
  let run := Cloudflare.PurgeAllFiles lib env c zoneID w in
  requestsOf (eventsOf run) = [EvHTTP (purgeRequest lib c zoneID)]
  /\ worldOf run = snd (http_Do env (purgeRequest lib c zoneID) w)
  /\ resultOf run
     = match bodyOf (fst (http_Do env (purgeRequest lib c zoneID) w)) with
       | Err e => Err ("API request failure: " ++ e)%string
       | Ok body =>
           match json_Unmarshal_Response lib body with
           | Err e => Err ("JSON decoding problem: " ++ e ++ ": " ++ body)%string
           | Ok response =>
               if Success response then Ok tt
               else Err ("purge error: "
                           ++ Cloudflare.errorsToError (Errors response)
                           ++ ". Payload: "
                           ++ json_Encode lib [("purge_everything", JBool true)])%string
           end
       end
  /\ eventsOf run
     = EvHTTP (purgeRequest lib c zoneID)
       :: match bodyOf (fst (http_Do env (purgeRequest lib c zoneID) w)) with
          | Err _ => []
          | Ok body =>
              match json_Unmarshal_Response lib body with
              | Err _ => []
              | Ok response =>
                  if Debug c then [EvLog (LogResponse response)] else []
              end
          end.
Proof.
  intros Hne. cbv zeta. unfold Cloudflare.PurgeAllFiles, purgeRequest.
  destruct (String.eqb_spec zoneID ""); [contradiction|]. cbv zeta.
  unfold marshalPurgePayload.
  unfold bind, mapErr, resultOf, worldOf, eventsOf, requestsOf.
  rewrite request_run. cbv zeta.
  destruct (bodyOf _) as [body|e]; cbn [fst snd]; [|repeat split].
  destruct (json_Unmarshal_Response lib body) as [resp|e]; [|repeat split].
  unfold when_, emit, ret.
  destruct (Debug c); destruct (Success resp); repeat split.
Qed.

End ClientResults.

Lemma fold_join (sep : string) (ps : list string) : forall buf,
  0 < String.length buf ->
  fold_left (fun (msg p : string) =>
               ((if (0 <? String.length msg)%nat then msg ++ sep else msg) ++ p)%string)
            ps buf
  = (buf ++ fold_right (fun p acc => sep ++ p ++ acc) "" ps)%string.
Proof.
  induction ps as [|p ps IH]; intros buf Hb; cbn [fold_left fold_right].
  - now rewrite append_empty_r.
  - destruct (Nat.ltb_spec 0 (String.length buf)); [|lia].
    rewrite IH.
    + now rewrite !append_assoc.
    + rewrite !length_append. lia.
Qed.

Lemma concat_fold_right (sep p : string) (ps : list string) :
  String.concat sep (p :: ps)
  = (p ++ fold_right (fun p acc => sep ++ p ++ acc) "" ps)%string.
Proof.
  revert p. induction ps as [|q ps IH]; intros p; cbn [String.concat fold_right].
  - now rewrite append_empty_r.
  - cbn [String.concat] in IH. now rewrite IH.
Qed.

(** X19. [errorsToError] joins the API's errors in order, each written
    "Code", the code in decimal, a colon and the message, separated by a
    comma and a space; without errors the text is empty. *)
Theorem errorsToError_join apiErrors :
  Cloudflare.errorsToError apiErrors
  = String.concat ", " (map errorText apiErrors).
Proof.
  unfold Cloudflare.errorsToError.
  assert (H : forall errs buf,
             fold_left
               (fun (msg : string) (err : APIError) =>
                  ((if (0 <? String.length msg)%nat then msg ++ ", " else msg)
                     ++ "Code " ++ GoStrings.itoa (Code err) ++ ": "
                     ++ Message err)%string) errs buf
             = fold_left
                 (fun (msg p : string) =>
                    ((if (0 <? String.length msg)%nat then msg ++ ", " else msg)
                       ++ p)%string) (map errorText errs) buf).
  { induction errs as [|err errs IH]; intros buf; [reflexivity|].
    cbn [fold_left map]. now rewrite IH. }
  rewrite H. destruct apiErrors as [|err errs]; [reflexivity|].
  cbn [map fold_left String.length Nat.ltb Nat.leb].
  rewrite concat_fold_right. apply fold_join.
  unfold errorText. cbn. lia.
Qed.

Lemma hexDigits_escaped c :
  escapedByte (URL.hexDigit (nat_of_ascii c / 16))
  && escapedByte (URL.hexDigit (nat_of_ascii c mod 16)) = true.
Proof. destruct c as [[] [] [] [] [] [] [] []]; vm_compute; reflexivity. Qed.

Lemma allBytes_contains p s c :
  allBytes p s = true -> p c = false -> contains c s = false.
Proof.
  induction s as [|a s IH]; [reflexivity|]. cbn [allBytes contains].
  intros H Hc. apply andb_true_iff in H. destruct H as [Ha Hs].
  rewrite (IH Hs Hc), orb_false_r.
  destruct (Ascii.eqb_spec a c) as [->|]; [congruence|reflexivity].
Qed.

(** X20. A query-escaped string is made of letters, digits and the bytes
    [-_.~+%] only: whatever the zone or record identifier, it adds no path
    segment, no query, no fragment and no parameter to the URL it is put
    in. *)
Theorem QueryEscape_bytes s :
  let e := URL.QueryEscape s in
  allBytes escapedByte e = true
  /\ contains "/"%char e = false /\ contains "?"%char e = false
  /\ contains "#"%char e = false /\ contains "&"%char e = false
  /\ contains "="%char e = false /\ contains " "%char e = false.
Proof.
  cbv zeta.
  assert (H : allBytes escapedByte (URL.QueryEscape s) = true).
  { induction s as [|c s IH]; [reflexivity|]. cbn [URL.QueryEscape].
    destruct (Ascii.eqb c " "%char); [cbn [allBytes]; now rewrite IH|].
    destruct (URL.shouldEscape c) eqn:E.
    - cbn [allBytes]. rewrite IH.
      pose proof (hexDigits_escaped c) as Hh.
      apply andb_true_iff in Hh. destruct Hh as [-> ->]. reflexivity.
    - cbn [allBytes]. rewrite IH. unfold escapedByte. now rewrite E. }
  split; [exact H|].
  repeat split; apply (allBytes_contains escapedByte); try exact H;
    reflexivity.
Qed.

(** ** The purge command *)

Section Purge.
Context {W : Type} (lib : Lib) (env : Env W).
Context (os_Close : string -> W -> option error * W).

Lemma ReadKeyFromFile_outputs keyFile w :
  exists rest,
    snd (Cfpurge.ReadKeyFromFile env os_Close keyFile w)
    = Cfpurge.World (EvOpen keyFile) :: rest
    /\ purgeRequests (snd (Cfpurge.ReadKeyFromFile env os_Close keyFile w)) = [].
Proof.
  unfold Cfpurge.ReadKeyFromFile.
  destruct (os_Open env keyFile w) as [[fd|e] w1].
  - destruct (os_Close keyFile w1) as [[err|] w2]; cbn [snd];
      eexists; split; reflexivity.
  - eexists; split; reflexivity.
Qed.


(** X22. [main] of [cfpurge] prints the usage text and exits, the world
    untouched, exactly when the e-mail, the domain or the key file is
    missing from the command line. *)
Theorem cfpurge_usage_iff f w :
  (Cfpurge.email f = "" \/ Cfpurge.domain f = "" \/ Cfpurge.keyFile f = "")
  <-> Cfpurge.main lib env os_Close f w
      = (Err Cfpurge.Usage, w, [Cfpurge.World EvPrintDefaults]).
Proof.
  unfold Cfpurge.main, Cfpurge.getArgs.
  destruct (Cfpurge.email f) as [|c1 s1]; [cbn; split; [reflexivity|now left]|].
  destruct (Cfpurge.domain f) as [|c2 s2];
    [cbn; split; [reflexivity|now right; left]|].
  destruct (Cfpurge.keyFile f) as [|c3 s3];
    [cbn; split; [reflexivity|now right; right]|].
  cbn [String.length Nat.eqb Cfpurge.KeyFile Cfpurge.Email Cfpurge.Domain
       Cfpurge.Verbose].
  split; [intros [H|[H|H]]; discriminate H|].
  intros H. exfalso.
  destruct (ReadKeyFromFile_outputs (String c3 s3) w) as [rest [Ho _]].
  destruct (Cfpurge.ReadKeyFromFile env os_Close (String c3 s3) w)
    as [[[key|e] w1] out1]; cbn [snd] in Ho; subst out1.
  - cbv zeta in H.
    destruct (Cloudflare.ListZones lib env _ _ _ _ _ _ _ _ w1)
      as [[[zones|e] w2] ev2]; [|discriminate H].
    destruct (negb (List.length zones =? 1)); [discriminate H|].
    destruct zones as [|zone zones]; [discriminate H|].
    destruct (Cloudflare.PurgeAllFiles lib env _ _ w2) as [[[[]|e] w3] ev3];
      discriminate H.
  - discriminate H.
Qed.

Lemma purgeRequests_app a b :
  purgeRequests (a ++ b) = purgeRequests a ++ purgeRequests b.
Proof. apply flat_map_app. Qed.

Lemma PurgeAllFiles_requests c zoneID w :
  purgeRequests (map Cfpurge.World
                   (eventsOf (Cloudflare.PurgeAllFiles lib env c zoneID w)))
  = if String.eqb zoneID "" then [] else [purgeRequest lib c zoneID].
Proof.
  unfold Cloudflare.PurgeAllFiles, purgeRequest.
  destruct (String.eqb zoneID ""); [reflexivity|]. cbv zeta.
  unfold marshalPurgePayload, bind, mapErr, eventsOf.
  rewrite request_run. cbv zeta.
  destruct (bodyOf _) as [body|e]; cbn [fst snd]; [|reflexivity].
  destruct (json_Unmarshal_Response lib body) as [resp|e]; [|reflexivity].
  unfold when_, emit, ret.
  destruct (Debug c); destruct (Success resp); reflexivity.
Qed.

Lemma ListZones_requests c name w :
  purgeRequests (map Cfpurge.World
                   (eventsOf (Cloudflare.ListZones lib env c name ""
                                (-1) (-1) "" "" "" w)))
  = [zonesRequest c name].
Proof. rewrite ListZones_events. reflexivity. Qed.

(** X23. [cfpurge] purges only when the API lists exactly one zone for the
    domain.  With no zone or with several, [main] ends by a fatal error,
    whose text does not name the domain but a nil error, after the one
    request that lists the zones.  With one zone it asks for the purge of
    that zone, and ends as that call does, an error of the purge being
    fatal. *)
Theorem cfpurge_zone_count f args w key w1 out1 zones w2 ev2 :
  Cfpurge.getArgs f = Ok args ->
  Cfpurge.ReadKeyFromFile env os_Close (Cfpurge.KeyFile args) w
    = (Ok key, w1, out1) ->
  Cloudflare.ListZones lib env (purgeClient args key) (Cfpurge.Domain args) ""
                       (-1) (-1) "" "" "" w1 = (Ok zones, w2, ev2) ->
  let run := Cfpurge.main lib env os_Close f w in
  (List.length zones <> 1 ->
   run = (Err (Cfpurge.Fatal "Zone not found for domain: %!s(<nil>)"), w2,
          out1 ++ map Cfpurge.World ev2)
   /\ purgeRequests (snd run)
      = [zonesRequest (purgeClient args key) (Cfpurge.Domain args)])
  /\ (forall zone,
         zones = [zone] ->
         let purge := Cloudflare.PurgeAllFiles lib env (purgeClient args key)
                        (ZID zone) w2 in
         fst (fst run)
           = match resultOf purge with
             | Ok _ => Ok tt
             | Err e => Err (Cfpurge.Fatal ("Purge failed: " ++ e))
             end
         /\ snd (fst run) = worldOf purge
         /\ purgeRequests (snd run)
            = zonesRequest (purgeClient args key) (Cfpurge.Domain args)
              :: (if String.eqb (ZID zone) "" then []
                  else [purgeRequest lib (purgeClient args key) (ZID zone)])).
Proof.
  intros Hargs Hkey Hzones run.
  pose proof (ReadKeyFromFile_outputs (Cfpurge.KeyFile args) w) as [_ [_ Hk]].
  rewrite Hkey in Hk. cbn [snd] in Hk.
  pose proof (ListZones_requests (purgeClient args key) (Cfpurge.Domain args) w1)
    as Hz.
  rewrite Hzones in Hz. unfold eventsOf in Hz. cbn [snd] in Hz.
  unfold run, Cfpurge.main. rewrite Hargs, Hkey. cbv zeta.
  fold (purgeClient args key). rewrite Hzones.
  split.
  - intros Hlen. destruct (Nat.eqb_spec (List.length zones) 1) as [E|E];
      [contradiction|]. cbn [negb snd].
    split; [reflexivity|]. now rewrite purgeRequests_app, Hk, Hz.
  - intros zone ->. cbn [List.length Nat.eqb negb].
    pose proof (PurgeAllFiles_requests (purgeClient args key) (ZID zone) w2)
      as Hp.
    unfold resultOf, worldOf, eventsOf in *.
    destruct (Cloudflare.PurgeAllFiles lib env (purgeClient args key)
                (ZID zone) w2) as [[[[]|e] w3] ev3]; cbn [fst snd] in *.
    + repeat split.
      rewrite !purgeRequests_app, Hk, Hz, Hp.
      destruct (Cfpurge.Verbose args); cbn [purgeRequests flat_map app];
        now rewrite app_nil_r.
    + repeat split. now rewrite !purgeRequests_app, Hk, Hz, Hp.
Qed.

(** X24. Whatever the world answers, a run of [cfpurge] makes no request,
    or one GET without body, or that GET followed by one DELETE: never a
    PUT, never a second purge, and no purge before the zones are listed. *)
Theorem cfpurge_requests_bound f w :
  match purgeRequests (snd (Cfpurge.main lib env os_Close f w)) with
  | [] => True
  | [r1] => Method r1 = "GET" /\ Body r1 = None
  | [r1; r2] => Method r1 = "GET" /\ Body r1 = None /\ Method r2 = "DELETE"
  | _ => False
  end.
Proof.
  unfold Cfpurge.main.
  destruct (Cfpurge.getArgs f) as [args|e]; [|exact I].
  pose proof (ReadKeyFromFile_outputs (Cfpurge.KeyFile args) w) as [_ [_ Hk]].
  destruct (Cfpurge.ReadKeyFromFile env os_Close (Cfpurge.KeyFile args) w)
    as [[[key|e] w1] out1]; cbn [snd] in *; [|now rewrite Hk].
  cbv zeta. fold (purgeClient args key).
  pose proof (ListZones_requests (purgeClient args key) (Cfpurge.Domain args) w1)
    as Hz.
  unfold eventsOf in Hz.
  destruct (Cloudflare.ListZones lib env (purgeClient args key)
              (Cfpurge.Domain args) "" (-1) (-1) "" "" "" w1)
    as [[[zones|e] w2] ev2]; cbn [snd] in *;
    [|rewrite purgeRequests_app, Hk, Hz; now split].
  destruct (negb (List.length zones =? 1));
    [cbn [snd]; rewrite purgeRequests_app, Hk, Hz; now split|].
  destruct zones as [|zone zones];
    [cbn [snd]; rewrite purgeRequests_app, Hk, Hz; now split|].
  pose proof (PurgeAllFiles_requests (purgeClient args key) (ZID zone) w2) as Hp.
  unfold eventsOf in Hp.
  destruct (Cloudflare.PurgeAllFiles lib env (purgeClient args key)
              (ZID zone) w2) as [[[[]|e] w3] ev3]; cbn [snd] in *;
    rewrite !purgeRequests_app, Hk, Hz, Hp;
    destruct (String.eqb (ZID zone) ""); destruct (Cfpurge.Verbose args);
    cbn; repeat split.
Qed.

End Purge.

(** ** Runs of the test double *)

(** A command line without e-mail. *)
Lemma main_usage_exit_witness :
  Cfupdate.getArgs Fixture.lib Scenario.noEmail = Err "You must provide an email."
  /\ Cfupdate.main Fixture.lib Fixture.env Scenario.noEmail Fixture.firstRun
     = (Err Cfupdate.Usage, Fixture.firstRun, [EvPrintDefaults]).
Proof.
  split; [reflexivity|].
  exact (main_usage_exit Fixture.lib Fixture.env Scenario.noEmail _
           Fixture.firstRun eq_refl).
Defined.

(** A key file that is not there. *)
Lemma main_key_failure_witness :
  Cfupdate.main Fixture.lib Fixture.env Scenario.noKeyFile Fixture.firstRun
  = (Err (Cfupdate.Fatal
            "Unable to read key: open nokey.txt: no such file or directory"),
     Fixture.firstRun, [EvOpen "nokey.txt"]).
Proof.
  exact (main_key_failure Fixture.lib Fixture.env Scenario.noKeyFile
           Scenario.noKeyFileArgs Fixture.firstRun _ _ _ eq_refl eq_refl).
Defined.

(** The API is gone after the zones are listed. *)
Lemma updateIP_listing_failure_witness :
  resultOf (Cfupdate.updateIP Fixture.lib Fixture.env "secret" "me@example.com"
              "example.com" "host.example.com" false Fixture.ip5
              Scenario.listingBreaks)
  = Err ("Unable to list DNS records: API request failure: "
           ++ "request problem: connection refused")%string.
Proof.
  exact (f_equal resultOf
           (proj1 (updateIP_listing_failure Fixture.lib Fixture.env "secret"
                     "me@example.com" "example.com" "host.example.com" false
                     Fixture.ip5 Scenario.listingBreaks _ _ _ eq_refl))).
Defined.

(** A run with an explicit IP and without the change-only mode. *)
Lemma main_no_dns_without_change_only_witness :
  Forall (fun e => match e with
                   | EvDNSExchange _ _ => False
                   | EvOpen path => path = "key.txt"
                   | _ => True
                   end)
         (eventsOf (Cfupdate.main Fixture.lib Fixture.env
                      (Fixture.flags "203.0.113.5" false) Fixture.firstRun)).
Proof.
  exact (main_no_dns_without_change_only Fixture.lib Fixture.env
           (Fixture.flags "203.0.113.5" false)
           (Fixture.args (Some Fixture.ip5) false) Fixture.firstRun
           eq_refl eq_refl).
Defined.

(** The name server knows the host under another address: the record is
    updated. *)
Lemma change_only_mode_differs_witness :
  let run := Cfupdate.main Fixture.lib Fixture.env (Fixture.flags "" true)
                           Scenario.staleAddress in
  resultOf run = Ok tt /\ count isUpdateCall (eventsOf run) = 1.
Proof.
  pose proof (change_only_mode_differs Fixture.lib Fixture.env
                (Fixture.flags "" true) (Fixture.args None true)
                Scenario.staleAddress "secret" Fixture.ip5 _ _ _ _ _
                eq_refl eq_refl eq_refl eq_refl eq_refl) as H.
  destruct H as (H1 & _ & H3). split.
  - exact H1.
  - rewrite H3. reflexivity.
Defined.

(** The purge of zone z1. *)
Lemma PurgeAllFiles_request_witness :
  requestsOf (eventsOf (Cloudflare.PurgeAllFiles Fixture.lib Fixture.env
                          (Cloudflare.NewClient "secret" "me@example.com")
                          "z1" Scenario.purgeAccepted))
  = [EvHTTP (purgeRequest Fixture.lib
               (Cloudflare.NewClient "secret" "me@example.com") "z1")].
Proof.
  refine (proj1 (PurgeAllFiles_request Fixture.lib Fixture.env
                   (Cloudflare.NewClient "secret" "me@example.com") "z1"
                   Scenario.purgeAccepted _)).
  discriminate.
Defined.

(** One zone is listed and purged. *)
Lemma cfpurge_zone_count_witness :
  let run := Cfpurge.main Fixture.lib Fixture.env Scenario.os_Close
                          Scenario.purgeFlags Scenario.purgeAccepted in
  fst (fst run) = Ok tt
  /\ map Method (purgeRequests (snd run)) = ["GET"; "DELETE"].
Proof.
  pose proof (cfpurge_zone_count Fixture.lib Fixture.env Scenario.os_Close
                Scenario.purgeFlags Scenario.purgeArgs Scenario.purgeAccepted
                "secret" _ _ _ _ _ eq_refl eq_refl eq_refl) as H.
  destruct H as [_ H]. destruct (H Fixture.zone1 eq_refl) as (H1 & _ & H3).
  split.
  - exact H1.
  - rewrite H3. reflexivity.
Defined.

(** ** No outside call is repeated *)

Section Bounds.
Context {W : Type} (lib : Lib) (env : Env W).

Lemma atMost_bind {E A B} p n1 n2 (m : M W E A) (f : A -> M W E B) :
  atMost p n1 m -> (forall a, atMost p n2 (f a)) -> atMost p (n1 + n2) (bind m f).
Proof.
  intros Hm Hf w. specialize (Hm w). unfold bind, eventsOf in *.
  destruct (m w) as [[[a|e] w1] ev1]; cbn -[count] in *; [|lia].
  specialize (Hf a w1). destruct (f a w1) as [[r w2] ev2]. cbn -[count] in *.
  rewrite count_app. lia.
Qed.

Lemma atMost_mapErr {E E' A} p n (wrap : E -> E') (m : M W E A) :
  atMost p n m -> atMost p n (mapErr wrap m).
Proof.
  intros Hm w. specialize (Hm w). unfold mapErr, eventsOf in *.
  now destruct (m w) as [[[a|e] w1] ev1].
Qed.

Lemma atMost_none {E A} p n (m : M W E A) :
  emitsOnly (fun e => p e = false) m -> atMost p n m.
Proof. intros H w. rewrite (count_zero _ _ (H w)). lia. Qed.

Lemma atMost_call {E A} p e (op : W -> result E A * W) : atMost p 1 (call e op).
Proof.
  intros w. unfold call, eventsOf. destruct (op w). cbn. destruct (p e); cbn; lia.
Qed.

Lemma dnsLookupHost_one_exchange host :
  atMost isDNSExchange 1 (Cfupdate.dnsLookupHost lib env host).
Proof.
  unfold Cfupdate.dnsLookupHost.
  apply (atMost_bind _ 0 1);
    [apply atMost_none, emitsOnly_mapErr, getNameserver_emits; reflexivity|].
  intros nameserver. apply (atMost_bind _ 0 1).
  { intros w. unfold eventsOf. destruct (dns_Id env w). cbn. lia. }
  intros id. apply (atMost_bind _ 1 0); [apply atMost_mapErr, atMost_call|].
  intros in_. apply atMost_none.
  destruct (negb _); [apply emitsOnly_fail | apply emitsOnly_ret].
Qed.

Lemma desiredIP_one_lookup args : atMost isIPLookup 1 (desiredIP lib env args).
Proof.
  unfold desiredIP.
  apply (atMost_bind _ 0 1);
    [apply atMost_none, emitsOnly_mapErr, getKeyFromFile_emits; reflexivity|].
  intros key. apply (atMost_bind _ 1 0); [|intros ip; apply atMost_none, emitsOnly_ret].
  destruct (Cfupdate.IP args); [apply atMost_none, emitsOnly_ret|].
  apply (atMost_bind _ 1 0); [apply atMost_mapErr, atMost_call|].
  intros myIP. apply atMost_none.
  apply emitsOnly_bind; [|intros _; apply emitsOnly_ret].
  apply emitsOnly_when, emitsOnly_emit. reflexivity.
Qed.

Lemma reconcile_one_exchange args key ip :
  atMost isDNSExchange 1 (reconcile lib env args key ip).
Proof.
  assert (Hu : emitsOnly (fun e => isDNSExchange e = false)
                 (runUpdate lib env args key ip)).
  { apply emitsOnly_mapErr, updateIP_emits; reflexivity. }
  unfold reconcile.
  destruct (negb _); [apply atMost_none, Hu|].
  apply (atMost_bind _ 1 0); [apply atMost_mapErr, dnsLookupHost_one_exchange|].
  intros ips. apply atMost_none.
  destruct (List.length ips =? 0); [apply emitsOnly_fail|].
  destruct (1 <? List.length ips); [apply emitsOnly_fail|].
  destruct ips as [|currentIP rest]; [apply emitsOnly_fail|].
  apply emitsOnly_bind; [apply emitsOnly_when, emitsOnly_emit; reflexivity|].
  intros _. destruct (Net.Equal currentIP ip); [|apply Hu].
  apply emitsOnly_when, emitsOnly_emit. reflexivity.
Qed.

Lemma reconcile_one_update args key ip :
  atMost isUpdateCall 1 (reconcile lib env args key ip).
Proof.
  assert (Hu : atMost isUpdateCall 1 (runUpdate lib env args key ip)).
  { apply atMost_mapErr. intros w. apply updateIP_update_bound. }
  unfold reconcile.
  destruct (negb _); [apply Hu|].
  apply (atMost_bind _ 0 1);
    [apply atMost_none, emitsOnly_mapErr, dnsLookupHost_emits; reflexivity|].
  intros ips.
  destruct (List.length ips =? 0); [apply atMost_none, emitsOnly_fail|].
  destruct (1 <? List.length ips); [apply atMost_none, emitsOnly_fail|].
  destruct ips as [|currentIP rest]; [apply atMost_none, emitsOnly_fail|].
  apply (atMost_bind _ 0 1);
    [apply atMost_none, emitsOnly_when, emitsOnly_emit; reflexivity|].
  intros _. destruct (Net.Equal currentIP ip); [|apply Hu].
  apply atMost_none, emitsOnly_when, emitsOnly_emit. reflexivity.
Qed.

(** X25.  One run of [main] never repeats an outside call: whatever the
    flags and whatever the outside world answers, it asks icanhazip.com at
    most once, sends at most one DNS query and sends at most one PUT. *)
Theorem main_no_retries f w :
  let evs := eventsOf (Cfupdate.main lib env f w) in
  count isIPLookup evs <= 1 /\ count isDNSExchange evs <= 1
  /\ count isUpdateCall evs <= 1.
Proof.
  cbv zeta. rewrite main_phases.
  destruct (Cfupdate.getArgs lib f) as [args|e];
    [|cbn; repeat split; lia].
  repeat split.
  - apply (atMost_bind _ 1 0); [apply desiredIP_one_lookup|].
    intros p. apply atMost_none, reconcile_emits; reflexivity.
  - apply (atMost_bind _ 0 1); [|intros p; apply reconcile_one_exchange].
    apply atMost_none, desiredIP_emits; try reflexivity. 
  - apply (atMost_bind _ 0 1); [|intros p; apply reconcile_one_update].
    apply atMost_none, desiredIP_emits; reflexivity.
Qed.
End Bounds.
